(** * store_with_lock.py: optimistic versions and a best-effort lock over a row store

    A shallow embedding of [GoogleSheetsStoreWithLocks] (src/store_with_lock.py).
    The three worksheets are tables of text cells; every method of the class is
    a computation in a small state-and-exception monad over a [world] that
    holds the worksheets, the clock, the random source of [uuid.uuid4], the
    session's block list and a schedule of transport failures. *)

From Stdlib Require Import ZArith NArith List String Ascii Bool Lia.
From Stdlib Require Import Decimal DecimalString DecimalPos DecimalZ.
Import ListNotations.

Open Scope string_scope.
Open Scope list_scope.
Open Scope Z_scope.

(** ** Python built-ins used by the module *)

Module Py.

(** [str.isspace] on the ASCII range: TAB..CR, FS..US and the blank. *)
Definition is_space (c : ascii) : bool :=
  let n := nat_of_ascii c in
  ((9 <=? n) && (n <=? 13) || (28 <=? n) && (n <=? 32))%nat.

Fixpoint lstrip (s : string) : string :=
  match s with
  | EmptyString => EmptyString
  | String c r => if is_space c then lstrip r else s
  end.

Fixpoint rstrip (s : string) : string :=
  match s with
  | EmptyString => EmptyString
  | String c r =>
      match rstrip r with
      | EmptyString => if is_space c then EmptyString else String c EmptyString
      | r' => String c r'
      end
  end.

(** [s.strip()] *)
Definition strip (s : string) : string := rstrip (lstrip s).

(** [s.replace("Z", "")] *)
Fixpoint remove_Z (s : string) : string :=
  match s with
  | EmptyString => EmptyString
  | String c r => if Ascii.eqb c "Z" then remove_Z r else String c (remove_Z r)
  end.

(** Truth value of a [str]: the empty string is false. *)
Definition truthy (s : string) : bool :=
  match s with
  | EmptyString => false
  | String _ _ => true
  end.

Definition is_digit (c : ascii) : bool :=
  let n := nat_of_ascii c in ((48 <=? n) && (n <=? 57))%nat.

Definition digit_val (c : ascii) : Z := Z.of_nat (nat_of_ascii c) - 48.

(** The digit part of an [int] literal: digits, single underscores allowed
    between two digits. [after_digit] tells whether the previous character
    was a digit. *)
Fixpoint digits_value (s : string) (acc : Z) (after_digit : bool) : option Z :=
  match s with
  | EmptyString => if after_digit then Some acc else None
  | String c r =>
      if is_digit c then digits_value r (10 * acc + digit_val c) true
      else if Ascii.eqb c "_" && after_digit then digits_value r acc false
      else None
  end.

(** [int(s)] for a [str] in base ten; [None] stands for [ValueError]. *)
Definition int (s : string) : option Z :=
  match strip s with
  | String "+" r => digits_value r 0 false
  | String "-" r => option_map Z.opp (digits_value r 0 false)
  | t => digits_value t 0 false
  end.

(** [str(n)] for an [int]. *)
Definition str (n : Z) : string := NilZero.string_of_int (Z.to_int n).

(** Characters [str(n)] is made of. *)
Definition plain_char (c : ascii) : bool := is_digit c || Ascii.eqb c "-".

Fixpoint all_chars (p : ascii -> bool) (s : string) : bool :=
  match s with
  | EmptyString => true
  | String c r => p c && all_chars p r
  end.

End Py.

(** ** Time

    A [datetime] is a point on the UTC time line, counted in microseconds;
    [timedelta(seconds=n)] is [n] million of them. *)

Definition datetime := Z.

Definition timedelta_seconds (n : Z) : Z := n * 1000000.

(** The text form of a [datetime] is the business of Python's library, and
    what [datetime.fromisoformat] accepts besides the output of [isoformat]
    differs between Python versions. The module is embedded over any pair of
    functions with the two properties it relies on. [fromisoformat] returns
    [None] where the Python call raises, or gives a value that cannot be
    compared with a naive [datetime]. *)
Class IsoCodec := {
  isoformat : datetime -> string;
  fromisoformat : string -> option datetime;
  fromisoformat_isoformat : forall t, fromisoformat (isoformat t) = Some t;
  isoformat_chars : forall t,
    Py.all_chars (fun c => negb (Py.is_space c) && negb (Ascii.eqb c "Z"))
                 (isoformat t) = true
}.

(** ** The row store

    Modelled from the spec: the external row store (a gspread worksheet in the
    source) is a table of text cells, the header in row 1, offering the four
    primitives of spec section 6: read the rows, append rows, update a cell
    range of a row, delete a row by index. Reads return the cells as stored. *)

Definition row := list string.
Definition sheet := list row.

Inductive wsname := WsResv | WsVers | WsLock.

(** Python [row[i]] guarded by a length test in the source. *)
Definition cell (i : nat) (r : row) : string := nth i r "".

(** Overwrite position [n], filling a shorter list with [d]. *)
Fixpoint set_nth {A : Type} (d : A) (n : nat) (x : A) (l : list A) : list A :=
  match n, l with
  | O, [] => [x]
  | O, _ :: t => x :: t
  | S n', [] => d :: set_nth d n' x []
  | S n', h :: t => h :: set_nth d n' x t
  end.

(** Cell (r, c), both counted from 1. *)
Definition write_cell (r c : nat) (v : string) (sh : sheet) : sheet :=
  set_nth [] (r - 1) (set_nth "" (c - 1) v (nth (r - 1) sh [])) sh.

(** Range [B{r}:D{r}] of one row. *)
Definition write_BD (r : nat) (b c d : string) (sh : sheet) : sheet :=
  write_cell r 4 d (write_cell r 3 c (write_cell r 2 b sh)).

Fixpoint remove_nth {A : Type} (n : nat) (l : list A) : list A :=
  match n, l with
  | _, [] => []
  | O, _ :: t => t
  | S n', h :: t => h :: remove_nth n' t
  end.

Definition delete_row (r : nat) (sh : sheet) : sheet := remove_nth (r - 1) sh.

(** ** The world and the monad *)

Inductive exn := TransportError | ValueError.

Inductive outcome (A : Type) :=
| Ok (a : A)
| Raised (e : exn).
Arguments Ok {A} a.
Arguments Raised {A} e.

Record world := mkWorld {
  resv : sheet;             (* ws_resv: reservations *)
  vers : sheet;             (* ws_vers: versions *)
  locks : sheet;            (* ws_lock: locks *)
  clock : datetime;         (* what datetime.utcnow() reads *)
  entropy : list N;         (* what os.urandom gives uuid.uuid4, call by call *)
  faults : list bool;       (* per call to the store: does the transport fail *)
  st_blocks : list string   (* ids of st.session_state["_blocks"] *)
}.

Definition with_faults (fs : list bool) (w : world) : world :=
  mkWorld (resv w) (vers w) (locks w) (clock w) (entropy w) fs (st_blocks w).

Definition with_clock (t : datetime) (w : world) : world :=
  mkWorld (resv w) (vers w) (locks w) t (entropy w) (faults w) (st_blocks w).

Definition with_entropy (e : list N) (w : world) : world :=
  mkWorld (resv w) (vers w) (locks w) (clock w) e (faults w) (st_blocks w).

Definition get_sheet (ws : wsname) (w : world) : sheet :=
  match ws with
  | WsResv => resv w
  | WsVers => vers w
  | WsLock => locks w
  end.

Definition set_sheet (ws : wsname) (sh : sheet) (w : world) : world :=
  match ws with
  | WsResv => mkWorld sh (vers w) (locks w) (clock w) (entropy w) (faults w) (st_blocks w)
  | WsVers => mkWorld (resv w) sh (locks w) (clock w) (entropy w) (faults w) (st_blocks w)
  | WsLock => mkWorld (resv w) (vers w) sh (clock w) (entropy w) (faults w) (st_blocks w)
  end.

Definition M (A : Type) : Type := world -> outcome A * world.

Definition ret {A : Type} (a : A) : M A := fun w => (Ok a, w).

Definition raise {A : Type} (e : exn) : M A := fun w => (Raised e, w).

Definition bind {A B : Type} (m : M A) (k : A -> M B) : M B :=
  fun w =>
    match m w with
    | (Ok a, w') => k a w'
    | (Raised e, w') => (Raised e, w')
    end.

Declare Scope py_scope.
Delimit Scope py_scope with py.
Notation "x <- m ;; k" := (bind m (fun x => k))
  (at level 100, m at next level, right associativity) : py_scope.
Notation "m ;; k" := (bind m (fun _ => k))
  (at level 100, right associativity) : py_scope.
Open Scope py_scope.

(** [try: body finally: fin]: the clean-up runs on every exit of [body]; an
    exception of the clean-up replaces the outcome of [body]. *)
Definition try_finally {A : Type} (body : M A) (fin : M unit) : M A :=
  fun w =>
    match body w with
    | (r, w1) =>
        match fin w1 with
        | (Ok _, w2) => (r, w2)
        | (Raised e, w2) => (Raised e, w2)
        end
    end.

(** One round trip to the store. The next entry of [faults] decides whether
    the transport fails, in which case nothing is read or written; an empty
    schedule means no further failure. *)
Definition tick (w : world) : world := with_faults (tl (faults w)) w.

Definition transport {A : Type} (op : world -> A * world) : M A :=
  fun w =>
    if hd false (faults w) then raise TransportError (tick w)
    else let (a, w') := op (tick w) in (Ok a, w').

Definition get_all_values (ws : wsname) : M sheet :=
  transport (fun w => (get_sheet ws w, w)).

Definition row_values (ws : wsname) (r : nat) : M row :=
  transport (fun w => (nth (r - 1) (get_sheet ws w) [], w)).

Definition append_rows (ws : wsname) (rows : list row) : M unit :=
  transport (fun w => (tt, set_sheet ws (get_sheet ws w ++ rows)%list w)).

Definition append_row (ws : wsname) (r : row) : M unit := append_rows ws [r].

Definition update_cell (ws : wsname) (r c : nat) (v : string) : M unit :=
  transport (fun w => (tt, set_sheet ws (write_cell r c v (get_sheet ws w)) w)).

Definition update_BD (ws : wsname) (r : nat) (b c d : string) : M unit :=
  transport (fun w => (tt, set_sheet ws (write_BD r b c d (get_sheet ws w)) w)).

(** [sh.worksheet(title)], with [sh.add_worksheet] when it is not found: a
    worksheet that does not exist yet is an empty table. *)
Definition worksheet (ws : wsname) : M unit :=
  transport (fun w => (tt, w)).

Definition clear (ws : wsname) : M unit :=
  transport (fun w => (tt, set_sheet ws [] w)).

Definition delete_rows (ws : wsname) (r : nat) : M unit :=
  transport (fun w => (tt, set_sheet ws (delete_row r (get_sheet ws w)) w)).

(** [datetime.utcnow()] *)
Definition utcnow : M datetime := fun w => (Ok (clock w), w).

(** [time.sleep(d)], [d] in microseconds; a negative [d] is a [ValueError]. *)
Definition sleep (d : Z) : M unit :=
  fun w => if d <? 0 then raise ValueError w else (Ok tt, with_clock (clock w + d) w).

(** [str(uuid.uuid4())]: sixteen random bytes with the version and variant
    bits forced, printed as 8-4-4-4-12 hexadecimal digits. *)
Definition hex_digit (n : N) : ascii :=
  if (n <? 10)%N then ascii_of_N (48 + n) else ascii_of_N (87 + n).

Definition nibble (i : N) (n : N) : ascii :=
  hex_digit (N.land (N.shiftr n (4 * i)) 15).

Fixpoint hex_from (i : nat) (n : N) (tail : string) : string :=
  match i with
  | O => tail
  | S i' => String (nibble (N.of_nat i') n) (hex_from i' n tail)
  end.

Definition uuid_int (r : N) : N :=
  let r0 := N.land r (N.ones 128) in
  let r1 := N.lor (N.ldiff r0 (N.shiftl 49152 48)) (N.shiftl 32768 48) in
  N.lor (N.ldiff r1 (N.shiftl 61440 64)) (N.shiftl 4 76).

Definition uuid_str (r : N) : string :=
  let n := uuid_int r in
  let h := fun (hi lo : nat) (tail : string) =>
             hex_from (hi - lo) (N.shiftr n (4 * N.of_nat lo)) tail in
  h 32%nat 24%nat (String "-" (h 24%nat 20%nat (String "-" (h 20%nat 16%nat
    (String "-" (h 16%nat 12%nat (String "-" (h 12%nat 0%nat ""))))))))%string.

Definition uuid4 : M string :=
  fun w =>
    match entropy w with
    | [] => (Ok (uuid_str 0), w)
    | r :: rs => (Ok (uuid_str r), with_entropy rs w)
    end.

(** ** Partition state

    A Python [dict] keeps its keys in insertion order and has one value per
    key; assignment to a present key replaces the value in place. *)

Definition dict (V : Type) : Type := list (string * V).

Fixpoint dict_get {V : Type} (k : string) (d : dict V) : option V :=
  match d with
  | [] => None
  | (k', v) :: t => if String.eqb k' k then Some v else dict_get k t
  end.

Fixpoint dict_set {V : Type} (k : string) (v : V) (d : dict V) : dict V :=
  match d with
  | [] => [(k, v)]
  | (k', v') :: t =>
      if String.eqb k' k then (k, v) :: t else (k', v') :: dict_set k v t
  end.

(** [{"user": .., "note": .., "createdAt": ..}]: a slot has its three keys,
    so it is never the empty dictionary and counts as true in [if slot]. *)
Record slot := mkSlot {
  slot_user : string;
  slot_note : string;
  slot_createdAt : string
}.

(** One court: block id to occupant or [None]. *)
Definition lane := dict (option slot).

(** [day]: court to lane. *)
Definition day := dict lane.

(** [day[court][block_id] = s]; the source only does this for a court that
    is a key of [day]. *)
Definition day_assign (court block_id : string) (s : option slot) (d : day) : day :=
  match dict_get court d with
  | Some l => dict_set court (dict_set block_id s l) d
  | None => d
  end.

(** [{blk["id"]: None for blk in blocks}] *)
Definition empty_lane (blocks : list string) : lane :=
  fold_left (fun d b => dict_set b None d) blocks [].

(** [sorted(idxs, reverse=True)] *)
Fixpoint insert_desc (x : nat) (l : list nat) : list nat :=
  match l with
  | [] => [x]
  | y :: t => if (y <=? x)%nat then x :: l else y :: insert_desc x t
  end.

Definition sorted_desc (l : list nat) : list nat := fold_right insert_desc [] l.

(** The loops [for idx, row in enumerate(vals, start=1)] that skip the header
    row: the first match, and all matches. *)
Fixpoint scan_first (p : row -> bool) (idx : nat) (vals : sheet) : option nat :=
  match vals with
  | [] => None
  | r :: rest =>
      if negb (idx =? 1)%nat && p r then Some idx else scan_first p (S idx) rest
  end.

Fixpoint scan_all (p : row -> bool) (idx : nat) (vals : sheet) : list nat :=
  match vals with
  | [] => []
  | r :: rest =>
      if negb (idx =? 1)%nat && p r then idx :: scan_all p (S idx) rest
      else scan_all p (S idx) rest
  end.

(** [len(row) >= n and row[0] == date_key] *)
Definition keyed (n : nat) (date_key : string) (r : row) : bool :=
  (n <=? List.length r)%nat && String.eqb (cell 0 r) date_key.

Definition HEADERS : row := ["date"; "court"; "blockId"; "user"; "note"; "createdAt"].
Definition VERS_HEADERS : row := ["date"; "version"].
Definition LOCK_HEADERS : row := ["date"; "token"; "user"; "expiresAt"].

(** [first != headers] *)
Fixpoint row_eqb (a b : row) : bool :=
  match a, b with
  | [], [] => true
  | x :: a', y :: b' => String.eqb x y && row_eqb a' b'
  | _, _ => false
  end.

Section Store.

Context {codec : IsoCodec}.

(** *** Worksheet helpers *)

Definition _ensure_ws (ws : wsname) (headers : row) : M unit :=
  worksheet ws ;;
  first <- row_values ws 1 ;;
  if negb (row_eqb first headers) then (clear ws ;; append_row ws headers)
  else ret tt.

Definition __init__ : M unit :=
  _ensure_ws WsResv HEADERS ;;
  _ensure_ws WsVers VERS_HEADERS ;;
  _ensure_ws WsLock LOCK_HEADERS.

Definition _read_all (ws : wsname) : M sheet := get_all_values ws.

Definition _find_rows_for_date (ws : wsname) (date_key : string) : M (list nat) :=
  values <- _read_all ws ;;
  ret (scan_all (keyed 1 date_key) 1 values).

(** *** Version (OCC) *)

Definition _get_version (date_key : string) : M Z :=
  vals <- _read_all WsVers ;;
  match scan_first (keyed 2 date_key) 1 vals with
  | Some idx =>
      match Py.int (cell 1 (nth (idx - 1) vals [])) with
      | Some v => ret v
      | None => ret 0
      end
  | None => ret 0
  end.

Definition _set_version (date_key : string) (new_version : Z) : M unit :=
  vals <- _read_all WsVers ;;
  match scan_first (keyed 2 date_key) 1 vals with
  | Some idx => update_cell WsVers idx 2 (Py.str new_version)
  | None => append_row WsVers [date_key; Py.str new_version]
  end.

(** *** Lock helpers *)

Definition _lock_row_index (date_key : string) : M (option nat) :=
  vals <- _read_all WsLock ;;
  ret (scan_first (keyed 1 date_key) 1 vals).

(** The [expired] flag of [acquire_lock]. *)
Definition lock_expired (now : datetime) (cur_exp : string) : bool :=
  if Py.truthy cur_exp then
    match fromisoformat (Py.remove_Z cur_exp) with
    | Some e => e <=? now
    | None => true
    end
  else true.

Definition stamp (t : datetime) : string := (isoformat t ++ "Z")%string.

(** The re-check that ends an attempt of [acquire_lock]; [next] is the rest
    of the loop after this attempt. *)
Definition recheck (date_key token : string) (next : M (option string))
    : M (option string) :=
  row_idx2 <- _lock_row_index date_key ;;
  row2 <- match row_idx2 with
          | Some i => row_values WsLock i
          | None => ret []
          end ;;
  if (4 <=? List.length row2)%nat && String.eqb (cell 0 row2) date_key
     && String.eqb (cell 1 row2) token
  then ret (Some token)
  else next.

(** [cur_token and not expired and cur_token != token] for the row read. *)
Definition held_by_other (token : string) (now : datetime) (r : row) : bool :=
  let cur_token := Py.strip (if (1 <? List.length r)%nat then cell 1 r else "") in
  let cur_exp := Py.strip (if (3 <? List.length r)%nat then cell 3 r else "") in
  let expired := lock_expired now cur_exp in
  Py.truthy cur_token && negb expired && negb (String.eqb cur_token token).

(** The body of [for attempt in range(max_retry)], with [n] iterations left;
    [backoff] is in microseconds. *)
Fixpoint acquire_attempts (date_key user : string) (ttl_sec backoff : Z)
    (token : string) (attempt : Z) (n : nat) : M (option string) :=
  match n with
  | O => ret None
  | S n' =>
      row_idx <- _lock_row_index date_key ;;
      now <- utcnow ;;
      let expires_at := now + timedelta_seconds ttl_sec in
      let next :=
        (sleep (backoff * (attempt + 1)) ;;
         acquire_attempts date_key user ttl_sec backoff token (attempt + 1) n') in
      match row_idx with
      | None =>
          append_row WsLock [date_key; token; user; stamp expires_at] ;;
          recheck date_key token next
      | Some i =>
          r <- row_values WsLock i ;;
          if held_by_other token now r then next
          else (update_BD WsLock i token user (stamp expires_at) ;;
                recheck date_key token next)
      end
  end.

Definition acquire_lock (date_key user : string) (ttl_sec max_retry backoff : Z)
    : M (option string) :=
  token <- uuid4 ;;
  acquire_attempts date_key user ttl_sec backoff token 0 (Z.to_nat max_retry).

Definition release_lock (date_key token : string) : M unit :=
  idx <- _lock_row_index date_key ;;
  match idx with
  | None => ret tt
  | Some i =>
      r <- row_values WsLock i ;;
      if (2 <=? List.length r)%nat && String.eqb (cell 1 r) token
      then (now <- utcnow ;;
            update_BD WsLock i "" "" (stamp (now - timedelta_seconds 1)))
      else ret tt
  end.

(** *** Partial load/save by date *)

Definition session_blocks : M (list string) := fun w => (Ok (st_blocks w), w).

Fixpoint load_rows (row_idxs : list nat) (d : day) : M day :=
  match row_idxs with
  | [] => ret d
  | r :: rest =>
      rw <- row_values WsResv r ;;
      if (6 <=? List.length rw)%nat then
        let court := cell 1 rw in
        if String.eqb court "A" || String.eqb court "B" then
          load_rows rest
            (day_assign court (cell 2 rw)
               (Some (mkSlot (cell 3 rw) (cell 4 rw) (cell 5 rw))) d)
        else load_rows rest d
      else load_rows rest d
  end.

Definition load_date (date_key : string) : M (day * Z) :=
  blocks <- session_blocks ;;
  let d0 : day := [("A", empty_lane blocks); ("B", empty_lane blocks)] in
  row_idxs <- _find_rows_for_date WsResv date_key ;;
  d <- load_rows row_idxs d0 ;;
  ver <- _get_version date_key ;;
  ret (d, ver).

Fixpoint delete_each (rs : list nat) : M unit :=
  match rs with
  | [] => ret tt
  | r :: rest => delete_rows WsResv r ;; delete_each rest
  end.

(** The inner loop of [save_date] over [(day.get(court) or {}).items()]. *)
Fixpoint lane_rows (date_key court : string) (items : lane) : M (list row) :=
  match items with
  | [] => ret []
  | (block_id, None) :: rest => lane_rows date_key court rest
  | (block_id, Some s) :: rest =>
      created <- (if Py.truthy (slot_createdAt s) then ret (slot_createdAt s)
                  else (now <- utcnow ;; ret (stamp now))) ;;
      rows <- lane_rows date_key court rest ;;
      ret ([date_key; court; block_id; slot_user s; slot_note s; created] :: rows)
  end.

Fixpoint courts_rows (date_key : string) (courts : list string) (d : day) : M (list row) :=
  match courts with
  | [] => ret []
  | court :: rest =>
      rows <- lane_rows date_key court
                (match dict_get court d with Some l => l | None => [] end) ;;
      more <- courts_rows date_key rest d ;;
      ret (rows ++ more)%list
  end.

(** [save_date] from the version check on. *)
Definition commit (date_key : string) (d : day) (expected_version : Z) : M (bool * string) :=
  current_version <- _get_version date_key ;;
  if negb (current_version =? expected_version) then ret (false, "VERSION_CONFLICT")
  else
    idxs <- _find_rows_for_date WsResv date_key ;;
    delete_each (sorted_desc idxs) ;;
    new_rows <- courts_rows date_key ["A"; "B"] d ;;
    match new_rows with
    | [] => ret tt
    | _ => append_rows WsResv new_rows
    end ;;
    _set_version date_key (current_version + 1) ;;
    ret (true, "").

Definition token_held (token : option string) : bool :=
  match token with
  | Some t => Py.truthy t
  | None => false
  end.

(** [token] is [None] until [acquire_lock] has returned, so an exception in
    [acquire_lock] leaves the [finally] clause nothing to release. The
    defaults [max_retry=5] and [backoff=0.5] apply. *)
Definition save_date (date_key : string) (d : day) (expected_version : Z)
    (user : string) (use_lock : bool) (ttl_sec : Z) : M (bool * string) :=
  token <- (if use_lock then acquire_lock date_key user ttl_sec 5 500000
            else ret None) ;;
  try_finally
    (if use_lock && negb (token_held token) then ret (false, "LOCK_FAIL")
     else commit date_key d expected_version)
    (match token with
     | Some t => if use_lock && Py.truthy t then release_lock date_key t else ret tt
     | None => ret tt
     end).

End Store.


(** ** Notions the properties are stated with *)

(** Value of a digit list read after the accumulator [acc]. *)
Fixpoint uint_value (d : uint) (acc : Z) : Z :=
  match d with
  | Nil => acc
  | D0 l => uint_value l (10 * acc)
  | D1 l => uint_value l (10 * acc + 1)
  | D2 l => uint_value l (10 * acc + 2)
  | D3 l => uint_value l (10 * acc + 3)
  | D4 l => uint_value l (10 * acc + 4)
  | D5 l => uint_value l (10 * acc + 5)
  | D6 l => uint_value l (10 * acc + 6)
  | D7 l => uint_value l (10 * acc + 7)
  | D8 l => uint_value l (10 * acc + 8)
  | D9 l => uint_value l (10 * acc + 9)
  end.

(** No transport failure is scheduled. *)
Definition calm (w : world) : Prop := faults w = [].

(** The next [n] round trips to the store do not fail. *)
Definition quiet (n : nat) (w : world) : Prop :=
  forallb negb (firstn n (faults w)) = true.

(** A worksheet with a row 1; [__init__] leaves the header there. *)
Definition headed (sh : sheet) : Prop := sh <> [].

(** The row a scan for [date_key] stops at. *)
Definition found_row (n : nat) (date_key : string) (sh : sheet) : option row :=
  match scan_first (keyed n date_key) 1 sh with
  | Some i => Some (nth (i - 1) sh [])
  | None => None
  end.

(** The version [_get_version] reads off the versions table. *)
Definition stored_version (date_key : string) (sh : sheet) : Z :=
  match found_row 2 date_key sh with
  | Some r => match Py.int (cell 1 r) with Some v => v | None => 0 end
  | None => 0
  end.

(** The lock record of [date_key], and the token it stores. *)
Definition lock_record (date_key : string) (sh : sheet) : option row :=
  found_row 1 date_key sh.

Definition stored_token (date_key : string) (sh : sheet) : option string :=
  match lock_record date_key sh with
  | Some r => nth_error r 1
  | None => None
  end.

(** The lock record of [date_key] stores exactly [token]. *)
Definition token_matches (date_key token : string) (sh : sheet) : bool :=
  match stored_token date_key sh with
  | Some t => String.eqb t token
  | None => false
  end.

(** The lock record of [k] is a full row that stores [token]. *)
Definition holds (k token : string) (sh : sheet) : Prop :=
  exists r, lock_record k sh = Some r /\ (4 <= List.length r)%nat
            /\ cell 0 r = k /\ cell 1 r = token.


(** [frame R m]: whatever its outcome, [m] takes a world to an [R]-related
    one. [same view] relates worlds that agree on [view]. *)
Definition frame {A : Type} (R : world -> world -> Prop) (m : M A) : Prop :=
  forall w, R w (snd (m w)).

Definition same {X : Type} (view : world -> X) : world -> world -> Prop :=
  fun w w' => view w' = view w.

Definition keeps_calm : world -> world -> Prop :=
  fun w w' => calm w -> calm w'.

(** The data rows of a table that belong to [date_key], and the table
    without them (row 1 is the header in both). *)
Definition key_rows (date_key : string) (sh : sheet) : list row :=
  match sh with
  | [] => []
  | _ :: rest => filter (keyed 1 date_key) rest
  end.

Definition other_rows (date_key : string) (sh : sheet) : sheet :=
  match sh with
  | [] => []
  | h :: rest => h :: filter (fun r => negb (keyed 1 date_key r)) rest
  end.

(** [for r in rows: sheet.delete_rows(r)] on the table itself. *)
Definition del_all (rs : list nat) (sh : sheet) : sheet :=
  fold_left (fun s r => delete_row r s) rs sh.

(** What a run of [_set_version] without transport failure writes. *)
Definition set_version_sheet (date_key : string) (v : Z) (sh : sheet) : sheet :=
  match scan_first (keyed 2 date_key) 1 sh with
  | Some i => write_cell i 2 (Py.str v) sh
  | None => (sh ++ [[date_key; Py.str v]])%list
  end.

(** What an attempt of [acquire_lock] writes when it takes the lock. *)
Definition grab (date_key token user expires : string) (sh : sheet) : sheet :=
  match scan_first (keyed 1 date_key) 1 sh with
  | Some i => write_BD i token user expires sh
  | None => (sh ++ [[date_key; token; user; expires]])%list
  end.

(** The tombstone [release_lock] writes. *)
Definition tombstone (date_key tomb : string) (sh : sheet) : sheet :=
  match scan_first (keyed 1 date_key) 1 sh with
  | Some i => write_BD i "" "" tomb sh
  | None => sh
  end.

(** The token [acquire_lock] is about to draw. *)
Definition next_token (w : world) : string :=
  match entropy w with
  | [] => uuid_str 0
  | r :: _ => uuid_str r
  end.

(** The occupants of a lane, in the order of its keys. *)
Definition occupied (l : lane) : list (string * slot) :=
  flat_map (fun kv => match snd kv with Some s => [(fst kv, s)] | None => [] end) l.

(** The world after that draw. *)
Definition drawn (w : world) : world :=
  match entropy w with
  | [] => w
  | _ :: rs => with_entropy rs w
  end.

Section Notions.

Context {codec : IsoCodec}.

(** An attempt of [acquire_lock] at time [now] finds the lock of [date_key]
    held by a token other than [token] and not expired. *)
Definition blocked (date_key token : string) (now : datetime) (sh : sheet) : bool :=
  match lock_record date_key sh with
  | Some r => held_by_other token now r
  | None => false
  end.

(** The rows [save_date] builds at time [now]. *)
Definition slot_row (now : datetime) (date_key court block_id : string) (s : slot) : row :=
  [date_key; court; block_id; slot_user s; slot_note s;
   if Py.truthy (slot_createdAt s) then slot_createdAt s else stamp now].

Fixpoint lane_rows_at (now : datetime) (date_key court : string) (items : lane)
    : list row :=
  match items with
  | [] => []
  | (_, None) :: rest => lane_rows_at now date_key court rest
  | (b, Some s) :: rest =>
      slot_row now date_key court b s :: lane_rows_at now date_key court rest
  end.

Fixpoint courts_rows_at (now : datetime) (date_key : string)
    (courts : list string) (d : day) : list row :=
  match courts with
  | [] => []
  | c :: rest =>
      (lane_rows_at now date_key c
         (match dict_get c d with Some l => l | None => [] end)
       ++ courts_rows_at now date_key rest d)%list
  end.

(** The occupant [save_date] writes for [s] at time [now]. *)
Definition stamped (now : datetime) (s : slot) : slot :=
  mkSlot (slot_user s) (slot_note s)
    (if Py.truthy (slot_createdAt s) then slot_createdAt s else stamp now).

Definition occupied_at (now : datetime) (l : lane) : list (string * slot) :=
  map (fun bs => (fst bs, stamped now (snd bs))) (occupied l).

(** What [load_date] does with one row of the reservations table. *)
Definition load_step (d : day) (rw : row) : day :=
  if (6 <=? List.length rw)%nat then
    if String.eqb (cell 1 rw) "A" || String.eqb (cell 1 rw) "B" then
      day_assign (cell 1 rw) (cell 2 rw)
        (Some (mkSlot (cell 3 rw) (cell 4 rw) (cell 5 rw))) d
    else d
  else d.

(** Histories of one partition: commits on [k] that end with a verdict, in
    between anything that leaves the stored version of [k] alone (the clock,
    other clients' locks, commits on other keys). The index counts the
    commits that succeeded. *)
Inductive history (k : string) : world -> nat -> world -> Prop :=
| history_nil (w : world) : history k w 0 w
| history_commit (w : world) (d : day) (v : Z) (user : string) (use_lock : bool)
    (ttl : Z) (ok : bool) (reason : string) (w1 : world) (n : nat) (w2 : world) :
    calm w -> headed (vers w) ->
    save_date k d v user use_lock ttl w = (Ok (ok, reason), w1) ->
    history k w1 n w2 ->
    history k w ((if ok then 1 else 0) + n) w2
| history_other (w w1 : world) (n : nat) (w2 : world) :
    stored_version k (vers w1) = stored_version k (vers w) ->
    history k w1 n w2 ->
    history k w n w2.

(** The step of [save_date] that takes the lock. *)
Definition lock_step (k user : string) (use_lock : bool) (ttl : Z) : M (option string) :=
  if use_lock then acquire_lock k user ttl 5 500000 else ret None.

(** The [finally] clause of [save_date]. *)
Definition unlock_step (k : string) (use_lock : bool) (token : option string) : M unit :=
  match token with
  | Some t => if use_lock && Py.truthy t then release_lock k t else ret tt
  | None => ret tt
  end.

End Notions.

(** Python's [==] on dictionaries with distinct keys: the same keys, and equal
    values under each. *)
Definition dict_eq {V : Type} (veq : V -> V -> Prop) (d1 d2 : dict V) : Prop :=
  forall k,
    match dict_get k d1, dict_get k d2 with
    | Some a, Some b => veq a b
    | None, None => True
    | _, _ => False
    end.

Definition day_eq : day -> day -> Prop := dict_eq (dict_eq eq).


(** [day.get(court) or {}] *)
Definition lane_of (court : string) (d : day) : lane :=
  match dict_get court d with
  | Some l => l
  | None => []
  end.

(** Assigning occupants to a lane, as [load_date] does row by row. *)
Definition fill (items : list (string * slot)) (l : lane) : lane :=
  fold_left (fun l bs => dict_set (fst bs) (Some (snd bs)) l) items l.

(** A lane that [load_date] gives back as it was saved, for the session's
    [blocks]: distinct keys, every configured block among them, nothing but
    configured blocks empty, and a creation time on every occupant. *)
Definition fits (blocks : list string) (l : lane) : Prop :=
  NoDup (map fst l)
  /\ (forall b, In b blocks -> dict_get b l <> None)
  /\ (forall b, dict_get b l = Some None -> In b blocks)
  /\ (forall b s, dict_get b l = Some (Some s) -> Py.truthy (slot_createdAt s) = true).

(** A day with the courts A and B and no other, each lane fitting. *)
Definition fits_day (blocks : list string) (d : day) : Prop :=
  (exists la lb,
      dict_get "A" d = Some la /\ dict_get "B" d = Some lb
      /\ fits blocks la /\ fits blocks lb)
  /\ (forall c, c <> "A" -> c <> "B" -> dict_get c d = None).

(** What [load_date] builds, whatever the rows: the courts A and B, and under
    each at least the configured blocks. *)
Definition shaped (blocks : list string) (d : day) : Prop :=
  map fst d = ["A"; "B"]
  /\ forall c l b, dict_get c d = Some l -> In b blocks -> dict_get b l <> None.

(** ** A store to run

    A store as [__init__] leaves it, a partition key, and states to commit. *)

Definition fresh : world :=
  mkWorld [HEADERS] [VERS_HEADERS] [LOCK_HEADERS] 1000000 [5%N; 77%N; 4242%N] []
          ["LUNCHA"; "LUNCHB"; "AFTER"].

Definition jan1 : string := "2024-01-01".

Definition no_one : lane := [("LUNCHA", None); ("LUNCHB", None); ("AFTER", None)].

Definition day_alice : day :=
  [("A", [("LUNCHA", Some (mkSlot "alice" "" "2024-01-01T09:00:00"));
          ("LUNCHB", None); ("AFTER", None)]);
   ("B", no_one)].

Definition day_alice_bob : day :=
  [("A", [("LUNCHA", Some (mkSlot "alice" "" "2024-01-01T09:00:00"));
          ("LUNCHB", None); ("AFTER", None)]);
   ("B", [("LUNCHA", Some (mkSlot "bob" "doubles" "2024-01-01T09:05:00"));
          ("LUNCHB", None); ("AFTER", None)])].

(** Alice without a creation time, and a day with a third court. *)
Definition day_undated : day :=
  [("A", [("LUNCHA", Some (mkSlot "alice" "" "")); ("LUNCHB", None); ("AFTER", None)]);
   ("B", no_one)].

Definition day_court_c : day :=
  [("A", no_one); ("B", no_one);
   ("C", [("LUNCHA", Some (mkSlot "bob" "" "2024-01-01T09:05:00"))])].

(** A store in which another client holds the lock of the key for a minute. *)
Definition held : world :=
  mkWorld [HEADERS] [VERS_HEADERS]
          [LOCK_HEADERS; [jan1; "7d1f4e0a-other"; "carol"; "60000000Z"]]
          1000000 [5%N; 77%N; 4242%N; 99%N] [] ["LUNCHA"; "LUNCHB"; "AFTER"].

(** A store whose ninth round trip fails: the write of the new version. *)
Definition flaky : world :=
  mkWorld [HEADERS] [VERS_HEADERS] [LOCK_HEADERS] 1000000 [5%N]
          [false; false; false; false; false; false; false; false; true]
          ["LUNCHA"; "LUNCHB"; "AFTER"].

(** A store whose version cell for the key is not a number. *)
Definition garbled : world :=
  mkWorld [HEADERS] [VERS_HEADERS; [jan1; "v1"]] [LOCK_HEADERS] 1000000 [5%N] []
          ["LUNCHA"; "LUNCHB"; "AFTER"].

Definition token5 : string := "00000000-0000-4000-8000-000000000005".

(** A store with a reservation on a court C. *)
Definition with_court_c : world :=
  mkWorld [HEADERS; [jan1; "C"; "LUNCHA"; "bob"; ""; "2024-01-01T09:05:00"]]
          [VERS_HEADERS] [LOCK_HEADERS] 1000000 [5%N] []
          ["LUNCHA"; "LUNCHB"; "AFTER"].

(** A store whose tenth round trip fails: the first of [release_lock]. *)
Definition flaky_release : world :=
  mkWorld [HEADERS] [VERS_HEADERS] [LOCK_HEADERS] 1000000 [5%N]
          [false; false; false; false; false; false; false; false; false; true]
          ["LUNCHA"; "LUNCHB"; "AFTER"].

Section Runs.

Context {codec : IsoCodec}.

(** Alice's commit on the fresh store, then Bob's stale one. *)
Definition after_alice : world :=
  snd (save_date jan1 day_alice 0 "alice" true 30 fresh).

Definition after_bob_stale : world :=
  snd (save_date jan1 day_alice_bob 0 "bob" true 30 after_alice).

(** On the store where Carol holds the lock: Alice is turned away, tries
    again after the lock has expired, then Bob commits twice, the first time
    with the version he read before Alice's commit. *)
Definition turned_away : world :=
  snd (save_date jan1 day_alice 0 "alice" true 30 held).

Definition carol_expired : world := with_clock 90000000 turned_away.

Definition alice_in : world :=
  snd (save_date jan1 day_alice 0 "alice" true 30 carol_expired).

Definition bob_stale : world :=
  snd (save_date jan1 day_alice_bob 0 "bob" true 30 alice_in).

Definition bob_in : world :=
  snd (save_date jan1 day_alice_bob 1 "bob" true 30 bob_stale).



End Runs.

(** ** Further notions

    Used by the properties of the store beyond the specification's own. *)

(** Row 1 of a worksheet is the header [headers]: the test of [_ensure_ws]. *)
Definition starts_with (headers : row) (sh : sheet) : bool :=
  row_eqb (nth 0 sh []) headers.

(** What [_ensure_ws] leaves of a worksheet. *)
Definition ensured (headers : row) (sh : sheet) : sheet :=
  if starts_with headers sh then sh else [headers].

(** The occupant a reservation row stands for, and the rows [load_date]
    takes for a court and a block. *)
Definition slot_of_row (r : row) : slot := mkSlot (cell 3 r) (cell 4 r) (cell 5 r).

Definition names (court block_id : string) (r : row) : bool :=
  (6 <=? List.length r)%nat && String.eqb (cell 1 r) court
  && String.eqb (cell 2 r) block_id.

(** The last of [rows] that names the court and the block. *)
Definition last_named (court block_id : string) (rows : list row) : option row :=
  find (names court block_id) (List.rev rows).

(** Indices in strictly increasing order. *)
Fixpoint increasing (l : list nat) : Prop :=
  match l with
  | [] => True
  | x :: t => (match t with [] => True | y :: _ => (x < y)%nat end) /\ increasing t
  end.

(** The key has no lock record, or one whose token is empty: never locked,
    or released. *)
Definition vacant (date_key : string) (sh : sheet) : Prop :=
  match lock_record date_key sh with
  | None => True
  | Some r => Py.strip (if (1 <? List.length r)%nat then cell 1 r else "") = ""
  end.

(** ** app.py: the day in memory and the booking operations

    The callers of the store. [BLOCKS] is kept by the ids of its entries,
    the only field these functions read. *)

Definition BLOCKS : list string := ["LUNCHA"; "LUNCHB"; "AFTER"].

(** [datetime.now().isoformat(timespec="seconds")]: local time, to the
    second. The text form is the business of Python's library, as for
    [IsoCodec]; it is never empty. *)
Class LocalTime := {
  utc_offset : Z;
  isoformat_seconds : datetime -> string;
  isoformat_seconds_truthy : forall t, Py.truthy (isoformat_seconds t) = true
}.

(** A [KeyError] of [day[court][block_id]]. It ends the call as an exception
    does; it is carried as a result to keep it apart from the exceptions of
    the store. *)
Inductive keyed_result (A : Type) :=
| Found (a : A)
| KeyError.
Arguments Found {A} a.
Arguments KeyError {A}.

(** [d.setdefault(k, v)] *)
Definition dict_setdefault {V : Type} (k : string) (v : V) (d : dict V) : dict V :=
  match dict_get k d with
  | Some _ => d
  | None => dict_set k v d
  end.

(** [for b in BLOCKS: day[c].setdefault(b["id"], None)] *)
Definition ensure_lane (l : lane) : lane :=
  fold_left (fun l b => dict_setdefault b None l) BLOCKS l.

(** One round of [for c in ("A","B")]; the inner dictionary is changed in
    place, so its key keeps its position. *)
Definition ensure_court (c : string) (d : day) : day :=
  let d1 := dict_setdefault c [] d in
  match dict_get c d1 with
  | Some l => dict_set c (ensure_lane l) d1
  | None => d1
  end.

(** The value [ensure_day(day)] returns. *)
Definition ensure_day (d : day) : day :=
  let d0 : day := match d with
                  | [] => [("A", []); ("B", [])]
                  | _ => d
                  end in
  fold_left (fun d c => ensure_court c d) ["A"; "B"] d0.

(** The caller's [day] after a call [ensure_day(day)] whose result is
    dropped: changed in place, except that an empty [day] stays empty,
    since the function then fills a dictionary of its own. *)
Definition ensure_day_in_place (d : day) : day :=
  match d with
  | [] => []
  | _ => ensure_day d
  end.

(** The court [book_block] checks for a booking of the same user. *)
Definition other_court (court : string) : string :=
  if String.eqb court "A" then "B" else "A".

Section App.

Context {codec : IsoCodec} {local : LocalTime}.

(** [datetime.now()] *)
Definition local_now : M datetime := fun w => (Ok (clock w + utc_offset), w).

(** [book_block]: the day as the call leaves it, and the verdict. *)
Definition book_block (d : day) (date_key court block_id user note : string)
    : M (keyed_result (day * (bool * string))) :=
  let d := ensure_day_in_place d in
  match dict_get court d with
  | None => ret KeyError
  | Some l =>
      match dict_get block_id l with
      | None => ret KeyError
      | Some (Some _) => ret (Found (d, (false, "TAKEN")))
      | Some None =>
          let other := other_court court in
          let book :=
            (now <- local_now ;;
             ret (Found (day_assign court block_id
                           (Some (mkSlot user (Py.strip note) (isoformat_seconds now))) d,
                         (true, "")))) in
          match dict_get other d with
          | None => ret KeyError
          | Some lo =>
              match dict_get block_id lo with
              | None => ret KeyError
              | Some (Some s) =>
                  if String.eqb (slot_user s) user
                  then ret (Found (d, (false, "OVERLAP")))
                  else book
              | Some None => book
              end
          end
      end
  end.

(** [cancel_block]: the day as the call leaves it, and the verdict. *)
Definition cancel_block (d : day) (date_key court block_id user : string)
    : day * (bool * string) :=
  let d := ensure_day_in_place d in
  match dict_get block_id (lane_of court d) with
  | Some (Some _) => (day_assign court block_id None d, (true, ""))
  | _ => (d, (false, "NOT_FOUND"))
  end.

(** [try_book]; [save_date] runs with its default [ttl_sec=30]. *)
Definition try_book (date_key court block_id user note : string)
    : M (keyed_result (bool * string)) :=
  loaded <- load_date date_key ;;
  let d := ensure_day (fst loaded) in
  booked <- book_block d date_key court block_id user note ;;
  match booked with
  | KeyError => ret KeyError
  | Found (d', (ok, reason)) =>
      if negb ok then ret (Found (false, reason))
      else (saved <- save_date date_key d' (snd loaded) user true 30 ;;
            ret (Found saved))
  end.

Definition try_cancel (date_key court block_id user : string) : M (bool * string) :=
  loaded <- load_date date_key ;;
  let d := ensure_day (fst loaded) in
  let cancelled := cancel_block d date_key court block_id user in
  if negb (fst (snd cancelled)) then ret (false, snd (snd cancelled))
  else save_date date_key (fst cancelled) (snd loaded) user true 30.

End App.

(** ** Notions for the booking operations *)

(** A day as [ensure_day] returns it: the courts A and B, and every block of
    [BLOCKS] under each. *)
Definition complete (d : day) : Prop :=
  forall c, c = "A" \/ c = "B" ->
    exists l, dict_get c d = Some l /\ forall b, In b BLOCKS -> dict_get b l <> None.

(** No key twice in a lane, as in a Python dictionary. *)
Definition tidy (d : day) : Prop :=
  forall c l, dict_get c d = Some l -> NoDup (map fst l).

(** [user] has the block on this lane. *)
Definition booked_by (user block_id : string) (l : lane) : bool :=
  match dict_get block_id l with
  | Some (Some s) => String.eqb (slot_user s) user
  | _ => false
  end.

(** Nobody has both courts in the same block. *)
Definition single_court (d : day) : Prop :=
  forall b sa sb,
    dict_get b (lane_of "A" d) = Some (Some sa) ->
    dict_get b (lane_of "B" d) = Some (Some sb) ->
    slot_user sa <> slot_user sb.

(** The day [load_date] builds from the rows of the reservations table. *)
Definition stored_day (date_key : string) (w : world) : day :=
  fold_left load_step (key_rows date_key (resv w))
    [("A", empty_lane (st_blocks w)); ("B", empty_lane (st_blocks w))].

(** ** More to run

    A spreadsheet before [__init__], a second key, and the day after Bob
    joins Alice on the other court. *)

Definition blank : world :=
  mkWorld [] [["date"]] [LOCK_HEADERS; ["2023-12-31"; "t"; "dave"; "0Z"]]
          1000000 [5%N] [] BLOCKS.

Definition jan2 : string := "2024-01-02".

Section MoreRuns.

Context {local : LocalTime}.

Definition bob_joins : day :=
  day_assign "B" "LUNCHA"
    (Some (mkSlot "bob" "doubles" (isoformat_seconds (clock fresh + utc_offset))))
    day_alice.

End MoreRuns.
(** * Properties *)

(** ** The built-ins *)

Lemma digits_value_uint (d : uint) (acc : Z) :
  Py.digits_value (NilEmpty.string_of_uint d) acc true = Some (uint_value d acc).
Proof.
  revert acc.
  induction d; intros acc; cbn [NilEmpty.string_of_uint Py.digits_value uint_value];
    try reflexivity;
    match goal with
    | |- context [Py.is_digit ?c] =>
        change (Py.is_digit c) with true; cbv iota;
        rewrite IHd; f_equal; f_equal; unfold Py.digit_val; cbn; lia
    end.
Qed.

Lemma digits_value_uint_start (d : uint) :
  d <> Nil ->
  Py.digits_value (NilEmpty.string_of_uint d) 0 false = Some (uint_value d 0).
Proof.
  destruct d; intros Hd; try congruence;
    cbn [NilEmpty.string_of_uint Py.digits_value uint_value];
    match goal with
    | |- context [Py.is_digit ?c] =>
        change (Py.is_digit c) with true; cbv iota;
        rewrite digits_value_uint; f_equal; f_equal; unfold Py.digit_val; cbn; lia
    end.
Qed.

Lemma uint_value_acc (d : uint) (acc : positive) :
  uint_value d (Z.pos acc) = Z.pos (Pos.of_uint_acc d acc).
Proof.
  revert acc.
  induction d; intros acc; cbn [uint_value Pos.of_uint_acc]; try reflexivity;
    rewrite <- IHd; f_equal; lia.
Qed.

Lemma uint_value_of_uint (d : uint) : uint_value d 0 = Z.of_N (Pos.of_uint d).
Proof.
  induction d; cbn [uint_value Pos.of_uint]; try reflexivity;
    try (rewrite <- IHd; f_equal; lia);
    change (10 * 0 + 1) with (Z.pos 1); change (10 * 0 + 2) with (Z.pos 2);
    change (10 * 0 + 3) with (Z.pos 3); change (10 * 0 + 4) with (Z.pos 4);
    change (10 * 0 + 5) with (Z.pos 5); change (10 * 0 + 6) with (Z.pos 6);
    change (10 * 0 + 7) with (Z.pos 7); change (10 * 0 + 8) with (Z.pos 8);
    change (10 * 0 + 9) with (Z.pos 9);
    rewrite uint_value_acc; reflexivity.
Qed.

Lemma to_uint_not_nil (p : positive) : Pos.to_uint p <> Nil.
Proof.
  intros E. pose proof (DecimalPos.Unsigned.of_to p) as H.
  rewrite E in H. discriminate H.
Qed.

Lemma digits_value_pos (p : positive) :
  Py.digits_value (NilEmpty.string_of_uint (Pos.to_uint p)) 0 false = Some (Z.pos p).
Proof.
  rewrite digits_value_uint_start by apply to_uint_not_nil.
  rewrite uint_value_of_uint, DecimalPos.Unsigned.of_to. reflexivity.
Qed.

Lemma uint_chars_digits (d : uint) :
  Py.all_chars Py.is_digit (NilEmpty.string_of_uint d) = true.
Proof.
  induction d; cbn [NilEmpty.string_of_uint Py.all_chars]; try reflexivity;
    rewrite IHd; reflexivity.
Qed.

Lemma nilzero_uint_pos (p : positive) :
  NilZero.string_of_uint (Pos.to_uint p) = NilEmpty.string_of_uint (Pos.to_uint p).
Proof.
  pose proof (to_uint_not_nil p) as H. destruct (Pos.to_uint p); [contradiction H; reflexivity | reflexivity ..].
Qed.

Lemma all_chars_weaken (p q : ascii -> bool) (s : string) :
  (forall c, p c = true -> q c = true) ->
  Py.all_chars p s = true -> Py.all_chars q s = true.
Proof.
  intros Hpq. induction s as [|c s IH]; cbn; [reflexivity|].
  intros H. apply andb_true_iff in H. destruct H as [Hc Hs].
  rewrite (Hpq _ Hc), (IH Hs). reflexivity.
Qed.

Lemma str_chars (n : Z) : Py.all_chars Py.plain_char (Py.str n) = true.
Proof.
  assert (Hd : forall c, Py.is_digit c = true -> Py.plain_char c = true).
  { intros c Hc. unfold Py.plain_char. rewrite Hc. reflexivity. }
  unfold Py.str. destruct n as [|p|p]; cbn [Z.to_int NilZero.string_of_int].
  - reflexivity.
  - rewrite nilzero_uint_pos. apply (all_chars_weaken _ _ _ Hd), uint_chars_digits.
  - rewrite nilzero_uint_pos. cbn [Py.all_chars].
    rewrite (all_chars_weaken _ _ _ Hd (uint_chars_digits _)). reflexivity.
Qed.

Lemma lstrip_no_space (s : string) :
  Py.all_chars (fun c => negb (Py.is_space c)) s = true -> Py.lstrip s = s.
Proof.
  destruct s as [|c s]; cbn; [reflexivity|].
  destruct (Py.is_space c); [discriminate|reflexivity].
Qed.

Lemma rstrip_no_space (s : string) :
  Py.all_chars (fun c => negb (Py.is_space c)) s = true -> Py.rstrip s = s.
Proof.
  induction s as [|c s IH]; cbn; [reflexivity|].
  intros H. apply andb_true_iff in H. destruct H as [Hc Hs].
  rewrite (IH Hs). destruct s; [|reflexivity].
  destruct (Py.is_space c); [discriminate|reflexivity].
Qed.

Lemma strip_no_space (s : string) :
  Py.all_chars (fun c => negb (Py.is_space c)) s = true -> Py.strip s = s.
Proof.
  intros H. unfold Py.strip. rewrite (lstrip_no_space _ H). apply rstrip_no_space, H.
Qed.

Lemma plain_char_no_space (c : ascii) :
  Py.plain_char c = true -> negb (Py.is_space c) = true.
Proof.
  destruct c as [[] [] [] [] [] [] [] []]; vm_compute; congruence.
Qed.

(** [int(str(n)) == n] *)
Lemma int_str (n : Z) : Py.int (Py.str n) = Some n.
Proof.
  unfold Py.int.
  rewrite strip_no_space
    by (apply (all_chars_weaken _ _ _ plain_char_no_space), str_chars).
  unfold Py.str. destruct n as [|p|p]; cbn [Z.to_int NilZero.string_of_int].
  - reflexivity.
  - rewrite nilzero_uint_pos.
    pose proof (digits_value_pos p) as H.
    pose proof (uint_chars_digits (Pos.to_uint p)) as Hc.
    destruct (NilEmpty.string_of_uint (Pos.to_uint p)) as [|c s] eqn:E; [exact H|].
    cbn [Py.all_chars] in Hc. apply andb_true_iff in Hc. destruct Hc as [Hc _].
    destruct c as [[] [] [] [] [] [] [] []]; try discriminate Hc; exact H.
  - rewrite nilzero_uint_pos. rewrite digits_value_pos. reflexivity.
Qed.

(** ** A codec to run the store with

    Time stamps written as the decimal count of microseconds: the simplest
    pair of functions with the two properties of [IsoCodec], used where a
    run of the store is computed. *)

Lemma plain_char_stamp (c : ascii) :
  Py.plain_char c = true -> negb (Py.is_space c) && negb (Ascii.eqb c "Z") = true.
Proof.
  destruct c as [[] [] [] [] [] [] [] []]; vm_compute; congruence.
Qed.

#[export] Instance decimal_codec : IsoCodec := {|
  isoformat := Py.str;
  fromisoformat := Py.int;
  fromisoformat_isoformat := int_str;
  isoformat_chars := fun t => all_chars_weaken _ _ _ plain_char_stamp (str_chars t)
|}.

(** ** A local clock to run the booking operations with

    Local time nine hours ahead of UTC, written as the count of seconds
    after a [T]. *)

#[export] Instance seconds_local : LocalTime := {|
  utc_offset := 32400000000;
  isoformat_seconds := fun t => String "T" (Py.str (t / 1000000));
  isoformat_seconds_truthy := fun _ => eq_refl
|}.

(** ** Frames: what a computation cannot touch *)

Section Frames.

Context {codec : IsoCodec}.
Variable R : world -> world -> Prop.
Hypothesis R_refl : forall w, R w w.
Hypothesis R_trans : forall a b c, R a b -> R b c -> R a c.
Hypothesis R_tick : forall w, R w (tick w).

Lemma frame_ret {A : Type} (a : A) : frame R (ret a).
Proof. intros w. apply R_refl. Qed.

Lemma frame_bind {A B : Type} (m : M A) (k : A -> M B) :
  frame R m -> (forall a, frame R (k a)) -> frame R (bind m k).
Proof.
  intros Hm Hk w. unfold bind. specialize (Hm w).
  destruct (m w) as [[a|e] w1]; cbn in *.
  - eapply R_trans; [exact Hm | apply Hk].
  - exact Hm.
Qed.

Lemma frame_try_finally {A : Type} (body : M A) (fin : M unit) :
  frame R body -> frame R fin -> frame R (try_finally body fin).
Proof.
  intros Hb Hf w. unfold try_finally. specialize (Hb w).
  destruct (body w) as [r w1]; cbn in *. specialize (Hf w1).
  destruct (fin w1) as [[u|e] w2]; cbn in *; eapply R_trans; eassumption.
Qed.

Lemma frame_transport {A : Type} (op : world -> A * world) :
  (forall w, R w (snd (op w))) -> frame R (transport op).
Proof.
  intros Hop w. unfold transport.
  destruct (hd false (faults w)); cbn; [apply R_tick|].
  specialize (Hop (tick w)). destruct (op (tick w)) as [a w1]; cbn in *.
  eapply R_trans; [apply R_tick | exact Hop].
Qed.

Lemma frame_get_all_values (ws : wsname) : frame R (get_all_values ws).
Proof. apply frame_transport. intros w. apply R_refl. Qed.

Lemma frame_row_values (ws : wsname) (r : nat) : frame R (row_values ws r).
Proof. apply frame_transport. intros w. apply R_refl. Qed.

Lemma frame_utcnow : frame R utcnow.
Proof. intros w. apply R_refl. Qed.

Lemma frame_session_blocks : frame R session_blocks.
Proof. intros w. apply R_refl. Qed.

Lemma frame_find_rows (ws : wsname) (k : string) : frame R (_find_rows_for_date ws k).
Proof.
  apply frame_bind; [apply frame_get_all_values | intros; apply frame_ret].
Qed.

Lemma frame_get_version (k : string) : frame R (_get_version k).
Proof.
  apply frame_bind; [apply frame_get_all_values|].
  intros vals. destruct (scan_first _ _ _); [|apply frame_ret].
  destruct (Py.int _); apply frame_ret.
Qed.

Lemma frame_lock_row_index (k : string) : frame R (_lock_row_index k).
Proof.
  apply frame_bind; [apply frame_get_all_values | intros; apply frame_ret].
Qed.

Lemma frame_load_rows (idxs : list nat) (d : day) : frame R (load_rows idxs d).
Proof.
  revert d. induction idxs as [|r rest IH]; intros d; cbn [load_rows].
  - apply frame_ret.
  - apply frame_bind; [apply frame_row_values|]. intros rw.
    destruct (6 <=? _)%nat; [|apply IH].
    destruct (_ || _); apply IH.
Qed.

Lemma frame_load_date (k : string) : frame R (load_date k).
Proof.
  apply frame_bind; [apply frame_session_blocks|]. intros blocks.
  apply frame_bind; [apply frame_find_rows|]. intros idxs.
  apply frame_bind; [apply frame_load_rows|]. intros d.
  apply frame_bind; [apply frame_get_version|]. intros v. apply frame_ret.
Qed.

Lemma frame_lane_rows (k court : string) (items : lane) : frame R (lane_rows k court items).
Proof.
  induction items as [|[b [s|]] rest IH]; cbn [lane_rows].
  - apply frame_ret.
  - apply frame_bind.
    + destruct (Py.truthy _); [apply frame_ret|].
      apply frame_bind; [apply frame_utcnow | intros; apply frame_ret].
    + intros c. apply frame_bind; [exact IH | intros; apply frame_ret].
  - exact IH.
Qed.

Lemma frame_courts_rows (k : string) (courts : list string) (d : day) :
  frame R (courts_rows k courts d).
Proof.
  induction courts as [|c rest IH]; cbn [courts_rows].
  - apply frame_ret.
  - apply frame_bind; [apply frame_lane_rows|]. intros rows.
    apply frame_bind; [exact IH | intros; apply frame_ret].
Qed.

(** Writers, each under the assumption that [R] allows its writes. *)

Section Locks.

Hypothesis R_locks : forall sh w, R w (set_sheet WsLock sh w).
Hypothesis R_clock : forall t w, R w (with_clock t w).
Hypothesis R_entropy : forall e w, R w (with_entropy e w).

Lemma frame_sleep (d : Z) : frame R (sleep d).
Proof.
  intros w. unfold sleep. destruct (d <? 0); cbn; [apply R_refl | apply R_clock].
Qed.

Lemma frame_uuid4 : frame R uuid4.
Proof.
  intros w. unfold uuid4. destruct (entropy w); cbn; [apply R_refl | apply R_entropy].
Qed.

Lemma frame_lock_write {A : Type} (f : world -> A) (g : world -> sheet) :
  frame R (transport (fun w => (f w, set_sheet WsLock (g w) w))).
Proof. apply frame_transport. intros w. apply R_locks. Qed.

Lemma frame_recheck (k token : string) (next : M (option string)) :
  frame R next -> frame R (recheck k token next).
Proof.
  intros Hn. apply frame_bind; [apply frame_lock_row_index|]. intros i2.
  apply frame_bind.
  - destruct i2; [apply frame_row_values | apply frame_ret].
  - intros row2. destruct (_ && _); [apply frame_ret | exact Hn].
Qed.

Lemma frame_acquire_attempts (k user : string) (ttl backoff : Z) (token : string)
    (attempt : Z) (n : nat) :
  frame R (acquire_attempts k user ttl backoff token attempt n).
Proof.
  revert attempt. induction n as [|n IH]; intros attempt; cbn [acquire_attempts].
  - apply frame_ret.
  - assert (Hnext : frame R (sleep (backoff * (attempt + 1));;
                     acquire_attempts k user ttl backoff token (attempt + 1) n)).
    { apply frame_bind; [apply frame_sleep | intros; apply IH]. }
    apply frame_bind; [apply frame_lock_row_index|]. intros ri.
    apply frame_bind; [apply frame_utcnow|]. intros now.
    destruct ri as [i|].
    + apply frame_bind; [apply frame_row_values|]. intros r.
      destruct (held_by_other _ _ _); [exact Hnext|].
      apply frame_bind; [apply frame_lock_write|]. intros _.
      apply frame_recheck, Hnext.
    + apply frame_bind; [apply frame_lock_write|]. intros _.
      apply frame_recheck, Hnext.
Qed.

Lemma frame_acquire_lock (k user : string) (ttl max_retry backoff : Z) :
  frame R (acquire_lock k user ttl max_retry backoff).
Proof.
  apply frame_bind; [apply frame_uuid4 | intros; apply frame_acquire_attempts].
Qed.

Lemma frame_release_lock (k token : string) : frame R (release_lock k token).
Proof.
  apply frame_bind; [apply frame_lock_row_index|]. intros [i|]; [|apply frame_ret].
  apply frame_bind; [apply frame_row_values|]. intros r.
  destruct (_ && _); [|apply frame_ret].
  apply frame_bind; [apply frame_utcnow|]. intros now. apply frame_lock_write.
Qed.

End Locks.

Section Data.

Hypothesis R_resv : forall sh w, R w (set_sheet WsResv sh w).
Hypothesis R_vers : forall sh w, R w (set_sheet WsVers sh w).

Lemma frame_set_version (k : string) (v : Z) : frame R (_set_version k v).
Proof.
  apply frame_bind; [apply frame_get_all_values|]. intros vals.
  destruct (scan_first _ _ _); apply frame_transport; intros w; apply R_vers.
Qed.

Lemma frame_delete_each (rs : list nat) : frame R (delete_each rs).
Proof.
  induction rs as [|r rest IH]; cbn [delete_each]; [apply frame_ret|].
  apply frame_bind; [|intros; exact IH].
  apply frame_transport; intros w; apply R_resv.
Qed.

Lemma frame_commit (k : string) (d : day) (v : Z) : frame R (commit k d v).
Proof.
  apply frame_bind; [apply frame_get_version|]. intros cur.
  destruct (negb _); [apply frame_ret|].
  apply frame_bind; [apply frame_find_rows|]. intros idxs.
  apply frame_bind; [apply frame_delete_each|]. intros _.
  apply frame_bind; [apply frame_courts_rows|]. intros rows.
  apply frame_bind.
  - destruct rows; [apply frame_ret|]. apply frame_transport; intros w; apply R_resv.
  - intros _. apply frame_bind; [apply frame_set_version | intros; apply frame_ret].
Qed.

End Data.

End Frames.

(** ** Tables *)

Lemma nth_set_nth {A : Type} (d d' : A) (n : nat) (x : A) (l : list A) :
  nth n (set_nth d n x l) d' = x.
Proof.
  revert l. induction n as [|n IH]; intros [|h t]; cbn; auto.
Qed.

Lemma length_set_nth {A : Type} (d : A) (n : nat) (x : A) (l : list A) :
  (List.length l <= List.length (set_nth d n x l))%nat.
Proof.
  revert l. induction n as [|n IH]; intros [|h t]; cbn; try lia.
  specialize (IH t). lia.
Qed.

Lemma scan_first_ge (p : row -> bool) (idx : nat) (sh : sheet) (i : nat) :
  scan_first p idx sh = Some i -> (idx <= i)%nat /\ (i - idx < List.length sh)%nat.
Proof.
  revert idx. induction sh as [|r rest IH]; intros idx; cbn; [discriminate|].
  destruct (negb (idx =? 1)%nat && p r).
  - intros [= <-]. lia.
  - intros H. apply IH in H. lia.
Qed.

Lemma scan_first_holds (p : row -> bool) (idx : nat) (sh : sheet) (i : nat) :
  scan_first p idx sh = Some i -> p (nth (i - idx) sh []) = true /\ i <> 1%nat.
Proof.
  revert idx. induction sh as [|r rest IH]; intros idx; cbn [scan_first]; [discriminate|].
  destruct (negb (idx =? 1)%nat && p r) eqn:E.
  - intros [= <-]. rewrite Nat.sub_diag. cbn.
    apply andb_true_iff in E. destruct E as [E1 E2].
    apply negb_true_iff, Nat.eqb_neq in E1. auto.
  - intros H. pose proof (scan_first_ge _ _ _ _ H) as [Hge _].
    apply IH in H. replace (i - idx)%nat with (S (i - S idx)) by lia. exact H.
Qed.

Lemma scan_first_set_nth (p : row -> bool) (idx : nat) (sh : sheet) (i : nat) (r' : row) :
  scan_first p idx sh = Some i -> p r' = true ->
  scan_first p idx (set_nth [] (i - idx) r' sh) = Some i.
Proof.
  revert idx. induction sh as [|r rest IH]; intros idx; cbn [scan_first]; [discriminate|].
  destruct (negb (idx =? 1)%nat && p r) eqn:E.
  - intros [= <-] Hp. rewrite Nat.sub_diag. cbn.
    apply andb_true_iff in E. destruct E as [E1 _]. rewrite E1, Hp. reflexivity.
  - intros H Hp. pose proof (scan_first_ge _ _ _ _ H) as [Hge _].
    replace (i - idx)%nat with (S (i - S idx)) by lia. cbn. rewrite E.
    apply IH; assumption.
Qed.

Lemma scan_first_app_none (p : row -> bool) (idx : nat) (sh : sheet) (r : row) :
  scan_first p idx sh = None -> p r = true -> (idx + List.length sh)%nat <> 1%nat ->
  scan_first p idx (sh ++ [r]) = Some (idx + List.length sh)%nat.
Proof.
  revert idx. induction sh as [|r0 rest IH]; intros idx; simpl.
  - intros _ Hp Hne. rewrite Nat.add_0_r in Hne |- *. rewrite Hp.
    apply Nat.eqb_neq in Hne. rewrite Hne. reflexivity.
  - destruct (negb (idx =? 1)%nat && p r0); [discriminate|].
    intros H Hp Hne. rewrite IH; [f_equal; lia | assumption | assumption | lia].
Qed.

Lemma nth_app_last {A : Type} (l : list A) (x d : A) :
  nth (List.length l) (l ++ [x]) d = x.
Proof.
  rewrite app_nth2 by lia. rewrite Nat.sub_diag. reflexivity.
Qed.

Lemma keyed_set_nth (n c : nat) (k v : string) (r : row) :
  keyed n k r = true -> (1 <= n)%nat -> (1 <= c)%nat ->
  keyed n k (set_nth "" c v r) = true.
Proof.
  unfold keyed, cell. intros H Hn Hc.
  apply andb_true_iff in H. destruct H as [Hl Hk].
  apply Nat.leb_le in Hl. apply andb_true_iff. split.
  - apply Nat.leb_le. pose proof (length_set_nth "" c v r). lia.
  - destruct r as [|k0 t]; [cbn in Hl; lia|].
    destruct c as [|c]; [lia|]. exact Hk.
Qed.

(** Writing cell [c >= 2] of the row a scan stops at does not move the scan. *)
Lemma scan_first_write_cell (n c : nat) (k v : string) (sh : sheet) (i : nat) :
  scan_first (keyed n k) 1 sh = Some i -> (1 <= n)%nat -> (2 <= c)%nat ->
  scan_first (keyed n k) 1 (write_cell i c v sh) = Some i.
Proof.
  intros H Hn Hc. unfold write_cell.
  apply scan_first_set_nth; [exact H|].
  apply keyed_set_nth; [|lia|lia].
  apply (scan_first_holds _ _ _ _ H).
Qed.

Lemma nth_write_cell (c : nat) (v : string) (sh : sheet) (i : nat) :
  nth (i - 1) (write_cell i c v sh) [] = set_nth "" (c - 1) v (nth (i - 1) sh []).
Proof. unfold write_cell. apply nth_set_nth. Qed.

Lemma found_row_write_cell (n c : nat) (k v : string) (sh : sheet) (i : nat) :
  scan_first (keyed n k) 1 sh = Some i -> (1 <= n)%nat -> (2 <= c)%nat ->
  found_row n k (write_cell i c v sh)
  = Some (set_nth "" (c - 1) v (nth (i - 1) sh [])).
Proof.
  intros H Hn Hc. unfold found_row.
  rewrite (scan_first_write_cell _ _ _ _ _ _ H Hn Hc), nth_write_cell. reflexivity.
Qed.

Lemma found_row_append (n : nat) (k : string) (sh : sheet) (r : row) :
  scan_first (keyed n k) 1 sh = None -> keyed n k r = true -> headed sh ->
  found_row n k (sh ++ [r]) = Some r.
Proof.
  intros H Hr Hh. unfold found_row.
  rewrite (scan_first_app_none _ _ _ _ H Hr).
  - replace (1 + List.length sh - 1)%nat with (List.length sh) by lia.
    rewrite nth_app_last. reflexivity.
  - destruct sh; [contradiction Hh; reflexivity | cbn; lia].
Qed.

(** ** Deleting and finding the rows of a key *)

Lemma scan_all_ge (p : row -> bool) (idx : nat) (sh : sheet) (j : nat) :
  In j (scan_all p idx sh) -> (idx <= j)%nat.
Proof.
  revert idx. induction sh as [|r rest IH]; intros idx; cbn; [contradiction|].
  destruct (negb (idx =? 1)%nat && p r); cbn.
  - intros [<- | H]; [lia | apply IH in H; lia].
  - intros H. apply IH in H. lia.
Qed.

Lemma insert_desc_below (x : nat) (l : list nat) :
  (forall y, In y l -> (x < y)%nat) -> insert_desc x l = l ++ [x].
Proof.
  induction l as [|y t IH]; cbn; [reflexivity|].
  intros H. assert (Hy : (x < y)%nat) by (apply H; auto).
  apply Nat.leb_gt in Hy. rewrite Hy, IH; [reflexivity|].
  intros z Hz. apply H. auto.
Qed.

(** The indices come in increasing order, so sorting them in reverse is
    reversing them. *)
Lemma sorted_desc_scan_all (p : row -> bool) (idx : nat) (sh : sheet) :
  sorted_desc (scan_all p idx sh) = List.rev (scan_all p idx sh).
Proof.
  revert idx. induction sh as [|r rest IH]; intros idx; cbn [scan_all];
    [reflexivity|].
  destruct (negb (idx =? 1)%nat && p r); [|apply IH].
  unfold sorted_desc in *. cbn [fold_right List.rev]. rewrite IH.
  apply insert_desc_below. intros y Hy. apply in_rev, scan_all_ge in Hy. lia.
Qed.

Lemma remove_nth_app {A : Type} (pre : list A) (x : A) (post : list A) :
  remove_nth (List.length pre) (pre ++ x :: post) = pre ++ post.
Proof.
  induction pre as [|h t IH]; cbn; [reflexivity|]. rewrite IH. reflexivity.
Qed.

Lemma del_all_app (a b : list nat) (sh : sheet) :
  del_all (a ++ b) sh = del_all b (del_all a sh).
Proof. unfold del_all. apply fold_left_app. Qed.

Lemma skip_header (pre : sheet) : pre <> [] -> (S (List.length pre) =? 1)%nat = false.
Proof. destruct pre; [congruence | reflexivity]. Qed.

(** Deleting the selected rows from the last to the first leaves the rows
    that are not selected. *)
Lemma del_all_scan (p : row -> bool) (sh pre : sheet) :
  pre <> [] ->
  del_all (List.rev (scan_all p (S (List.length pre)) sh)) (pre ++ sh)
  = pre ++ filter (fun r => negb (p r)) sh.
Proof.
  revert pre. induction sh as [|r rest IH]; intros pre Hpre; cbn [scan_all filter];
    [reflexivity|].
  specialize (IH (pre ++ [r])).
  rewrite length_app, Nat.add_1_r, <- app_assoc in IH. cbn [List.app] in IH.
  rewrite (skip_header pre Hpre). cbn [negb andb].
  destruct (p r); cbn [negb].
  - cbn [List.rev]. rewrite del_all_app, IH by (destruct pre; discriminate).
    cbn [del_all fold_left]. unfold delete_row.
    replace (S (List.length pre) - 1)%nat with (List.length pre) by lia.
    rewrite <- app_assoc. cbn [List.app]. apply remove_nth_app.
  - rewrite IH by (destruct pre; discriminate).
    rewrite <- app_assoc. reflexivity.
Qed.

Lemma delete_key_rows (k : string) (sh : sheet) :
  del_all (sorted_desc (scan_all (keyed 1 k) 1 sh)) sh = other_rows k sh.
Proof.
  rewrite sorted_desc_scan_all. destruct sh as [|h rest]; [reflexivity|].
  cbn [scan_all Nat.eqb negb andb other_rows].
  apply (del_all_scan (keyed 1 k) rest [h]). discriminate.
Qed.

Lemma nth_middle_row (pre : sheet) (r : row) (post : sheet) :
  nth (List.length pre) (pre ++ r :: post) [] = r.
Proof. rewrite app_nth2 by lia. rewrite Nat.sub_diag. reflexivity. Qed.

(** Reading the selected rows by index gives the selected rows. *)
Lemma read_scan (p : row -> bool) (sh pre : sheet) :
  pre <> [] ->
  map (fun i => nth (i - 1) (pre ++ sh) []) (scan_all p (S (List.length pre)) sh)
  = filter p sh.
Proof.
  revert pre. induction sh as [|r rest IH]; intros pre Hpre; cbn [scan_all filter];
    [reflexivity|].
  specialize (IH (pre ++ [r])).
  rewrite length_app, Nat.add_1_r, <- app_assoc in IH. cbn [List.app] in IH.
  rewrite (skip_header pre Hpre). cbn [negb andb].
  destruct (p r).
  - cbn [map]. replace (S (List.length pre) - 1)%nat with (List.length pre) by lia.
    rewrite nth_middle_row, IH by (destruct pre; discriminate). reflexivity.
  - apply IH. destruct pre; discriminate.
Qed.

Lemma read_key_rows (k : string) (sh : sheet) :
  map (fun i => nth (i - 1) sh []) (scan_all (keyed 1 k) 1 sh) = key_rows k sh.
Proof.
  destruct sh as [|h rest]; [reflexivity|].
  cbn [scan_all Nat.eqb negb andb key_rows].
  apply (read_scan (keyed 1 k) rest [h]). discriminate.
Qed.

Lemma filter_all (p : row -> bool) (l : list row) :
  forallb p l = true -> filter p l = l.
Proof.
  induction l as [|x t IH]; cbn; [reflexivity|].
  intros H. apply andb_true_iff in H. destruct H as [Hx Ht].
  rewrite Hx, (IH Ht). reflexivity.
Qed.

Lemma filter_none (p : row -> bool) (l : list row) :
  filter p (filter (fun r => negb (p r)) l) = [].
Proof.
  induction l as [|x t IH]; cbn; [reflexivity|].
  destruct (p x) eqn:E; cbn; [exact IH|]. rewrite E. exact IH.
Qed.

(** After the rows of a key are replaced, they are the rows just written. *)
Lemma key_rows_replaced (k : string) (sh : sheet) (rows : list row) :
  headed sh -> forallb (keyed 1 k) rows = true ->
  key_rows k (other_rows k sh ++ rows) = rows.
Proof.
  intros Hh Hrows. destruct sh as [|h rest]; [contradiction Hh; reflexivity|].
  cbn [other_rows List.app key_rows].
  rewrite filter_app, filter_none, (filter_all _ _ Hrows). reflexivity.
Qed.

(** ** Dictionaries *)

Section Dicts.

Context {V : Type}.
Implicit Types (d : dict V) (k : string) (v : V).

Lemma dict_get_set_eq k v d : dict_get k (dict_set k v d) = Some v.
Proof.
  induction d as [|[k' v'] t IH]; cbn.
  - rewrite String.eqb_refl. reflexivity.
  - destruct (String.eqb k' k) eqn:E; cbn.
    + rewrite String.eqb_refl. reflexivity.
    + rewrite E. exact IH.
Qed.

Lemma dict_get_set_neq k k' v d :
  k <> k' -> dict_get k (dict_set k' v d) = dict_get k d.
Proof.
  intros Hne. induction d as [|[k0 v0] t IH]; cbn.
  - destruct (String.eqb k' k) eqn:E; [|reflexivity].
    apply String.eqb_eq in E. congruence.
  - destruct (String.eqb k0 k') eqn:E; cbn.
    + apply String.eqb_eq in E. subst k0.
      destruct (String.eqb k' k) eqn:E2; [|reflexivity].
      apply String.eqb_eq in E2. congruence.
    + rewrite IH. reflexivity.
Qed.

Lemma dict_set_same k v d : dict_get k d = Some v -> dict_set k v d = d.
Proof.
  induction d as [|[k' v'] t IH]; cbn; [discriminate|].
  destruct (String.eqb k' k) eqn:E.
  - apply String.eqb_eq in E. intros [= ->]. subst. reflexivity.
  - intros H. rewrite (IH H). reflexivity.
Qed.

Lemma dict_set_twice k v v' d : dict_set k v' (dict_set k v d) = dict_set k v' d.
Proof.
  induction d as [|[k0 v0] t IH]; cbn.
  - rewrite String.eqb_refl. reflexivity.
  - destruct (String.eqb k0 k) eqn:E; cbn.
    + rewrite String.eqb_refl. reflexivity.
    + rewrite E, IH. reflexivity.
Qed.

Lemma dict_set_keys k v d :
  dict_get k d <> None -> map fst (dict_set k v d) = map fst d.
Proof.
  induction d as [|[k0 v0] t IH]; cbn; [congruence|].
  destruct (String.eqb k0 k) eqn:E; cbn.
  - apply String.eqb_eq in E. subst. reflexivity.
  - intros H. rewrite (IH H). reflexivity.
Qed.

Lemma dict_get_set_some k k' v d :
  dict_get k d <> None -> dict_get k (dict_set k' v d) <> None.
Proof.
  intros H. destruct (String.eqb k k') eqn:E.
  - apply String.eqb_eq in E. subst. rewrite dict_get_set_eq. discriminate.
  - apply String.eqb_neq in E. rewrite dict_get_set_neq by exact E. exact H.
Qed.

Lemma dict_get_in k v d : dict_get k d = Some v -> In (k, v) d.
Proof.
  induction d as [|[k' v'] t IH]; cbn; [discriminate|].
  destruct (String.eqb k' k) eqn:E.
  - apply String.eqb_eq in E. intros [= ->]. subst. auto.
  - auto.
Qed.

Lemma dict_get_none k d : dict_get k d = None -> ~ In k (map fst d).
Proof.
  induction d as [|[k' v'] t IH]; cbn; [auto|].
  destruct (String.eqb k' k) eqn:E; [discriminate|].
  apply String.eqb_neq in E. intros H [H1 | H1]; [congruence | exact (IH H H1)].
Qed.

Lemma in_dict_get k v d : NoDup (map fst d) -> In (k, v) d -> dict_get k d = Some v.
Proof.
  induction d as [|[k' v'] t IH]; cbn; [contradiction|].
  intros Hnd [H | H].
  - injection H as -> ->. rewrite String.eqb_refl. reflexivity.
  - inversion Hnd as [|? ? Hnotin Hnd']. subst.
    destruct (String.eqb k' k) eqn:E; [|auto].
    apply String.eqb_eq in E. subst k'.
    exfalso. apply Hnotin. apply (in_map fst) in H. exact H.
Qed.

End Dicts.

Lemma fill_get_notin (b : string) (items : list (string * slot)) (l : lane) :
  ~ In b (map fst items) -> dict_get b (fill items l) = dict_get b l.
Proof.
  revert l. induction items as [|[b' s] rest IH]; intros l H; [reflexivity|].
  cbn in H. unfold fill in *. cbn [fold_left fst snd].
  rewrite IH by tauto. apply dict_get_set_neq. intros ->. tauto.
Qed.

Lemma fill_get_in (b : string) (s : slot) (items : list (string * slot)) (l : lane) :
  NoDup (map fst items) -> In (b, s) items ->
  dict_get b (fill items l) = Some (Some s).
Proof.
  revert l. induction items as [|[b' s'] rest IH]; intros l Hnd Hin; [contradiction|].
  cbn in Hnd. inversion Hnd as [|? ? Hnotin Hnd']. subst.
  unfold fill in *. cbn [fold_left fst snd].
  destruct Hin as [H | H].
  - injection H as -> ->.
    change (dict_get b (fill rest (dict_set b (Some s) l)) = Some (Some s)).
    rewrite fill_get_notin by exact Hnotin. apply dict_get_set_eq.
  - apply IH; assumption.
Qed.

Lemma empty_lane_get_gen (b : string) (blocks : list string) (l : lane) :
  dict_get b (fold_left (fun d x => dict_set x None d) blocks l)
  = if existsb (String.eqb b) blocks then Some None else dict_get b l.
Proof.
  revert l. induction blocks as [|x rest IH]; intros l; cbn [fold_left existsb];
    [reflexivity|].
  rewrite IH. destruct (existsb (String.eqb b) rest); [rewrite orb_true_r; reflexivity|].
  rewrite orb_false_r. destruct (String.eqb b x) eqn:E.
  - apply String.eqb_eq in E. subst. apply dict_get_set_eq.
  - apply String.eqb_neq in E. apply dict_get_set_neq, E.
Qed.

Lemma empty_lane_get (b : string) (blocks : list string) :
  (In b blocks -> dict_get b (empty_lane blocks) = Some None)
  /\ (~ In b blocks -> dict_get b (empty_lane blocks) = None).
Proof.
  unfold empty_lane. rewrite empty_lane_get_gen.
  destruct (existsb (String.eqb b) blocks) eqn:E.
  - apply existsb_exists in E. destruct E as (x & Hx & Ex).
    apply String.eqb_eq in Ex. subst x. split; [reflexivity | contradiction].
  - split; [|reflexivity]. intros Hin. exfalso.
    assert (existsb (String.eqb b) blocks = true); [|congruence].
    apply existsb_exists. exists b. split; [exact Hin | apply String.eqb_refl].
Qed.

Lemma occupied_in (b : string) (s : slot) (l : lane) :
  In (b, s) (occupied l) <-> In (b, Some s) l.
Proof.
  unfold occupied. rewrite in_flat_map. split.
  - intros ([b' [s'|]] & Hin & H); cbn in H; [|contradiction].
    destruct H as [H | []]. injection H as -> ->. exact Hin.
  - intros H. exists (b, Some s). split; [exact H | cbn; auto].
Qed.

Lemma occupied_keys (l : lane) (b : string) :
  In b (map fst (occupied l)) -> In b (map fst l).
Proof.
  intros H. apply in_map_iff in H. destruct H as ([b' s] & <- & H).
  apply occupied_in in H. apply (in_map fst) in H. exact H.
Qed.

Lemma occupied_nodup (l : lane) : NoDup (map fst l) -> NoDup (map fst (occupied l)).
Proof.
  induction l as [|[b [s|]] t IH]; cbn; intros H; inversion H as [|? ? Hn Hd]; subst.
  - constructor.
  - constructor; [|exact (IH Hd)]. intros Hin. apply Hn, occupied_keys, Hin.
  - exact (IH Hd).
Qed.

(** ** Runs without transport failure *)

Lemma tick_calm (w : world) : calm w -> tick w = w.
Proof.
  unfold calm, tick, with_faults. destruct w; cbn. intros ->. reflexivity.
Qed.

Lemma calm_set_sheet (ws : wsname) (sh : sheet) (w : world) :
  calm w -> calm (set_sheet ws sh w).
Proof. destruct ws; exact (fun H => H). Qed.

Lemma calm_with_clock (t : datetime) (w : world) : calm w -> calm (with_clock t w).
Proof. exact (fun H => H). Qed.

Lemma calm_with_entropy (e : list N) (w : world) : calm w -> calm (with_entropy e w).
Proof. exact (fun H => H). Qed.

Lemma get_set_sheet (ws : wsname) (sh : sheet) (w : world) :
  get_sheet ws (set_sheet ws sh w) = sh.
Proof. destruct ws; reflexivity. Qed.

Lemma set_set_sheet (ws : wsname) (s1 s2 : sheet) (w : world) :
  set_sheet ws s2 (set_sheet ws s1 w) = set_sheet ws s2 w.
Proof. destruct ws; reflexivity. Qed.

Lemma set_get_sheet (ws : wsname) (w : world) : set_sheet ws (get_sheet ws w) w = w.
Proof. destruct ws, w; reflexivity. Qed.

Lemma transport_calm {A : Type} (op : world -> A * world) (w : world) :
  calm w -> transport op w = (Ok (fst (op w)), snd (op w)).
Proof.
  intros H. unfold transport. rewrite (tick_calm w H). rewrite H. cbn.
  destruct (op w); reflexivity.
Qed.

Create HintDb calm discriminated.
#[local] Hint Resolve calm_set_sheet calm_with_clock calm_with_entropy : calm.

Section Calm.

Context {codec : IsoCodec}.

Lemma read_all_calm (ws : wsname) (w : world) :
  calm w -> _read_all ws w = (Ok (get_sheet ws w), w).
Proof. intros H. unfold _read_all, get_all_values. rewrite transport_calm by exact H. reflexivity. Qed.

Lemma row_values_calm (ws : wsname) (r : nat) (w : world) :
  calm w -> row_values ws r w = (Ok (nth (r - 1) (get_sheet ws w) []), w).
Proof. intros H. unfold row_values. rewrite transport_calm by exact H. reflexivity. Qed.

Lemma append_rows_calm (ws : wsname) (rows : list row) (w : world) :
  calm w -> append_rows ws rows w = (Ok tt, set_sheet ws (get_sheet ws w ++ rows) w).
Proof. intros H. unfold append_rows. rewrite transport_calm by exact H. reflexivity. Qed.

Lemma update_cell_calm (ws : wsname) (r c : nat) (v : string) (w : world) :
  calm w ->
  update_cell ws r c v w = (Ok tt, set_sheet ws (write_cell r c v (get_sheet ws w)) w).
Proof. intros H. unfold update_cell. rewrite transport_calm by exact H. reflexivity. Qed.

Lemma update_BD_calm (ws : wsname) (r : nat) (b c d : string) (w : world) :
  calm w ->
  update_BD ws r b c d w = (Ok tt, set_sheet ws (write_BD r b c d (get_sheet ws w)) w).
Proof. intros H. unfold update_BD. rewrite transport_calm by exact H. reflexivity. Qed.

Lemma delete_rows_calm (ws : wsname) (r : nat) (w : world) :
  calm w -> delete_rows ws r w = (Ok tt, set_sheet ws (delete_row r (get_sheet ws w)) w).
Proof. intros H. unfold delete_rows. rewrite transport_calm by exact H. reflexivity. Qed.

Lemma clear_calm (ws : wsname) (w : world) :
  calm w -> clear ws w = (Ok tt, set_sheet ws [] w).
Proof. intros H. unfold clear. rewrite transport_calm by exact H. reflexivity. Qed.

Lemma row_eqb_eq (a b : row) : row_eqb a b = true -> a = b.
Proof.
  revert b. induction a as [|x a IH]; intros [|y b]; cbn; try discriminate; auto.
  intros H. apply andb_true_iff in H. destruct H as [Hx Hr].
  apply String.eqb_eq in Hx. rewrite Hx, (IH _ Hr). reflexivity.
Qed.

(** [_ensure_ws] leaves the header in row 1. *)
Lemma ensure_ws_calm (ws : wsname) (headers : row) (w : world) :
  calm w -> headers <> [] ->
  exists w',
    _ensure_ws ws headers w = (Ok tt, w') /\ calm w'
    /\ hd_error (get_sheet ws w') = Some headers
    /\ forall ws', ws' <> ws -> get_sheet ws' w' = get_sheet ws' w.
Proof.
  intros H Hne. unfold _ensure_ws, bind, worksheet.
  rewrite transport_calm by exact H. cbn [fst snd].
  rewrite row_values_calm by exact H.
  destruct (row_eqb (nth (1 - 1) (get_sheet ws w) []) headers) eqn:E; cbn [negb].
  - exists w. repeat split; auto.
    apply row_eqb_eq in E. cbn in E. destruct (get_sheet ws w) as [|r t].
    + cbn in E. congruence.
    + cbn in E. subst. reflexivity.
  - rewrite clear_calm by exact H. unfold append_row.
    rewrite append_rows_calm by (apply calm_set_sheet, H).
    rewrite get_set_sheet, set_set_sheet. eexists. split; [reflexivity|].
    split; [apply calm_set_sheet, H|]. split; [rewrite get_set_sheet; reflexivity|].
    intros ws' Hws. destruct ws, ws'; try reflexivity; congruence.
Qed.

(** After [__init__] every worksheet starts with its header row. *)
Lemma init_headed (w : world) :
  calm w ->
  exists w',
    __init__ w = (Ok tt, w') /\ calm w'
    /\ hd_error (resv w') = Some HEADERS
    /\ hd_error (vers w') = Some VERS_HEADERS
    /\ hd_error (locks w') = Some LOCK_HEADERS.
Proof.
  intros H. unfold __init__, bind.
  destruct (ensure_ws_calm WsResv HEADERS w H ltac:(discriminate))
    as (w1 & E1 & H1 & Hd1 & F1).
  destruct (ensure_ws_calm WsVers VERS_HEADERS w1 H1 ltac:(discriminate))
    as (w2 & E2 & H2 & Hd2 & F2).
  destruct (ensure_ws_calm WsLock LOCK_HEADERS w2 H2 ltac:(discriminate))
    as (w3 & E3 & H3 & Hd3 & F3).
  rewrite E1, E2, E3. exists w3. split; [reflexivity|]. split; [exact H3|].
  pose proof (F3 WsResv ltac:(discriminate)) as R3.
  pose proof (F3 WsVers ltac:(discriminate)) as V3.
  pose proof (F2 WsResv ltac:(discriminate)) as R2.
  cbn [get_sheet] in *. repeat split; congruence.
Qed.

Lemma hd_headed (sh : sheet) (h : row) : hd_error sh = Some h -> headed sh.
Proof. destruct sh; [discriminate | discriminate]. Qed.

Lemma find_rows_calm (ws : wsname) (k : string) (w : world) :
  calm w ->
  _find_rows_for_date ws k w = (Ok (scan_all (keyed 1 k) 1 (get_sheet ws w)), w).
Proof.
  intros H. unfold _find_rows_for_date, bind. rewrite read_all_calm by exact H.
  reflexivity.
Qed.

Lemma get_version_calm (k : string) (w : world) :
  calm w -> _get_version k w = (Ok (stored_version k (vers w)), w).
Proof.
  intros H. unfold _get_version, bind. rewrite read_all_calm by exact H.
  cbn [get_sheet]. unfold stored_version, found_row.
  destruct (scan_first _ _ _); [|reflexivity].
  destruct (Py.int _); reflexivity.
Qed.

Lemma set_version_calm (k : string) (v : Z) (w : world) :
  calm w ->
  _set_version k v w = (Ok tt, set_sheet WsVers (set_version_sheet k v (vers w)) w).
Proof.
  intros H. unfold _set_version, bind. rewrite read_all_calm by exact H.
  cbn [get_sheet]. unfold set_version_sheet.
  destruct (scan_first _ _ _).
  - rewrite update_cell_calm by exact H. reflexivity.
  - unfold append_row. rewrite append_rows_calm by exact H. reflexivity.
Qed.

Lemma lock_row_index_calm (k : string) (w : world) :
  calm w -> _lock_row_index k w = (Ok (scan_first (keyed 1 k) 1 (locks w)), w).
Proof.
  intros H. unfold _lock_row_index, bind. rewrite read_all_calm by exact H.
  reflexivity.
Qed.

Lemma delete_each_calm (rs : list nat) (w : world) :
  calm w -> delete_each rs w = (Ok tt, set_sheet WsResv (del_all rs (resv w)) w).
Proof.
  revert w. induction rs as [|r rest IH]; intros w H; cbn [delete_each del_all fold_left].
  - change (resv w) with (get_sheet WsResv w). rewrite set_get_sheet. reflexivity.
  - unfold bind. rewrite delete_rows_calm by exact H.
    rewrite IH by (apply calm_set_sheet, H).
    rewrite set_set_sheet. reflexivity.
Qed.

Lemma lane_rows_run (k court : string) (items : lane) (w : world) :
  lane_rows k court items w = (Ok (lane_rows_at (clock w) k court items), w).
Proof.
  induction items as [|[b [s|]] rest IH]; cbn [lane_rows lane_rows_at].
  - reflexivity.
  - unfold bind, slot_row. destruct (Py.truthy _); cbn; rewrite IH; reflexivity.
  - exact IH.
Qed.

Lemma courts_rows_run (k : string) (courts : list string) (d : day) (w : world) :
  courts_rows k courts d w = (Ok (courts_rows_at (clock w) k courts d), w).
Proof.
  induction courts as [|c rest IH]; cbn [courts_rows courts_rows_at].
  - reflexivity.
  - unfold bind. rewrite lane_rows_run, IH. reflexivity.
Qed.

(** [save_date] from the version check on, when the transport holds. *)
Lemma commit_calm (k : string) (d : day) (v : Z) (w : world) :
  calm w ->
  commit k d v w =
    if stored_version k (vers w) =? v then
      (Ok (true, ""),
       set_sheet WsVers (set_version_sheet k (v + 1) (vers w))
         (set_sheet WsResv
            (del_all (sorted_desc (scan_all (keyed 1 k) 1 (resv w))) (resv w)
             ++ courts_rows_at (clock w) k ["A"; "B"] d) w))
    else (Ok (false, "VERSION_CONFLICT"), w).
Proof.
  intros H. unfold commit, bind. rewrite get_version_calm by exact H.
  destruct (stored_version k (vers w) =? v) eqn:E; cbn [negb]; [|reflexivity].
  apply Z.eqb_eq in E. rewrite E.
  rewrite find_rows_calm by exact H. cbn [get_sheet].
  rewrite delete_each_calm by exact H.
  rewrite courts_rows_run. cbn [clock set_sheet].
  set (kept := del_all _ _).
  destruct (courts_rows_at (clock w) k ["A"; "B"] d) as [|r0 rows] eqn:Er.
  - unfold ret. rewrite set_version_calm by (apply (calm_set_sheet WsResv), H).
    rewrite app_nil_r. reflexivity.
  - rewrite append_rows_calm by (apply (calm_set_sheet WsResv), H).
    rewrite set_version_calm
      by (apply (calm_set_sheet WsResv), (calm_set_sheet WsResv), H).
    reflexivity.
Qed.

End Calm.

(** ** The lock table *)

Lemma token_test (r : row) (token : string) :
  (2 <=? List.length r)%nat && String.eqb (cell 1 r) token = true
  <-> nth_error r 1 = Some token.
Proof.
  unfold cell. destruct r as [|a [|b t]]; cbn; split; try discriminate.
  - intros H. apply String.eqb_eq in H. congruence.
  - intros [= ->]. apply String.eqb_refl.
Qed.

Lemma scan_first_write_BD (k b c d : string) (sh : sheet) (i : nat) :
  scan_first (keyed 1 k) 1 sh = Some i ->
  scan_first (keyed 1 k) 1 (write_BD i b c d sh) = Some i.
Proof.
  intros H. unfold write_BD.
  repeat (apply scan_first_write_cell; [|lia|lia]). exact H.
Qed.

Lemma nth_write_BD (b c d : string) (sh : sheet) (i : nat) :
  nth (i - 1) (write_BD i b c d sh) []
  = set_nth "" 3 d (set_nth "" 2 c (set_nth "" 1 b (nth (i - 1) sh []))).
Proof.
  unfold write_BD. rewrite !nth_write_cell. reflexivity.
Qed.

Lemma row_after_write_BD (k b c d : string) (r : row) :
  keyed 1 k r = true ->
  let r' := set_nth "" 3 d (set_nth "" 2 c (set_nth "" 1 b r)) in
  (4 <= List.length r')%nat /\ cell 0 r' = k /\ cell 1 r' = b
  /\ cell 2 r' = c /\ cell 3 r' = d.
Proof.
  unfold keyed, cell. intros H. apply andb_true_iff in H. destruct H as [_ H].
  apply String.eqb_eq in H.
  destruct r as [|x0 [|x1 [|x2 [|x3 t]]]]; cbn in *; repeat split; auto; lia.
Qed.

(** After a grab the lock record of the key carries the token written. *)
Lemma lock_record_grab (k token user exp : string) (sh : sheet) :
  headed sh ->
  exists i r',
    scan_first (keyed 1 k) 1 (grab k token user exp sh) = Some i
    /\ nth (i - 1) (grab k token user exp sh) [] = r'
    /\ (4 <= List.length r')%nat /\ cell 0 r' = k /\ cell 1 r' = token
    /\ cell 2 r' = user /\ cell 3 r' = exp.
Proof.
  intros Hh. unfold grab.
  destruct (scan_first (keyed 1 k) 1 sh) as [i|] eqn:E.
  - exists i, (nth (i - 1) (write_BD i token user exp sh) []).
    split; [apply scan_first_write_BD, E|]. split; [reflexivity|].
    rewrite nth_write_BD. apply row_after_write_BD.
    apply (scan_first_holds _ _ _ _ E).
  - exists (1 + List.length sh)%nat, [k; token; user; exp].
    assert (Hk : keyed 1 k [k; token; user; exp] = true).
    { unfold keyed, cell. cbn. apply String.eqb_refl. }
    split.
    + apply scan_first_app_none; [exact E | exact Hk|].
      destruct sh; [contradiction Hh; reflexivity | cbn; lia].
    + split.
      * replace (1 + List.length sh - 1)%nat with (List.length sh) by lia.
        apply nth_app_last.
      * cbn. repeat split; auto; lia.
Qed.

Lemma quiet_step (n : nat) (w : world) :
  quiet (S n) w -> hd false (faults w) = false /\ quiet n (tick w).
Proof.
  unfold quiet, tick, with_faults. cbn [faults].
  destruct (faults w) as [|f fs]; cbn.
  - intros _. split; [reflexivity|]. destruct n; reflexivity.
  - intros H. apply andb_true_iff in H. destruct H as [Hf Hfs].
    destruct f; [discriminate|]. auto.
Qed.

Lemma transport_quiet {A : Type} (op : world -> A * world) (n : nat) (w : world) :
  quiet (S n) w ->
  transport op w = (Ok (fst (op (tick w))), snd (op (tick w))).
Proof.
  intros H. apply quiet_step in H. destruct H as [H _].
  unfold transport. rewrite H. destruct (op (tick w)); reflexivity.
Qed.

Section LockRuns.

Context {codec : IsoCodec}.

Lemma recheck_calm (k token : string) (next : M (option string)) (w : world) (i : nat) :
  calm w ->
  scan_first (keyed 1 k) 1 (locks w) = Some i ->
  let r := nth (i - 1) (locks w) [] in
  (4 <= List.length r)%nat -> cell 0 r = k -> cell 1 r = token ->
  recheck k token next w = (Ok (Some token), w).
Proof.
  intros H E r Hl H0 H1. unfold recheck, bind.
  rewrite lock_row_index_calm by exact H. rewrite E.
  rewrite row_values_calm by exact H. cbn [get_sheet]. fold r.
  rewrite H0, H1, !String.eqb_refl.
  apply Nat.leb_le in Hl. rewrite Hl. reflexivity.
Qed.


(** An attempt that does not find it so takes the lock and returns. *)
Lemma attempt_free (k user : string) (ttl backoff : Z) (token : string)
    (attempt : Z) (n : nat) (w : world) :
  calm w -> headed (locks w) ->
  blocked k token (clock w) (locks w) = false ->
  acquire_attempts k user ttl backoff token attempt (S n) w
  = (Ok (Some token),
     set_sheet WsLock
       (grab k token user (stamp (clock w + timedelta_seconds ttl)) (locks w)) w).
Proof.
  intros H Hh Hblk. cbn [acquire_attempts]. unfold bind at 1.
  rewrite lock_row_index_calm by exact H.
  destruct (lock_record_grab k token user
              (stamp (clock w + timedelta_seconds ttl)) (locks w) Hh)
    as (i' & r' & Ei & Er & Hl & H0 & H1 & _).
  unfold blocked, lock_record, found_row in Hblk. unfold grab in *.
  destruct (scan_first (keyed 1 k) 1 (locks w)) as [i|] eqn:E.
  - unfold bind at 1. unfold utcnow at 1. unfold bind at 1.
    rewrite row_values_calm by exact H. cbn [get_sheet]. rewrite Hblk.
    unfold bind at 1. rewrite update_BD_calm by exact H. cbn [get_sheet].
    apply recheck_calm with (i := i'); cbn [locks set_sheet];
      [apply (calm_set_sheet WsLock), H | exact Ei | rewrite Er .. ]; assumption.
  - unfold bind at 1. unfold utcnow at 1. unfold bind at 1.
    unfold append_row. rewrite append_rows_calm by exact H. cbn [get_sheet].
    apply recheck_calm with (i := i'); cbn [locks set_sheet];
      [apply (calm_set_sheet WsLock), H | exact Ei | rewrite Er .. ]; assumption.
Qed.

Lemma uuid4_run (w : world) : uuid4 w = (Ok (next_token w), drawn w).
Proof. unfold uuid4, next_token, drawn. destruct (entropy w); reflexivity. Qed.

Lemma drawn_same (w : world) :
  locks (drawn w) = locks w /\ clock (drawn w) = clock w
  /\ resv (drawn w) = resv w /\ vers (drawn w) = vers w
  /\ (calm w -> calm (drawn w)).
Proof. unfold drawn. destruct (entropy w); auto 10. Qed.

Lemma release_lock_calm (k token : string) (w : world) :
  calm w ->
  release_lock k token w
  = (Ok tt,
     if token_matches k token (locks w)
     then set_sheet WsLock
            (tombstone k (stamp (clock w - timedelta_seconds 1)) (locks w)) w
     else w).
Proof.
  intros H. unfold release_lock, bind. rewrite lock_row_index_calm by exact H.
  unfold token_matches, stored_token, lock_record, found_row, tombstone.
  destruct (scan_first (keyed 1 k) 1 (locks w)) as [i|]; [|reflexivity].
  rewrite row_values_calm by exact H. cbn [get_sheet].
  set (r := nth (i - 1) (locks w) []).
  destruct ((2 <=? List.length r)%nat && String.eqb (cell 1 r) token) eqn:T.
  - apply token_test in T. rewrite T. rewrite String.eqb_refl.
    unfold utcnow. rewrite update_BD_calm by exact H. reflexivity.
  - destruct (nth_error r 1) as [t|] eqn:N; [|reflexivity].
    destruct (String.eqb t token) eqn:Et; [|reflexivity].
    apply String.eqb_eq in Et. subst t. apply token_test in N. congruence.
Qed.

End LockRuns.

(** ** acquire_lock *)

Lemma bind_Ok {A B : Type} (m : M A) (k : A -> M B) (w w' : world) (b : B) :
  bind m k w = (Ok b, w') ->
  exists a w1, m w = (Ok a, w1) /\ k a w1 = (Ok b, w').
Proof.
  unfold bind. destruct (m w) as [[a|e] w1]; [|discriminate].
  intros H. exists a, w1. auto.
Qed.

Lemma read_Ok {A : Type} (f : world -> A) (w w' : world) (a : A) :
  transport (fun w => (f w, w)) w = (Ok a, w') -> w' = tick w /\ a = f (tick w).
Proof.
  unfold transport. destruct (hd false (faults w)); [discriminate|].
  intros [= <- <-]. auto.
Qed.



Section Acquire.

Context {codec : IsoCodec}.

Lemma lock_row_index_Ok (k : string) (w w' : world) (i : option nat) :
  _lock_row_index k w = (Ok i, w') ->
  locks w' = locks w /\ i = scan_first (keyed 1 k) 1 (locks w').
Proof.
  intros H. apply bind_Ok in H. destruct H as (vals & w1 & H1 & H2).
  apply read_Ok in H1. destruct H1 as [-> ->].
  injection H2 as <- <-. split; reflexivity.
Qed.

Lemma recheck_Some (k token : string) (next : M (option string)) (w w' : world)
    (t : string) :
  recheck k token next w = (Ok (Some t), w') ->
  (t = token /\ holds k token (locks w'))
  \/ exists w1, next w1 = (Ok (Some t), w').
Proof.
  intros H. apply bind_Ok in H. destruct H as (i2 & w1 & H1 & H).
  apply lock_row_index_Ok in H1. destruct H1 as [L1 ->].
  apply bind_Ok in H. destruct H as (row2 & w2 & H2 & H).
  destruct (_ && _) eqn:T in H; [|right; exists w2; exact H].
  injection H as <- <-. left. split; [reflexivity|].
  apply andb_true_iff in T. destruct T as [T T1].
  apply andb_true_iff in T. destruct T as [Tl T0].
  apply Nat.leb_le in Tl. apply String.eqb_eq in T0, T1.
  destruct (scan_first (keyed 1 k) 1 (locks w1)) as [i|] eqn:E.
  - apply read_Ok in H2. destruct H2 as [-> ->].
    exists (nth (i - 1) (locks w1) []). cbn [get_sheet locks tick with_faults] in *.
    unfold lock_record, found_row. rewrite E. auto.
  - injection H2 as <- <-. cbn in Tl. lia.
Qed.

(** [acquire_lock] returns a token only after a re-read that shows it
    stored, whatever the transport does. *)
Lemma acquire_attempts_Some (k user : string) (ttl backoff : Z) (token : string)
    (n : nat) (attempt : Z) (w w' : world) (t : string) :
  acquire_attempts k user ttl backoff token attempt n w = (Ok (Some t), w') ->
  t = token /\ holds k token (locks w').
Proof.
  revert attempt w. induction n as [|n IH]; intros attempt w H; [discriminate|].
  cbn [acquire_attempts] in H.
  assert (Hnext : forall w1,
            (sleep (backoff * (attempt + 1));;
             acquire_attempts k user ttl backoff token (attempt + 1) n) w1
            = (Ok (Some t), w') -> t = token /\ holds k token (locks w')).
  { intros w1 Hn. apply bind_Ok in Hn. destruct Hn as (u & w2 & _ & Hn).
    exact (IH _ _ Hn). }
  apply bind_Ok in H. destruct H as (ri & w1 & _ & H).
  apply bind_Ok in H. destruct H as (now & w2 & _ & H).
  destruct ri as [i|].
  - apply bind_Ok in H. destruct H as (r & w3 & _ & H).
    destruct (held_by_other token now r); [exact (Hnext _ H)|].
    apply bind_Ok in H. destruct H as (u & w4 & _ & H).
    apply recheck_Some in H. destruct H as [H | [w5 H]]; [exact H | exact (Hnext _ H)].
  - apply bind_Ok in H. destruct H as (u & w3 & _ & H).
    apply recheck_Some in H. destruct H as [H | [w5 H]]; [exact H | exact (Hnext _ H)].
Qed.

Lemma next_token_truthy (w : world) : Py.truthy (next_token w) = true.
Proof. unfold next_token. destruct (entropy w); reflexivity. Qed.

Lemma acquire_lock_Some (k user : string) (ttl max_retry backoff : Z)
    (w w' : world) (t : string) :
  acquire_lock k user ttl max_retry backoff w = (Ok (Some t), w') ->
  t = next_token w /\ holds k t (locks w').
Proof.
  unfold acquire_lock, bind. rewrite uuid4_run. intros H.
  apply acquire_attempts_Some in H. destruct H as [-> H]. auto.
Qed.

End Acquire.

Section AcquireCalm.

Context {codec : IsoCodec}.

Lemma sleep_then (d : Z) {A : Type} (m : M A) (w : world) :
  0 <= d -> (sleep d ;; m) w = m (with_clock (clock w + d) w).
Proof.
  intros H. unfold bind, sleep. apply Z.ltb_ge in H. rewrite H. reflexivity.
Qed.

Lemma recheck_calm_gen (k token : string) (next : M (option string)) (w : world) :
  calm w ->
  recheck k token next w = (Ok (Some token), w) \/ recheck k token next w = next w.
Proof.
  intros H. unfold recheck, bind. rewrite lock_row_index_calm by exact H.
  destruct (scan_first (keyed 1 k) 1 (locks w)) as [i|].
  - rewrite row_values_calm by exact H. destruct (_ && _); auto.
  - unfold ret. cbn. auto.
Qed.

(** Without transport failure and with a backoff that is not negative,
    [acquire_lock] does not raise. *)
Lemma acquire_attempts_returns (k user : string) (ttl backoff : Z) (token : string)
    (n : nat) (attempt : Z) (w : world) :
  calm w -> 0 <= backoff -> 0 <= attempt ->
  exists o w', acquire_attempts k user ttl backoff token attempt n w = (Ok o, w').
Proof.
  revert attempt w. induction n as [|n IH]; intros attempt w H Hb Ha.
  - exists None, w. reflexivity.
  - cbn [acquire_attempts].
    assert (Hd : 0 <= backoff * (attempt + 1)) by nia.
    assert (Hnext : forall w1, calm w1 -> exists o w',
              (sleep (backoff * (attempt + 1));;
               acquire_attempts k user ttl backoff token (attempt + 1) n) w1
              = (Ok o, w')).
    { intros w1 H1. rewrite sleep_then by exact Hd.
      apply IH; [apply calm_with_clock, H1 | exact Hb | lia]. }
    unfold bind at 1. rewrite lock_row_index_calm by exact H.
    unfold bind at 1. unfold utcnow at 1.
    destruct (scan_first (keyed 1 k) 1 (locks w)) as [i|].
    + unfold bind at 1. rewrite row_values_calm by exact H.
      destruct (held_by_other _ _ _); [apply Hnext, H|].
      unfold bind at 1. rewrite update_BD_calm by exact H.
      match goal with
      | |- context [recheck k token ?nx ?w1] =>
          destruct (recheck_calm_gen k token nx w1 (calm_set_sheet _ _ _ H)) as [E|E];
          rewrite E; [eauto | apply Hnext, calm_set_sheet, H]
      end.
    + unfold bind at 1. unfold append_row. rewrite append_rows_calm by exact H.
      match goal with
      | |- context [recheck k token ?nx ?w1] =>
          destruct (recheck_calm_gen k token nx w1 (calm_set_sheet _ _ _ H)) as [E|E];
          rewrite E; [eauto | apply Hnext, calm_set_sheet, H]
      end.
Qed.

Lemma acquire_lock_returns (k user : string) (ttl max_retry backoff : Z) (w : world) :
  calm w -> 0 <= backoff ->
  exists o w', acquire_lock k user ttl max_retry backoff w = (Ok o, w').
Proof.
  intros H Hb. unfold acquire_lock, bind. rewrite uuid4_run.
  apply acquire_attempts_returns; [|exact Hb|lia].
  apply drawn_same, H.
Qed.




End AcquireCalm.

(** ** Expiry *)





Lemma tombstone_record (k tomb : string) (sh : sheet) (r : row) :
  lock_record k sh = Some r ->
  exists r',
    lock_record k (tombstone k tomb sh) = Some r'
    /\ (4 <= List.length r')%nat /\ cell 0 r' = k /\ cell 1 r' = ""
    /\ cell 2 r' = "" /\ cell 3 r' = tomb.
Proof.
  unfold lock_record, found_row, tombstone.
  destruct (scan_first (keyed 1 k) 1 sh) as [i|] eqn:E; [|discriminate].
  intros _. rewrite (scan_first_write_BD _ _ _ _ _ _ E), nth_write_BD.
  eexists. split; [reflexivity|].
  apply row_after_write_BD, (scan_first_holds _ _ _ _ E).
Qed.

Section Expiry.

Context {codec : IsoCodec}.








End Expiry.



Section Release.

Context {codec : IsoCodec}.

(** [release_lock] by the holder of the stored token, when its three round
    trips to the store go through. *)
Lemma release_lock_quiet (k token : string) (w : world) :
  quiet 3 w -> holds k token (locks w) ->
  exists w',
    release_lock k token w = (Ok tt, w')
    /\ locks w' = tombstone k (stamp (clock w - timedelta_seconds 1)) (locks w).
Proof.
  intros Q (r & Hr & Hl & _ & H1).
  unfold release_lock, bind, _lock_row_index, _read_all, get_all_values.
  unfold bind. rewrite (transport_quiet _ 2 w Q). cbn [fst snd ret].
  apply quiet_step in Q. destruct Q as [_ Q].
  unfold lock_record, found_row in Hr. unfold tombstone.
  change (get_sheet WsLock (tick w)) with (locks w).
  destruct (scan_first (keyed 1 k) 1 (locks w)) as [i|]; [|discriminate].
  injection Hr as Hr.
  unfold row_values. rewrite (transport_quiet _ 1 (tick w) Q). cbn [fst snd].
  apply quiet_step in Q. destruct Q as [_ Q].
  change (get_sheet WsLock (tick (tick w))) with (locks w). rewrite Hr, H1.
  apply Nat.leb_le in Hl.
  assert (Hl2 : (2 <=? List.length r)%nat = true).
  { apply Nat.leb_le. apply Nat.leb_le in Hl. lia. }
  rewrite Hl2, String.eqb_refl. cbn [andb].
  unfold utcnow, update_BD. rewrite (transport_quiet _ 0 (tick (tick w)) Q).
  cbn [fst snd]. eexists. split; reflexivity.
Qed.

End Release.



(** ** save_date as a whole *)

Ltac frame_side :=
  first
    [ intros; reflexivity
    | unfold same; intros; congruence
    | unfold keeps_calm; intros; auto with calm
    | unfold keeps_calm, calm, tick; cbn; intros ? ->; reflexivity ].

Section Save.

Context {codec : IsoCodec}.

Lemma keeps_calm_tick (w : world) : keeps_calm w (tick w).
Proof. unfold keeps_calm, calm, tick. cbn. intros ->. reflexivity. Qed.

Lemma keeps_calm_trans (a b c : world) :
  keeps_calm a b -> keeps_calm b c -> keeps_calm a c.
Proof. unfold keeps_calm. auto. Qed.

(** The lock operations do not touch the reservations, the versions or the
    session; a run that is calm stays calm. *)
Lemma acquire_lock_frame (k user : string) (ttl max_retry backoff : Z) (w : world) :
  let w' := snd (acquire_lock k user ttl max_retry backoff w) in
  resv w' = resv w /\ vers w' = vers w /\ st_blocks w' = st_blocks w
  /\ (calm w -> calm w').
Proof.
  cbn zeta. repeat split.
  - apply (frame_acquire_lock (same resv)); frame_side.
  - apply (frame_acquire_lock (same vers)); frame_side.
  - apply (frame_acquire_lock (same st_blocks)); frame_side.
  - apply (frame_acquire_lock keeps_calm);
      first [exact keeps_calm_tick | exact keeps_calm_trans | frame_side].
Qed.

Lemma release_lock_frame (k token : string) (w : world) :
  let w' := snd (release_lock k token w) in
  resv w' = resv w /\ vers w' = vers w /\ st_blocks w' = st_blocks w
  /\ clock w' = clock w /\ (calm w -> calm w').
Proof.
  cbn zeta. repeat split.
  - apply (frame_release_lock (same resv)); frame_side.
  - apply (frame_release_lock (same vers)); frame_side.
  - apply (frame_release_lock (same st_blocks)); frame_side.
  - apply (frame_release_lock (same clock)); frame_side.
  - apply (frame_release_lock keeps_calm);
      first [exact keeps_calm_tick | exact keeps_calm_trans | frame_side].
Qed.

Lemma commit_frame (k : string) (d : day) (v : Z) (w : world) :
  let w' := snd (commit k d v w) in
  locks w' = locks w /\ clock w' = clock w /\ st_blocks w' = st_blocks w.
Proof.
  cbn zeta. repeat split.
  - apply (frame_commit (same locks)); frame_side.
  - apply (frame_commit (same clock)); frame_side.
  - apply (frame_commit (same st_blocks)); frame_side.
Qed.

Lemma lock_step_calm (k user : string) (use_lock : bool) (ttl : Z) (w : world) :
  calm w ->
  exists o w1,
    lock_step k user use_lock ttl w = (Ok o, w1) /\ calm w1
    /\ resv w1 = resv w /\ vers w1 = vers w /\ st_blocks w1 = st_blocks w
    /\ (use_lock = false -> o = None)
    /\ (forall t, o = Some t -> Py.truthy t = true /\ holds k t (locks w1)).
Proof.
  intros H. unfold lock_step. destruct use_lock.
  - destruct (acquire_lock_returns k user ttl 5 500000 w H ltac:(lia)) as (o & w1 & E).
    pose proof (acquire_lock_frame k user ttl 5 500000 w) as F.
    rewrite E in F. cbn in F. destruct F as (Fr & Fv & Fb & Fc).
    exists o, w1. repeat split; auto; try discriminate.
    + subst o. apply acquire_lock_Some in E. destruct E as [-> _].
      apply next_token_truthy.
    + subst o. apply acquire_lock_Some in E. apply E.
  - exists None, w. repeat split; auto; discriminate.
Qed.

Lemma unlock_step_calm (k : string) (use_lock : bool) (o : option string) (w : world) :
  calm w ->
  exists w',
    unlock_step k use_lock o w = (Ok tt, w') /\ calm w'
    /\ resv w' = resv w /\ vers w' = vers w /\ st_blocks w' = st_blocks w
    /\ clock w' = clock w.
Proof.
  intros H. unfold unlock_step.
  destruct o as [t|]; [destruct (use_lock && Py.truthy t)|].
  - pose proof (release_lock_frame k t w) as F.
    rewrite (release_lock_calm k t w H) in *. cbn [snd] in F.
    destruct F as (Fr & Fv & Fb & Fc & Fk).
    eexists. split; [reflexivity|]. auto.
  - exists w. auto 10.
  - exists w. auto 10.
Qed.

(** The three ways [save_date] ends when the transport holds. *)
Lemma save_date_calm (k : string) (d : day) (v : Z) (user : string)
    (use_lock : bool) (ttl : Z) (w : world) :
  calm w ->
  exists w',
    snd (save_date k d v user use_lock ttl w) = w' /\ calm w'
    /\ st_blocks w' = st_blocks w
    /\ ((fst (save_date k d v user use_lock ttl w) = Ok (false, "LOCK_FAIL")
         /\ use_lock = true /\ resv w' = resv w /\ vers w' = vers w)
        \/ (fst (save_date k d v user use_lock ttl w) = Ok (false, "VERSION_CONFLICT")
            /\ stored_version k (vers w) <> v
            /\ resv w' = resv w /\ vers w' = vers w)
        \/ (fst (save_date k d v user use_lock ttl w) = Ok (true, "")
            /\ stored_version k (vers w) = v
            /\ resv w'
               = other_rows k (resv w) ++ courts_rows_at (clock w') k ["A"; "B"] d
            /\ vers w' = set_version_sheet k (v + 1) (vers w))).
Proof.
  intros H.
  destruct (lock_step_calm k user use_lock ttl w H)
    as (o & w1 & E & H1 & Er & Ev & Eb & Hno & Hsome).
  destruct (save_date k d v user use_lock ttl w) as [r w'] eqn:Es. cbn [fst snd].
  unfold save_date in Es. fold (lock_step k user use_lock ttl) in Es.
  unfold bind in Es. rewrite E in Es. fold (unlock_step k use_lock o) in Es.
  unfold try_finally in Es.
  destruct (use_lock && negb (token_held o)) eqn:T.
  - (* LOCK_FAIL *)
    apply andb_true_iff in T. destruct T as [-> T].
    destruct (unlock_step_calm k true o w1 H1) as (w3 & E3 & H3 & Fr & Fv & Fb & Fc).
    unfold ret in Es. rewrite E3 in Es. injection Es as <- <-.
    exists w3. repeat split; [exact H3 | congruence |].
    left. repeat split; congruence.
  - (* the commit runs *)
    rewrite (commit_calm k d v w1 H1) in Es.
    destruct (stored_version k (vers w1) =? v) eqn:Ever.
    + apply Z.eqb_eq in Ever.
      match type of Es with
      | context [unlock_step k use_lock o ?w2] =>
          destruct (unlock_step_calm k use_lock o w2) as (w3 & E3 & H3 & Fr & Fv & Fb & Fc);
          [apply (calm_set_sheet WsVers), (calm_set_sheet WsResv), H1|]
      end.
      rewrite E3 in Es. injection Es as <- <-.
      cbn [resv vers st_blocks clock set_sheet] in *.
      exists w3. repeat split; [exact H3 | congruence |].
      right. right. rewrite <- (delete_key_rows k (resv w)).
      repeat split; congruence.
    + apply Z.eqb_neq in Ever.
      destruct (unlock_step_calm k use_lock o w1 H1) as (w3 & E3 & H3 & Fr & Fv & Fb & Fc).
      rewrite E3 in Es. injection Es as <- <-.
      exists w3. repeat split; [exact H3 | congruence |].
      right. left. repeat split; congruence.
Qed.

(** [load_date] when the transport holds. *)
Lemma load_rows_calm (idxs : list nat) (d : day) (w : world) :
  calm w ->
  load_rows idxs d w
  = (Ok (fold_left load_step (map (fun i => nth (i - 1) (resv w) []) idxs) d), w).
Proof.
  intros H. revert d. induction idxs as [|i rest IH]; intros d; cbn [load_rows map fold_left].
  - reflexivity.
  - unfold bind. rewrite row_values_calm by exact H. cbn [get_sheet].
    unfold load_step at 2.
    destruct (6 <=? _)%nat; [|apply IH].
    destruct (_ || _); apply IH.
Qed.

Lemma load_date_calm (k : string) (w : world) :
  calm w ->
  load_date k w
  = (Ok (fold_left load_step (key_rows k (resv w))
           [("A", empty_lane (st_blocks w)); ("B", empty_lane (st_blocks w))],
         stored_version k (vers w)), w).
Proof.
  intros H. unfold load_date, bind, session_blocks.
  rewrite find_rows_calm by exact H. cbn [get_sheet].
  rewrite load_rows_calm by exact H. rewrite get_version_calm by exact H.
  rewrite read_key_rows. reflexivity.
Qed.

End Save.

(** ** The versions table *)

Lemma found_row_set_version (k : string) (v : Z) (sh : sheet) :
  headed sh ->
  found_row 2 k (set_version_sheet k v sh)
  = Some (match found_row 2 k sh with
          | Some r => set_nth "" 1 (Py.str v) r
          | None => [k; Py.str v]
          end).
Proof.
  intros Hh. unfold set_version_sheet.
  destruct (scan_first (keyed 2 k) 1 sh) as [i|] eqn:E.
  - rewrite (found_row_write_cell 2 2 k (Py.str v) sh i E) by lia.
    unfold found_row. rewrite E. reflexivity.
  - rewrite found_row_append; [|exact E| |exact Hh].
    + unfold found_row. rewrite E. reflexivity.
    + unfold keyed, cell. cbn. apply String.eqb_refl.
Qed.

(** What [_set_version] writes is what [_get_version] reads next. *)
Lemma stored_version_set (k : string) (v : Z) (sh : sheet) :
  headed sh -> stored_version k (set_version_sheet k v sh) = v.
Proof.
  intros Hh. unfold stored_version. rewrite found_row_set_version by exact Hh.
  destruct (found_row 2 k sh) as [r|].
  - unfold cell. rewrite nth_set_nth, int_str. reflexivity.
  - unfold cell. cbn [nth]. rewrite int_str. reflexivity.
Qed.

(** ** Loading what was saved *)

Section RoundTrip.

Context {codec : IsoCodec}.

Lemma lane_rows_at_occupied (now : datetime) (k c : string) (l : lane) :
  lane_rows_at now k c l
  = map (fun bs => slot_row now k c (fst bs) (snd bs)) (occupied l).
Proof.
  unfold occupied. induction l as [|[b [s|]] t IH]; cbn; [reflexivity| |exact IH].
  rewrite IH. reflexivity.
Qed.

Lemma lane_rows_keyed (now : datetime) (k c : string) (l : lane) :
  forallb (keyed 1 k) (lane_rows_at now k c l) = true.
Proof.
  induction l as [|[b [s|]] t IH]; cbn [lane_rows_at forallb]; auto.
  rewrite IH. unfold keyed, slot_row, cell. cbn. rewrite String.eqb_refl. reflexivity.
Qed.

Lemma courts_rows_keyed (now : datetime) (k : string) (courts : list string) (d : day) :
  forallb (keyed 1 k) (courts_rows_at now k courts d) = true.
Proof.
  induction courts as [|c rest IH]; cbn [courts_rows_at]; [reflexivity|].
  rewrite forallb_app, lane_rows_keyed, IH. reflexivity.
Qed.

Lemma load_step_slot_row (now : datetime) (k c b : string) (s : slot) (dd : day) :
  c = "A" \/ c = "B" ->
  load_step dd (slot_row now k c b s) = day_assign c b (Some (stamped now s)) dd.
Proof. intros [-> | ->]; reflexivity. Qed.

Lemma load_lane_rows (now : datetime) (k c : string) (items : lane) (dd : day) (l : lane) :
  c = "A" \/ c = "B" -> dict_get c dd = Some l ->
  fold_left load_step (lane_rows_at now k c items) dd
  = dict_set c (fill (occupied_at now items) l) dd.
Proof.
  intros Hc. revert dd l.
  induction items as [|[b [s|]] rest IH]; intros dd l Hl.
  - cbn. symmetry. apply dict_set_same, Hl.
  - cbn [lane_rows_at fold_left].
    rewrite (load_step_slot_row _ _ _ _ _ _ Hc). unfold day_assign. rewrite Hl.
    rewrite (IH _ (dict_set b (Some (stamped now s)) l)) by apply dict_get_set_eq.
    rewrite dict_set_twice. reflexivity.
  - cbn [lane_rows_at]. apply IH, Hl.
Qed.

(** The day [load_date] builds from the rows [save_date] wrote for [d]. *)
Lemma load_saved (now : datetime) (k : string) (d : day) (e : lane) :
  fold_left load_step (courts_rows_at now k ["A"; "B"] d) [("A", e); ("B", e)]
  = [("A", fill (occupied_at now (lane_of "A" d)) e);
     ("B", fill (occupied_at now (lane_of "B" d)) e)].
Proof.
  cbn [courts_rows_at]. rewrite app_nil_r, fold_left_app.
  fold (lane_of "A" d). fold (lane_of "B" d).
  rewrite (load_lane_rows now k "A" _ _ e) by (auto; reflexivity).
  cbn [dict_set String.eqb Ascii.eqb Bool.eqb].
  rewrite (load_lane_rows now k "B" _ _ e) by (auto; reflexivity).
  reflexivity.
Qed.

Lemma stamped_created (now : datetime) (s : slot) :
  Py.truthy (slot_createdAt s) = true -> stamped now s = s.
Proof. unfold stamped. intros ->. destruct s; reflexivity. Qed.

(** A fitting lane reads back as it was. *)
Lemma fill_fits (now : datetime) (blocks : list string) (l : lane) (b : string) :
  fits blocks l ->
  dict_get b (fill (occupied_at now l) (empty_lane blocks)) = dict_get b l.
Proof.
  intros (Hnd & Hall & Hempty & Hcreated).
  assert (Hkeys : map fst (occupied_at now l) = map fst (occupied l)).
  { unfold occupied_at. rewrite map_map. reflexivity. }
  destruct (dict_get b l) as [[s|]|] eqn:E.
  - apply fill_get_in.
    + rewrite Hkeys. apply occupied_nodup, Hnd.
    + unfold occupied_at. apply in_map_iff. exists (b, s). split.
      * cbn. rewrite (stamped_created now s (Hcreated _ _ E)). reflexivity.
      * apply occupied_in, dict_get_in, E.
  - rewrite fill_get_notin.
    + apply empty_lane_get, Hempty, E.
    + rewrite Hkeys. intros Hin. apply in_map_iff in Hin.
      destruct Hin as ([b' s] & Hb & Hin). cbn in Hb. subst b'.
      apply occupied_in, (in_dict_get _ _ _ Hnd) in Hin. congruence.
  - rewrite fill_get_notin.
    + apply empty_lane_get. intros Hin. exact (Hall _ Hin E).
    + rewrite Hkeys. intros Hin. apply occupied_keys in Hin.
      exact (dict_get_none _ _ E Hin).
Qed.

Lemma load_saved_fits (now : datetime) (k : string) (blocks : list string) (d : day) :
  fits_day blocks d ->
  day_eq (fold_left load_step (courts_rows_at now k ["A"; "B"] d)
            [("A", empty_lane blocks); ("B", empty_lane blocks)]) d.
Proof.
  intros ((la & lb & Ha & Hb & Fa & Fb) & Hother).
  rewrite load_saved. unfold lane_of. rewrite Ha, Hb.
  intros c. cbn [dict_get]. unfold lane, day in *.
  destruct (String.eqb "A" c) eqn:EA.
  - apply String.eqb_eq in EA. subst c. rewrite Ha.
    intros b. rewrite (fill_fits now blocks la b Fa).
    destruct (dict_get b la); auto.
  - destruct (String.eqb "B" c) eqn:EB.
    + apply String.eqb_eq in EB. subst c. rewrite Hb.
      intros b. rewrite (fill_fits now blocks lb b Fb).
      destruct (dict_get b lb); auto.
    + apply String.eqb_neq in EA, EB. rewrite Hother by congruence. exact I.
Qed.

Lemma load_step_shaped (blocks : list string) (d : day) (rw : row) :
  shaped blocks d -> shaped blocks (load_step d rw).
Proof.
  intros [Hk Hb]. unfold load_step.
  destruct (6 <=? _)%nat; [|split; assumption].
  destruct (_ || _); [|split; assumption].
  unfold day_assign. destruct (dict_get (cell 1 rw) d) as [l|] eqn:E; [|split; assumption].
  split.
  - rewrite dict_set_keys by congruence. exact Hk.
  - intros c l' b Hl' Hin.
    destruct (String.eqb c (cell 1 rw)) eqn:Ec.
    + apply String.eqb_eq in Ec. subst c. rewrite dict_get_set_eq in Hl'.
      injection Hl' as <-. apply dict_get_set_some. exact (Hb _ _ _ E Hin).
    + apply String.eqb_neq in Ec. rewrite dict_get_set_neq in Hl' by exact Ec.
      exact (Hb _ _ _ Hl' Hin).
Qed.

Lemma load_rows_shaped (blocks : list string) (rows : list row) (d : day) :
  shaped blocks d -> shaped blocks (fold_left load_step rows d).
Proof.
  revert d. induction rows as [|rw rest IH]; intros d H; [exact H|].
  apply IH, load_step_shaped, H.
Qed.

Lemma empty_day_shaped (blocks : list string) :
  shaped blocks [("A", empty_lane blocks); ("B", empty_lane blocks)].
Proof.
  split; [reflexivity|]. intros c l b Hl Hin. cbn [dict_get] in Hl.
  assert (l = empty_lane blocks) as ->.
  { destruct (String.eqb "A" c); [congruence|].
    destruct (String.eqb "B" c); [congruence|discriminate]. }
  rewrite (proj1 (empty_lane_get b blocks) Hin). discriminate.
Qed.

End RoundTrip.

(** * Properties of the specification *)

Section SpecCommit.

Context {codec : IsoCodec}.


Lemma commit_step_version (k : string) (d : day) (v : Z) (user : string)
    (use_lock : bool) (ttl : Z) (w w1 : world) (ok : bool) (reason : string) :
  calm w -> headed (vers w) ->
  save_date k d v user use_lock ttl w = (Ok (ok, reason), w1) ->
  stored_version k (vers w1)
  = stored_version k (vers w) + Z.of_nat (if ok then 1 else 0).
Proof.
  intros H Hh Es.
  destruct (save_date_calm k d v user use_lock ttl w H)
    as (w' & Ew & _ & _ & C).
  rewrite Es in *. cbn [fst snd] in *. subst w'.
  destruct C as [C | [C | C]].
  - destruct C as ([= -> _] & _ & _ & ->). cbn. lia.
  - destruct C as ([= -> _] & _ & _ & ->). cbn. lia.
  - destruct C as ([= -> _] & Ev & _ & ->).
    rewrite stored_version_set by exact Hh. cbn. lia.
Qed.

(** C2. Along any history of a partition key, the stored version ends at the
    initial version plus the number of successful commits: a successful
    commit adds exactly 1, and an attempt that ends with [LOCK_FAIL] or
    [VERSION_CONFLICT] adds nothing. *)
Theorem version_monotonic (k : string) (w w' : world) (n : nat) :
  history k w n w' ->
  stored_version k (vers w') = stored_version k (vers w) + Z.of_nat n.
Proof.
  induction 1 as [w | w d v user use_lock ttl ok reason w1 n w2 H Hh Es _ IH
                  | w w1 n w2 E _ IH].
  - cbn. lia.
  - rewrite IH, (commit_step_version _ _ _ _ _ _ _ _ _ _ H Hh Es).
    destruct ok; lia.
  - rewrite IH, E. reflexivity.
Qed.

(** C7. When [acquire_lock] gives no token, [save_date] with [use_lock=True]
    returns [(False, "LOCK_FAIL")] without running any later step: the
    reservations table and the versions table are as before the call. *)
Theorem lock_fail_no_writes (k : string) (d : day) (v : Z) (user : string)
    (ttl : Z) (w w1 : world) :
  acquire_lock k user ttl 5 500000 w = (Ok None, w1) ->
  save_date k d v user true ttl w = (Ok (false, "LOCK_FAIL"), w1)
  /\ resv w1 = resv w /\ vers w1 = vers w.
Proof.
  intros E. split.
  - unfold save_date, bind. rewrite E. reflexivity.
  - pose proof (acquire_lock_frame k user ttl 5 500000 w) as F.
    rewrite E in F. cbn in F. split; apply F.
Qed.


End SpecCommit.

Section SpecLock.

Context {codec : IsoCodec}.


(** C5. [release_lock(key, token)] leaves the world as it is when the key
    has no lock record or the record stores another token; when the record
    stores [token] it overwrites cells B to D of that record with an empty
    token, an empty holder and the time stamp of one second ago. *)
Theorem release_lock_matching (k token : string) (w : world) :
  calm w ->
  (stored_token k (locks w) <> Some token -> release_lock k token w = (Ok tt, w))
  /\ (stored_token k (locks w) = Some token ->
      exists w' r',
        release_lock k token w = (Ok tt, w')
        /\ locks w' = tombstone k (stamp (clock w - timedelta_seconds 1)) (locks w)
        /\ lock_record k (locks w') = Some r'
        /\ cell 0 r' = k /\ cell 1 r' = "" /\ cell 2 r' = ""
        /\ cell 3 r' = stamp (clock w - timedelta_seconds 1)
        /\ resv w' = resv w /\ vers w' = vers w).
Proof.
  intros H. rewrite (release_lock_calm k token w H). unfold token_matches.
  split; intros Ht.
  - destruct (stored_token k (locks w)) as [t|]; [|reflexivity].
    destruct (String.eqb t token) eqn:E; [|reflexivity].
    apply String.eqb_eq in E. congruence.
  - rewrite Ht, String.eqb_refl.
    unfold stored_token in Ht.
    destruct (lock_record k (locks w)) as [r|] eqn:Er; [|discriminate].
    destruct (tombstone_record k (stamp (clock w - timedelta_seconds 1)) _ _ Er)
      as (r' & Hr' & _ & H0 & H1 & H2 & H3).
    eexists. exists r'. split; [reflexivity|]. cbn [locks resv vers set_sheet].
    auto 10.
Qed.

(** C6 (amended). When [save_date] with [use_lock=True] has acquired a
    token, it runs [release_lock] with that token from the world in which the
    steps after the lock ended, whether they returned success or
    [VERSION_CONFLICT] or raised; if the three round trips of the release go
    through, the outcome of those steps is the outcome of [save_date] (an
    exception propagates) and the lock record is left with an empty token. *)
Theorem save_date_releases (k : string) (d : day) (v : Z) (user : string) (ttl : Z)
    (w w1 : world) (tok : string) :
  acquire_lock k user ttl 5 500000 w = (Ok (Some tok), w1) ->
  snd (save_date k d v user true ttl w)
  = snd (release_lock k tok (snd (commit k d v w1)))
  /\ (quiet 3 (snd (commit k d v w1)) ->
      fst (save_date k d v user true ttl w) = fst (commit k d v w1)
      /\ stored_token k (locks (snd (save_date k d v user true ttl w))) = Some "").
Proof.
  intros E. pose proof (acquire_lock_Some _ _ _ _ _ _ _ _ E) as [Etok Hholds].
  assert (Ht : Py.truthy tok = true) by (rewrite Etok; apply next_token_truthy).
  assert (Es : save_date k d v user true ttl w
               = try_finally (commit k d v) (release_lock k tok) w1).
  { unfold save_date, bind. rewrite E. cbn [token_held andb negb]. rewrite Ht.
    reflexivity. }
  rewrite Es. unfold try_finally.
  destruct (commit k d v w1) as [r w2] eqn:Ec. cbn [fst snd].
  split.
  - destruct (release_lock k tok w2) as [[u|e] w3]; reflexivity.
  - intros Q.
    pose proof (commit_frame k d v w1) as F. rewrite Ec in F. cbn [snd] in F.
    destruct F as (Fl & _).
    destruct (release_lock_quiet k tok w2 Q) as (w3 & E3 & L3).
    { rewrite Fl. exact Hholds. }
    rewrite E3. cbn [fst snd]. split; [reflexivity|].
    rewrite L3, Fl. destruct Hholds as (r0 & Hr0 & _).
    destruct (tombstone_record k (stamp (clock w2 - timedelta_seconds 1)) _ _ Hr0)
      as (r' & Hr' & Hl & _ & H1 & _).
    unfold stored_token. rewrite Hr'.
    unfold cell in H1. destruct r' as [|a [|b t]]; cbn in *; try lia. congruence.
Qed.

End SpecLock.

Section SpecExpiry.

Context {codec : IsoCodec}.


End SpecExpiry.

Section SpecData.

Context {codec : IsoCodec}.

(** C8 (amended). For a day with the courts A and B only, whose lanes have
    distinct keys, hold every configured block, leave only configured blocks
    empty and give every occupant a creation time: [load_date] right after
    a successful [save_date] of that day returns an equal day, and the
    previous version plus 1. *)
Theorem round_trip (k : string) (d : day) (v : Z) (user : string) (use_lock : bool)
    (ttl : Z) (w w' : world) :
  calm w -> headed (resv w) -> headed (vers w) ->
  fits_day (st_blocks w) d ->
  save_date k d v user use_lock ttl w = (Ok (true, ""), w') ->
  exists d',
    load_date k w' = (Ok (d', stored_version k (vers w) + 1), w') /\ day_eq d' d.
Proof.
  intros H Hr Hv Hfit Es.
  destruct (save_date_calm k d v user use_lock ttl w H)
    as (w0 & Ew & H' & Eb & C).
  rewrite Es in *. cbn [fst snd] in *. subst w0.
  destruct C as [C | [C | C]]; try (destruct C as (C & _); discriminate C).
  destruct C as (_ & Ever & Eresv & Evers).
  rewrite (load_date_calm k w' H'), Eresv, Evers, Eb.
  rewrite key_rows_replaced by (exact Hr || apply courts_rows_keyed).
  rewrite stored_version_set by exact Hv. rewrite Ever.
  eexists. split; [reflexivity|]. apply load_saved_fits, Hfit.
Qed.

(** C9 (amended). The courts are fixed in this layer; only the block ids
    come from the session. [load_date] returns a day with exactly the courts
    A and B, each with every configured block (empty where no row fills it,
    all empty when the key has no rows); a successful [save_date] replaces
    the rows of the key by one row per occupant of the lanes A and B of the
    day, and by nothing for any other lane. *)
Theorem lanes_fixed (k : string) (w : world) :
  calm w ->
  (exists d v,
      load_date k w = (Ok (d, v), w)
      /\ map fst d = ["A"; "B"]
      /\ (forall c l b, dict_get c d = Some l -> In b (st_blocks w) ->
                        dict_get b l <> None)
      /\ (key_rows k (resv w) = [] ->
          d = [("A", empty_lane (st_blocks w)); ("B", empty_lane (st_blocks w))]
          /\ forall b, In b (st_blocks w) ->
                       dict_get b (empty_lane (st_blocks w)) = Some None))
  /\ (forall dy v user use_lock ttl w',
        save_date k dy v user use_lock ttl w = (Ok (true, ""), w') ->
        resv w'
        = other_rows k (resv w)
          ++ map (fun bs => slot_row (clock w') k "A" (fst bs) (snd bs))
                 (occupied (lane_of "A" dy))
          ++ map (fun bs => slot_row (clock w') k "B" (fst bs) (snd bs))
                 (occupied (lane_of "B" dy))).
Proof.
  intros H. split.
  - rewrite (load_date_calm k w H). eexists. eexists. split; [reflexivity|].
    pose proof (load_rows_shaped (st_blocks w) (key_rows k (resv w)) _
                  (empty_day_shaped (st_blocks w))) as [Hk Hb].
    split; [exact Hk|]. split; [exact Hb|].
    intros ->. split; [reflexivity|]. intros b Hin. apply empty_lane_get, Hin.
  - intros dy v user use_lock ttl w' Es.
    destruct (save_date_calm k dy v user use_lock ttl w H)
      as (w0 & Ew & H' & Eb & C).
    rewrite Es in *. cbn [fst snd] in *. subst w0.
    destruct C as [C | [C | C]]; try (destruct C as (C & _); discriminate C).
    destruct C as (_ & _ & Eresv & _). rewrite Eresv.
    cbn [courts_rows_at]. rewrite app_nil_r, !lane_rows_at_occupied. reflexivity.
Qed.

End SpecData.

(** * Further properties of the store *)

Lemma row_eqb_refl (r : row) : row_eqb r r = true.
Proof. induction r as [|x r IH]; cbn; [reflexivity|]. rewrite String.eqb_refl. exact IH. Qed.

Lemma starts_with_ensured (headers : row) (sh : sheet) :
  headers <> [] -> starts_with headers (ensured headers sh) = true.
Proof.
  intros Hne. unfold ensured. destruct (starts_with headers sh) eqn:E; [exact E|].
  unfold starts_with. cbn. apply row_eqb_refl.
Qed.

Section Init.

Context {codec : IsoCodec}.

Lemma ensure_ws_exact (ws : wsname) (headers : row) (w : world) :
  calm w ->
  _ensure_ws ws headers w
  = (Ok tt, set_sheet ws (ensured headers (get_sheet ws w)) w).
Proof.
  intros H. unfold _ensure_ws, bind, worksheet.
  rewrite transport_calm by exact H. cbn [fst snd].
  rewrite row_values_calm by exact H. unfold ensured, starts_with.
  change (1 - 1)%nat with 0%nat.
  destruct (row_eqb (nth 0 (get_sheet ws w) []) headers); cbn [negb].
  - rewrite set_get_sheet. reflexivity.
  - rewrite clear_calm by exact H. unfold append_row.
    rewrite append_rows_calm by (apply calm_set_sheet, H).
    rewrite get_set_sheet, set_set_sheet. reflexivity.
Qed.

Lemma init_exact (w : world) :
  calm w ->
  __init__ w
  = (Ok tt,
     mkWorld (ensured HEADERS (resv w)) (ensured VERS_HEADERS (vers w))
             (ensured LOCK_HEADERS (locks w))
             (clock w) (entropy w) (faults w) (st_blocks w)).
Proof.
  intros H. unfold __init__, bind.
  rewrite ensure_ws_exact by exact H.
  rewrite ensure_ws_exact by (apply calm_set_sheet, H).
  rewrite ensure_ws_exact by (apply calm_set_sheet, calm_set_sheet, H).
  reflexivity.
Qed.

(** X1. Without transport failure [__init__] leaves every worksheet with its
    header in row 1: a worksheet that already starts with it is kept whole,
    any other is reduced to the header alone; and running [__init__] again
    changes nothing. *)
Theorem init_headers (w : world) :
  calm w ->
  exists w1,
    __init__ w = (Ok tt, w1)
    /\ resv w1 = (if starts_with HEADERS (resv w) then resv w else [HEADERS])
    /\ vers w1 = (if starts_with VERS_HEADERS (vers w) then vers w else [VERS_HEADERS])
    /\ locks w1 = (if starts_with LOCK_HEADERS (locks w) then locks w else [LOCK_HEADERS])
    /\ starts_with HEADERS (resv w1) = true
    /\ starts_with VERS_HEADERS (vers w1) = true
    /\ starts_with LOCK_HEADERS (locks w1) = true
    /\ __init__ w1 = (Ok tt, w1).
Proof.
  intros H. rewrite (init_exact w H). eexists. split; [reflexivity|].
  cbn [resv vers locks].
  assert (H1 : starts_with HEADERS (ensured HEADERS (resv w)) = true)
    by (apply starts_with_ensured; discriminate).
  assert (H2 : starts_with VERS_HEADERS (ensured VERS_HEADERS (vers w)) = true)
    by (apply starts_with_ensured; discriminate).
  assert (H3 : starts_with LOCK_HEADERS (ensured LOCK_HEADERS (locks w)) = true)
    by (apply starts_with_ensured; discriminate).
  repeat (split; [first [reflexivity | assumption]|]).
  rewrite init_exact by exact H. cbn [resv vers locks clock entropy faults st_blocks].
  unfold ensured at 1 3 5. rewrite H1, H2, H3. reflexivity.
Qed.

End Init.

Lemma nth_set_nth_other {A : Type} (d : A) (n m : nat) (x : A) (l : list A) :
  n <> m -> (n < List.length l)%nat -> nth m (set_nth d n x l) d = nth m l d.
Proof.
  revert m l. induction n as [|n IH]; intros [|m] [|h t] Hne Hlt; cbn in *;
    try lia; try reflexivity.
  apply IH; lia.
Qed.

Lemma set_nth_set_nth {A : Type} (d : A) (n : nat) (x y : A) (l : list A) :
  set_nth d n y (set_nth d n x l) = set_nth d n y l.
Proof.
  revert l. induction n as [|n IH]; intros [|h t]; cbn; try reflexivity;
    rewrite IH; reflexivity.
Qed.

Lemma set_nth_same {A : Type} (d : A) (n : nat) (l : list A) :
  (n < List.length l)%nat -> set_nth d n (nth n l d) l = l.
Proof.
  revert l. induction n as [|n IH]; intros [|h t] Hlt; cbn in *; try lia;
    [reflexivity|]. rewrite IH by lia. reflexivity.
Qed.

(** Replacing a row by one the scan treats alike does not move the scan. *)
Lemma scan_first_set_nth_alike (p : row -> bool) (idx n : nat) (r' : row) (sh : sheet) :
  (n < List.length sh)%nat -> p r' = p (nth n sh []) ->
  scan_first p idx (set_nth [] n r' sh) = scan_first p idx sh.
Proof.
  revert idx n. induction sh as [|r rest IH]; intros idx n Hlt Hp; [cbn in Hlt; lia|].
  destruct n as [|n]; cbn in *.
  - rewrite Hp. reflexivity.
  - rewrite IH by (lia || exact Hp). reflexivity.
Qed.

Lemma scan_first_app_false (p : row -> bool) (idx : nat) (sh : sheet) (r : row) :
  p r = false -> scan_first p idx (sh ++ [r]) = scan_first p idx sh.
Proof.
  intros Hp. revert idx. induction sh as [|r0 rest IH]; intros idx; simpl.
  - rewrite Hp, andb_false_r. reflexivity.
  - rewrite IH. reflexivity.
Qed.

Lemma keyed_other (n : nat) (k k' : string) (r : row) :
  k <> k' -> keyed n k r = true -> keyed n k' r = false.
Proof.
  unfold keyed. intros Hne H. apply andb_true_iff in H. destruct H as [_ H].
  apply String.eqb_eq in H. rewrite H.
  apply andb_false_iff. right. apply String.eqb_neq, Hne.
Qed.

(** Writing the version of one key leaves the row found for another. *)
Lemma found_row_set_version_other (k k' : string) (v : Z) (sh : sheet) :
  k <> k' -> found_row 2 k' (set_version_sheet k v sh) = found_row 2 k' sh.
Proof.
  intros Hne. unfold set_version_sheet, found_row.
  destruct (scan_first (keyed 2 k) 1 sh) as [i|] eqn:E.
  - pose proof (scan_first_ge _ _ _ _ E) as [Hge Hlt].
    pose proof (scan_first_holds _ _ _ _ E) as [Hk _].
    assert (Hk' : keyed 2 k' (nth (i - 1) sh []) = false)
      by exact (keyed_other _ _ _ _ Hne Hk).
    unfold write_cell. change (2 - 1)%nat with 1%nat.
    rewrite scan_first_set_nth_alike; [|exact Hlt|].
    + destruct (scan_first (keyed 2 k') 1 sh) as [j|] eqn:Ej; [|reflexivity].
      pose proof (scan_first_holds _ _ _ _ Ej) as [Hj _].
      rewrite nth_set_nth_other; [reflexivity| |exact Hlt].
      intros Heq. rewrite <- Heq in Hj. congruence.
    + rewrite Hk'. apply (keyed_other _ k); [exact Hne|].
      apply keyed_set_nth; [exact Hk | lia | lia].
  - rewrite scan_first_app_false.
    + destruct (scan_first (keyed 2 k') 1 sh) as [j|] eqn:Ej; [|reflexivity].
      pose proof (scan_first_ge _ _ _ _ Ej) as [_ Hlt].
      rewrite app_nth1 by exact Hlt. reflexivity.
    + apply (keyed_other _ k); [exact Hne|].
      unfold keyed, cell. cbn. apply String.eqb_refl.
Qed.

Lemma stored_version_set_other (k k' : string) (v : Z) (sh : sheet) :
  k <> k' -> stored_version k' (set_version_sheet k v sh) = stored_version k' sh.
Proof.
  intros Hne. unfold stored_version.
  rewrite found_row_set_version_other by exact Hne. reflexivity.
Qed.

Lemma set_version_sheet_twice (k : string) (v : Z) (sh : sheet) :
  headed sh ->
  set_version_sheet k v (set_version_sheet k v sh) = set_version_sheet k v sh.
Proof.
  intros Hh.
  destruct (scan_first (keyed 2 k) 1 sh) as [i|] eqn:E.
  - assert (Es : set_version_sheet k v sh = write_cell i 2 (Py.str v) sh)
      by (unfold set_version_sheet; rewrite E; reflexivity).
    rewrite Es. unfold set_version_sheet.
    rewrite (scan_first_write_cell 2 2 k _ sh i E) by lia.
    unfold write_cell. rewrite nth_set_nth, !set_nth_set_nth. reflexivity.
  - assert (Es : set_version_sheet k v sh = sh ++ [[k; Py.str v]])
      by (unfold set_version_sheet; rewrite E; reflexivity).
    rewrite Es. unfold set_version_sheet.
    assert (Hk : keyed 2 k [k; Py.str v] = true).
    { unfold keyed, cell. cbn. apply String.eqb_refl. }
    assert (Hs : scan_first (keyed 2 k) 1 (sh ++ [[k; Py.str v]])
                 = Some (1 + List.length sh)%nat).
    { apply (scan_first_app_none _ _ _ _ E Hk).
      destruct sh; [contradiction Hh; reflexivity | cbn; lia]. }
    unfold row in *. rewrite Hs. unfold write_cell.
    cbn [Nat.add Nat.sub]. rewrite Nat.sub_0_r.
    rewrite nth_app_last. cbn [set_nth Nat.sub].
    rewrite <- (nth_app_last sh [k; Py.str v] []) at 1.
    apply set_nth_same. rewrite length_app. unfold row, sheet in *.
    cbn [List.length]. lia.
Qed.

Section Versions.

Context {codec : IsoCodec}.

(** X2. On a versions table with its header, [_get_version] right after
    [_set_version(key, v)] returns [v], and what it returns for any other
    key is what it returned before. *)
Theorem set_get_version (k : string) (v : Z) (w : world) :
  calm w -> headed (vers w) ->
  exists w1,
    _set_version k v w = (Ok tt, w1)
    /\ _get_version k w1 = (Ok v, w1)
    /\ resv w1 = resv w /\ locks w1 = locks w
    /\ forall k', k' <> k -> fst (_get_version k' w1) = fst (_get_version k' w).
Proof.
  intros H Hh. rewrite (set_version_calm k v w H). eexists. split; [reflexivity|].
  assert (H1 : calm (set_sheet WsVers (set_version_sheet k v (vers w)) w))
    by (apply calm_set_sheet, H).
  split; [|split; [reflexivity|split; [reflexivity|]]].
  - rewrite get_version_calm by exact H1. cbn [vers set_sheet].
    rewrite stored_version_set by exact Hh. reflexivity.
  - intros k' Hne. rewrite !get_version_calm by assumption.
    cbn [fst vers set_sheet].
    rewrite stored_version_set_other by congruence. reflexivity.
Qed.

(** X3. [_set_version] is idempotent: on a versions table with its header,
    writing the same version for the same key a second time changes
    nothing. *)
Theorem set_version_idempotent (k : string) (v : Z) (w : world) :
  calm w -> headed (vers w) ->
  exists w1,
    _set_version k v w = (Ok tt, w1) /\ _set_version k v w1 = (Ok tt, w1).
Proof.
  intros H Hh. rewrite (set_version_calm k v w H). eexists. split; [reflexivity|].
  rewrite set_version_calm by (apply calm_set_sheet, H).
  cbn [vers set_sheet]. rewrite set_version_sheet_twice by exact Hh. reflexivity.
Qed.

End Versions.

Lemma scan_all_in (p : row -> bool) (idx : nat) (sh : sheet) (i : nat) :
  In i (scan_all p idx sh)
  <-> (idx <= i)%nat /\ i <> 1%nat
      /\ exists r, nth_error sh (i - idx) = Some r /\ p r = true.
Proof.
  revert idx. induction sh as [|r rest IH]; intros idx; cbn [scan_all].
  - split; [contradiction|]. intros (_ & _ & r & Hr & _).
    destruct (i - idx)%nat; discriminate.
  - assert (Hrest : In i (scan_all p (S idx) rest)
                    <-> (idx < i)%nat /\ i <> 1%nat
                        /\ exists r0, nth_error (r :: rest) (i - idx) = Some r0
                                      /\ p r0 = true).
    { rewrite IH. split.
      - intros (Hge & Hne & r0 & Hr0 & Hp). split; [lia|]. split; [exact Hne|].
        exists r0. replace (i - idx)%nat with (S (i - S idx)) by lia. auto.
      - intros (Hlt & Hne & r0 & Hr0 & Hp). split; [lia|]. split; [exact Hne|].
        exists r0. replace (i - idx)%nat with (S (i - S idx)) in Hr0 by lia. auto. }
    destruct (negb (idx =? 1)%nat && p r) eqn:E.
    + cbn [In]. rewrite Hrest. apply andb_true_iff in E. destruct E as [E1 E2].
      apply negb_true_iff, Nat.eqb_neq in E1. split.
      * intros [<- | (Hlt & Hne & Hr)].
        -- split; [lia|]. split; [exact E1|]. exists r.
           rewrite Nat.sub_diag. auto.
        -- split; [lia|]. auto.
      * intros (Hge & Hne & r0 & Hr0 & Hp).
        destruct (Nat.eq_dec idx i) as [->|Hd]; [left; reflexivity|].
        right. split; [lia|]. split; [exact Hne|]. exists r0. auto.
    + rewrite Hrest. split.
      * intros (Hlt & Hne & Hr). split; [lia|]. auto.
      * intros (Hge & Hne & r0 & Hr0 & Hp).
        destruct (Nat.eq_dec idx i) as [->|Hd].
        -- rewrite Nat.sub_diag in Hr0. cbn in Hr0. injection Hr0 as <-.
           rewrite Hp, andb_true_r in E. apply negb_false_iff, Nat.eqb_eq in E.
           congruence.
        -- split; [lia|]. split; [exact Hne|]. exists r0. auto.
Qed.

Lemma scan_all_increasing (p : row -> bool) (idx : nat) (sh : sheet) :
  increasing (scan_all p idx sh).
Proof.
  revert idx. induction sh as [|r rest IH]; intros idx; cbn [scan_all]; [exact I|].
  destruct (negb (idx =? 1)%nat && p r); [|apply IH].
  cbn [increasing]. split; [|apply IH].
  destruct (scan_all p (S idx) rest) as [|y t] eqn:E; [exact I|].
  assert (Hin : In y (scan_all p (S idx) rest)) by (rewrite E; left; reflexivity).
  apply scan_all_ge in Hin. lia.
Qed.

Lemma keyed_one (k : string) (r : row) :
  keyed 1 k r = true <-> exists rest, r = k :: rest.
Proof.
  unfold keyed, cell. destruct r as [|c rest]; cbn.
  - split; [discriminate | intros [? ?]; discriminate].
  - rewrite String.eqb_eq. split.
    + intros ->. eauto.
    + intros [rest' [= -> _]]. reflexivity.
Qed.

Section Rows.

Context {codec : IsoCodec}.

(** X4. [_find_rows_for_date] returns, in increasing order, exactly the
    numbers of the rows from row 2 on whose first cell is the key; row 1 is
    never among them. *)
Theorem find_rows_exact (ws : wsname) (k : string) (w : world) :
  calm w ->
  exists idxs,
    _find_rows_for_date ws k w = (Ok idxs, w)
    /\ increasing idxs
    /\ forall i, In i idxs
                 <-> (2 <= i)%nat
                     /\ exists rest, nth_error (get_sheet ws w) (i - 1) = Some (k :: rest).
Proof.
  intros H. rewrite (find_rows_calm ws k w H). eexists. split; [reflexivity|].
  split; [apply scan_all_increasing|].
  intros i. rewrite scan_all_in. split.
  - intros (Hge & Hne & r & Hr & Hk). split; [lia|].
    apply keyed_one in Hk. destruct Hk as [rest ->]. eauto.
  - intros (Hge & rest & Hr). split; [lia|]. split; [lia|].
    exists (k :: rest). split; [exact Hr|]. apply keyed_one. eauto.
Qed.

End Rows.

Lemma bind_cases {A B : Type} (m : M A) (k : A -> M B) (w w' : world) (r : outcome B) :
  bind m k w = (r, w') ->
  (exists e, m w = (Raised e, w') /\ r = Raised e)
  \/ (exists a w1, m w = (Ok a, w1) /\ k a w1 = (r, w')).
Proof.
  unfold bind. destruct (m w) as [[a|e] w1].
  - intros H. right. exists a, w1. auto.
  - intros [= <- <-]. left. exists e. auto.
Qed.

Lemma transport_cases {A : Type} (op : world -> A * world) (w w' : world) (r : outcome A) :
  transport op w = (r, w') ->
  (r = Raised TransportError /\ w' = tick w)
  \/ (r = Ok (fst (op (tick w))) /\ w' = snd (op (tick w))).
Proof.
  unfold transport, raise. destruct (hd false (faults w)).
  - intros [= <- <-]. left. auto.
  - destruct (op (tick w)) as [a w1]. intros [= <- <-]. right. auto.
Qed.

Section Untouched.

Context {codec : IsoCodec}.

(** X5. [load_date] only reads: whatever the transport does, the three
    worksheets, the clock, the random source and the session are as before
    the call. *)
Theorem load_date_reads_only (k : string) (w : world) :
  resv (snd (load_date k w)) = resv w
  /\ vers (snd (load_date k w)) = vers w
  /\ locks (snd (load_date k w)) = locks w
  /\ clock (snd (load_date k w)) = clock w
  /\ entropy (snd (load_date k w)) = entropy w
  /\ st_blocks (snd (load_date k w)) = st_blocks w.
Proof.
  repeat split.
  - apply (frame_load_date (same resv)); frame_side.
  - apply (frame_load_date (same vers)); frame_side.
  - apply (frame_load_date (same locks)); frame_side.
  - apply (frame_load_date (same clock)); frame_side.
  - apply (frame_load_date (same entropy)); frame_side.
  - apply (frame_load_date (same st_blocks)); frame_side.
Qed.

(** X6. The lock operations stay in the locks worksheet: whatever the
    transport does and however they end, [acquire_lock] and [release_lock]
    leave the reservations and the versions untouched, and [release_lock]
    neither waits nor draws a token. *)
Theorem lock_operations_leave_data (k user token : string)
    (ttl max_retry backoff : Z) (w : world) :
  (resv (snd (acquire_lock k user ttl max_retry backoff w)) = resv w
   /\ vers (snd (acquire_lock k user ttl max_retry backoff w)) = vers w)
  /\ (resv (snd (release_lock k token w)) = resv w
      /\ vers (snd (release_lock k token w)) = vers w
      /\ clock (snd (release_lock k token w)) = clock w
      /\ entropy (snd (release_lock k token w)) = entropy w).
Proof.
  split; [split | repeat split].
  - apply (frame_acquire_lock (same resv)); frame_side.
  - apply (frame_acquire_lock (same vers)); frame_side.
  - apply (frame_release_lock (same resv)); frame_side.
  - apply (frame_release_lock (same vers)); frame_side.
  - apply (frame_release_lock (same clock)); frame_side.
  - apply (frame_release_lock (same entropy)); frame_side.
Qed.

Lemma save_date_unlocked (k : string) (d : day) (v : Z) (user : string) (ttl : Z)
    (w : world) :
  save_date k d v user false ttl w = commit k d v w.
Proof.
  unfold save_date, bind, ret, try_finally. cbn [andb].
  destruct (commit k d v w) as [r w1]. reflexivity.
Qed.

(** X7. [save_date] with [use_lock=False] does not use the lock at all:
    whatever the transport does, the locks worksheet, the clock and the
    random source are as before the call. *)
Theorem save_date_unlocked_leaves_locks (k : string) (d : day) (v : Z) (user : string)
    (ttl : Z) (w : world) :
  locks (snd (save_date k d v user false ttl w)) = locks w
  /\ clock (snd (save_date k d v user false ttl w)) = clock w
  /\ entropy (snd (save_date k d v user false ttl w)) = entropy w.
Proof.
  rewrite save_date_unlocked. repeat split.
  - apply (frame_commit (same locks)); frame_side.
  - apply (frame_commit (same clock)); frame_side.
  - apply (frame_commit (same entropy)); frame_side.
Qed.

End Untouched.

Section Verdicts.

Context {codec : IsoCodec}.

Lemma set_version_raised (k : string) (v : Z) (w w' : world) (e : exn) :
  _set_version k v w = (Raised e, w') -> vers w' = vers w.
Proof.
  intros H. apply bind_cases in H. destruct H as [(e' & H & _) | (vals & w1 & H & Hw)].
  - pose proof (frame_get_all_values (same vers) ltac:(frame_side) ltac:(frame_side)
                  ltac:(frame_side) WsVers w) as F.
    unfold _read_all in H. rewrite H in F. exact F.
  - pose proof (frame_get_all_values (same vers) ltac:(frame_side) ltac:(frame_side)
                  ltac:(frame_side) WsVers w) as F.
    unfold _read_all in H. rewrite H in F. cbn in F. unfold same in F.
    destruct (scan_first (keyed 2 k) 1 vals);
      [unfold update_cell in Hw | unfold append_row, append_rows in Hw];
      apply transport_cases in Hw;
      destruct Hw as [[_ ->] | [Hr _]]; try discriminate Hr; exact F.
Qed.

(** The part of [save_date] after the lock either returns [(True, "")], or
    has not written the versions; a verdict other than success is
    [VERSION_CONFLICT], given before anything was written. *)
Lemma commit_verdict (k : string) (d : day) (v : Z) (w w' : world)
    (r : outcome (bool * string)) :
  commit k d v w = (r, w') ->
  r = Ok (true, "")
  \/ (vers w' = vers w
      /\ forall ok reason, r = Ok (ok, reason) ->
           ok = false /\ reason = "VERSION_CONFLICT" /\ resv w' = resv w).
Proof.
  intros H. unfold commit in H.
  assert (Hno : forall (e : exn) ok reason,
            @Raised (bool * string) e = Ok (ok, reason) ->
            ok = false /\ reason = "VERSION_CONFLICT" /\ resv w' = resv w)
    by (intros; discriminate).
  apply bind_cases in H. destruct H as [(e & H & ->) | (cur & w1 & H & Hk)].
  { right. split; [|apply Hno].
    pose proof (frame_get_version (same vers) ltac:(frame_side) ltac:(frame_side)
                  ltac:(frame_side) k w) as F. rewrite H in F. exact F. }
  assert (F1 : vers w1 = vers w /\ resv w1 = resv w).
  { pose proof (frame_get_version (same vers) ltac:(frame_side) ltac:(frame_side)
                  ltac:(frame_side) k w) as Fv.
    pose proof (frame_get_version (same resv) ltac:(frame_side) ltac:(frame_side)
                  ltac:(frame_side) k w) as Fr.
    rewrite H in Fv, Fr. split; [exact Fv | exact Fr]. }
  destruct F1 as [Fv1 Fr1].
  destruct (negb (cur =? v)).
  { injection Hk as <- <-. right. split; [exact Fv1|].
    intros ok reason [= <- <-]. auto. }
  apply bind_cases in Hk. destruct Hk as [(e & H2 & ->) | (idxs & w2 & H2 & Hk)].
  { right. split; [|apply Hno].
    pose proof (frame_find_rows (same vers) ltac:(frame_side) ltac:(frame_side)
                  ltac:(frame_side) WsResv k w1) as F. rewrite H2 in F.
    unfold same in F. cbn in F. congruence. }
  assert (Fv2 : vers w2 = vers w).
  { pose proof (frame_find_rows (same vers) ltac:(frame_side) ltac:(frame_side)
                  ltac:(frame_side) WsResv k w1) as F. rewrite H2 in F.
    unfold same in F. cbn in F. congruence. }
  apply bind_cases in Hk. destruct Hk as [(e & H3 & ->) | (u3 & w3 & H3 & Hk)].
  { right. split; [|apply Hno].
    pose proof (frame_delete_each (same vers) ltac:(frame_side) ltac:(frame_side)
                  ltac:(frame_side) ltac:(frame_side) (sorted_desc idxs) w2) as F.
    rewrite H3 in F. unfold same in F. cbn in F. congruence. }
  assert (Fv3 : vers w3 = vers w).
  { pose proof (frame_delete_each (same vers) ltac:(frame_side) ltac:(frame_side)
                  ltac:(frame_side) ltac:(frame_side) (sorted_desc idxs) w2) as F.
    rewrite H3 in F. unfold same in F. cbn in F. congruence. }
  unfold bind at 1 in Hk. rewrite courts_rows_run in Hk.
  apply bind_cases in Hk. destruct Hk as [(e & H4 & ->) | (u4 & w4 & H4 & Hk)].
  { right. split; [|apply Hno].
    destruct (courts_rows_at (clock w3) k ["A"; "B"] d).
    - discriminate H4.
    - unfold append_rows in H4. apply transport_cases in H4.
      destruct H4 as [[_ ->] | [Hr _]]; [exact Fv3 | discriminate Hr]. }
  assert (Fv4 : vers w4 = vers w).
  { destruct (courts_rows_at (clock w3) k ["A"; "B"] d).
    - injection H4 as _ <-. exact Fv3.
    - unfold append_rows in H4. apply transport_cases in H4.
      destruct H4 as [[Hr _] | [_ ->]]; [discriminate Hr | exact Fv3]. }
  apply bind_cases in Hk. destruct Hk as [(e & H5 & ->) | (u5 & w5 & H5 & Hk)].
  { right. split; [|apply Hno]. apply set_version_raised in H5. congruence. }
  injection Hk as <- _. left. reflexivity.
Qed.

(** The verdicts of [save_date], whatever the transport does. *)
Lemma save_date_verdict (k : string) (d : day) (v : Z) (user : string)
    (use_lock : bool) (ttl : Z) (w w' : world) (ok : bool) (reason : string) :
  save_date k d v user use_lock ttl w = (Ok (ok, reason), w') ->
  (ok = true /\ reason = "")
  \/ (ok = false /\ (reason = "LOCK_FAIL" \/ reason = "VERSION_CONFLICT")
      /\ resv w' = resv w /\ vers w' = vers w).
Proof.
  intros H. unfold save_date in H.
  apply bind_Ok in H. destruct H as (token & w1 & Hl & H).
  assert (F1 : resv w1 = resv w /\ vers w1 = vers w).
  { destruct use_lock.
    - pose proof (acquire_lock_frame k user ttl 5 500000 w) as F.
      rewrite Hl in F. cbn in F. split; apply F.
    - injection Hl as _ <-. auto. }
  unfold try_finally in H.
  match type of H with
  | (let (_, _) := ?body w1 in _) = _ =>
      destruct (body w1) as [r w2] eqn:Eb
  end.
  match type of H with
  | (let (_, _) := ?fin w2 in _) = _ =>
      destruct (fin w2) as [[u|e] w3] eqn:Ef; [|discriminate H]
  end.
  injection H as -> ->.
  assert (F3 : resv w' = resv w2 /\ vers w' = vers w2).
  { destruct token as [t|]; [destruct (use_lock && Py.truthy t)|].
    - pose proof (release_lock_frame k t w2) as F. rewrite Ef in F. cbn in F.
      split; apply F.
    - injection Ef as _ <-. auto.
    - injection Ef as _ <-. auto. }
  destruct (use_lock && negb (token_held token)).
  - injection Eb as <- <- <-. right. split; [reflexivity|]. split; [left; reflexivity|].
    destruct F1, F3. split; congruence.
  - apply commit_verdict in Eb. destruct Eb as [Eb | [Hv Hverdict]].
    + injection Eb as -> ->. left. split; reflexivity.
    + destruct (Hverdict ok reason eq_refl) as (-> & -> & Hr).
      right. split; [reflexivity|]. split; [right; reflexivity|].
      destruct F1, F3. split; congruence.
Qed.

(** X8. Whatever the transport does, when [save_date] returns a verdict
    other than success, the reason is [LOCK_FAIL] or [VERSION_CONFLICT] and
    neither the reservations nor the versions were written. *)
Theorem failure_verdict_wrote_nothing (k : string) (d : day) (v : Z) (user : string)
    (use_lock : bool) (ttl : Z) (w w' : world) (reason : string) :
  save_date k d v user use_lock ttl w = (Ok (false, reason), w') ->
  (reason = "LOCK_FAIL" \/ reason = "VERSION_CONFLICT")
  /\ resv w' = resv w /\ vers w' = vers w.
Proof.
  intros H. apply save_date_verdict in H.
  destruct H as [[H _] | (_ & Hr & Hw)]; [discriminate H|].
  split; assumption.
Qed.

(** X9. Whatever the transport does, [save_date] with [use_lock=False] that
    does not return [(True, "")], be it a conflict or an exception, has not
    written the versions worksheet. *)
Theorem unlocked_version_kept (k : string) (d : day) (v : Z) (user : string)
    (ttl : Z) (w : world) :
  fst (save_date k d v user false ttl w) <> Ok (true, "") ->
  vers (snd (save_date k d v user false ttl w)) = vers w.
Proof.
  rewrite save_date_unlocked. intros Hne.
  destruct (commit k d v w) as [r w'] eqn:E. cbn [fst snd] in *.
  apply commit_verdict in E. destruct E as [E | [E _]]; [contradiction | exact E].
Qed.

End Verdicts.

Lemma filter_implied (p q : row -> bool) (l : list row) :
  (forall r, p r = true -> q r = true) -> filter p (filter q l) = filter p l.
Proof.
  intros Hpq. induction l as [|x t IH]; cbn; [reflexivity|].
  destruct (q x) eqn:Eq; cbn.
  - rewrite IH. reflexivity.
  - destruct (p x) eqn:Ep; [|exact IH]. rewrite (Hpq _ Ep) in Eq. discriminate.
Qed.

Lemma filter_other_key (k k' : string) (l : list row) :
  k <> k' -> forallb (keyed 1 k) l = true -> filter (keyed 1 k') l = [].
Proof.
  intros Hne. induction l as [|x t IH]; cbn; [reflexivity|].
  intros H. apply andb_true_iff in H. destruct H as [Hx Ht].
  rewrite (keyed_other _ _ _ _ Hne Hx). apply IH, Ht.
Qed.

(** Replacing the rows of one key leaves the rows of another, in order. *)
Lemma key_rows_other (k k' : string) (sh : sheet) (rows : list row) :
  k <> k' -> forallb (keyed 1 k) rows = true ->
  key_rows k' (other_rows k sh ++ rows) = key_rows k' sh.
Proof.
  intros Hne Hrows. destruct sh as [|h rest].
  - cbn [other_rows List.app key_rows]. destruct rows as [|r0 rows]; [reflexivity|].
    cbn [forallb] in Hrows. apply andb_true_iff in Hrows. destruct Hrows as [_ Hrows].
    apply (filter_other_key k); assumption.
  - cbn [other_rows List.app key_rows].
    rewrite filter_app, (filter_other_key k k' rows Hne Hrows), app_nil_r.
    apply filter_implied. intros r Hr.
    destruct (keyed 1 k r) eqn:E; [|reflexivity].
    rewrite (keyed_other _ _ _ _ Hne E) in Hr. discriminate.
Qed.

Lemma shaped_courts (blocks : list string) (d : day) (c : string) :
  shaped blocks d -> c = "A" \/ c = "B" -> exists l, dict_get c d = Some l.
Proof.
  intros [Hk _] Hc. destruct d as [|[c1 l1] [|[c2 l2] [|x t]]]; try discriminate Hk.
  cbn in Hk. injection Hk as -> ->. destruct Hc as [-> | ->]; cbn; eauto.
Qed.

Section Load.

Context {codec : IsoCodec}.

Lemma load_step_lookup (blocks : list string) (d : day) (r : row) (c b : string) :
  shaped blocks d -> c = "A" \/ c = "B" ->
  dict_get b (lane_of c (load_step d r))
  = if names c b r then Some (Some (slot_of_row r)) else dict_get b (lane_of c d).
Proof.
  intros Hs Hc. unfold load_step, names.
  destruct (6 <=? List.length r)%nat; [|reflexivity]. cbn [andb].
  destruct (String.eqb (cell 1 r) "A" || String.eqb (cell 1 r) "B") eqn:Ec.
  - assert (Hcourt : cell 1 r = "A" \/ cell 1 r = "B").
    { apply orb_true_iff in Ec. destruct Ec as [E | E]; apply String.eqb_eq in E; auto. }
    destruct (shaped_courts blocks d (cell 1 r) Hs Hcourt) as [l Hl].
    unfold day_assign. rewrite Hl. unfold lane_of.
    destruct (String.eqb (cell 1 r) c) eqn:E1; cbn [andb].
    + apply String.eqb_eq in E1. subst c. rewrite dict_get_set_eq, Hl.
      destruct (String.eqb (cell 2 r) b) eqn:E2.
      * apply String.eqb_eq in E2. subst b. apply dict_get_set_eq.
      * apply String.eqb_neq in E2. apply dict_get_set_neq. congruence.
    + apply String.eqb_neq in E1. rewrite dict_get_set_neq by congruence. reflexivity.
  - destruct (String.eqb (cell 1 r) c) eqn:E1; [|reflexivity].
    apply String.eqb_eq in E1. subst c. apply orb_false_iff in Ec.
    destruct Ec as [EA EB]. apply String.eqb_neq in EA, EB.
    destruct Hc; congruence.
Qed.

Lemma load_fold_lookup (blocks : list string) (rows : list row) (d : day) (c b : string) :
  shaped blocks d -> c = "A" \/ c = "B" ->
  dict_get b (lane_of c (fold_left load_step rows d))
  = match last_named c b rows with
    | Some r => Some (Some (slot_of_row r))
    | None => dict_get b (lane_of c d)
    end.
Proof.
  intros Hs Hc. induction rows as [|r rows IH] using rev_ind; [reflexivity|].
  rewrite fold_left_app. cbn [fold_left]. unfold last_named.
  rewrite rev_app_distr. cbn [List.rev List.app find].
  rewrite (load_step_lookup blocks) by (apply load_rows_shaped, Hs || exact Hc).
  destruct (names c b r); [reflexivity | exact IH].
Qed.

(** X10. What [load_date] returns for a court A or B and a block is the
    occupant of the last row of the key, from row 2 on, that has six cells
    or more and names that court and block; without such a row it is [None]
    under a configured block and no entry at all otherwise. Rows with fewer
    cells never count. *)
Theorem load_date_last_row (k c b : string) (w : world) :
  calm w -> c = "A" \/ c = "B" ->
  exists d,
    load_date k w = (Ok (d, stored_version k (vers w)), w)
    /\ dict_get b (lane_of c d)
       = match last_named c b (key_rows k (resv w)) with
         | Some r => Some (Some (slot_of_row r))
         | None => if existsb (String.eqb b) (st_blocks w) then Some None else None
         end.
Proof.
  intros H Hc. rewrite (load_date_calm k w H). eexists. split; [reflexivity|].
  rewrite (load_fold_lookup (st_blocks w)) by (apply empty_day_shaped || exact Hc).
  destruct (last_named c b (key_rows k (resv w))); [reflexivity|].
  assert (El : lane_of c [("A", empty_lane (st_blocks w)); ("B", empty_lane (st_blocks w))]
               = empty_lane (st_blocks w)).
  { destruct Hc as [-> | ->]; reflexivity. }
  rewrite El. unfold empty_lane. apply empty_lane_get_gen.
Qed.

(** X11. A commit on one key does not show under another: however
    [save_date] on [k] ends when the transport holds, [load_date] on any
    other key returns what it returned before. *)
Theorem other_keys_untouched (k k' : string) (d : day) (v : Z) (user : string)
    (use_lock : bool) (ttl : Z) (w : world) :
  calm w -> k' <> k ->
  fst (load_date k' (snd (save_date k d v user use_lock ttl w)))
  = fst (load_date k' w).
Proof.
  intros H Hne.
  destruct (save_date_calm k d v user use_lock ttl w H)
    as (w' & -> & H' & Eb & C).
  rewrite (load_date_calm k' w' H'), (load_date_calm k' w H). cbn [fst]. rewrite Eb.
  destruct C as [(_ & _ & -> & ->) | [(_ & _ & -> & ->) | (_ & _ & -> & ->)]];
    try reflexivity.
  rewrite key_rows_other by (congruence || apply courts_rows_keyed).
  rewrite stored_version_set_other by congruence. reflexivity.
Qed.

End Load.






Section LockCycle.

Context {codec : IsoCodec}.

Lemma vacant_not_blocked (k token : string) (now : datetime) (sh : sheet) :
  vacant k sh -> blocked k token now sh = false.
Proof.
  unfold vacant, blocked. destruct (lock_record k sh) as [r|]; [|reflexivity].
  intros Hv. unfold held_by_other. rewrite Hv. reflexivity.
Qed.


(** An unblocked first attempt: the token is returned at once. *)
Lemma acquire_lock_first_attempt (k user : string) (ttl max_retry backoff : Z)
    (w : world) :
  calm w -> headed (locks w) -> 0 < max_retry ->
  blocked k (next_token w) (clock w) (locks w) = false ->
  acquire_lock k user ttl max_retry backoff w
  = (Ok (Some (next_token w)),
     set_sheet WsLock
       (grab k (next_token w) user (stamp (clock w + timedelta_seconds ttl)) (locks w))
       (drawn w)).
Proof.
  intros H Hh Hm Hb. unfold acquire_lock, bind. rewrite uuid4_run.
  destruct (drawn_same w) as (El & Ec & _ & _ & Hc).
  destruct (Z.to_nat max_retry) as [|n] eqn:En; [lia|].
  rewrite attempt_free; [rewrite El, Ec; reflexivity | exact (Hc H) | |];
    rewrite ?El, ?Ec; assumption.
Qed.




End LockCycle.

(** * The day in memory: [ensure_day], [book_block], [cancel_block] *)

(** The aliases of the dictionary types, unfolded wherever they stand. *)
Ltac plain_dicts := unfold day in *; unfold lane in *; unfold dict in *.

Section Defaults.

Context {V : Type}.

Lemma dict_setdefault_get (k k' : string) (v : V) (d : dict V) :
  dict_get k (dict_setdefault k' v d)
  = match dict_get k d with
    | Some x => Some x
    | None => if String.eqb k k' then Some v else None
    end.
Proof.
  unfold dict_setdefault. destruct (dict_get k' d) eqn:E.
  - destruct (dict_get k d) eqn:E2; [reflexivity|].
    destruct (String.eqb_spec k k'); [congruence|reflexivity].
  - destruct (String.eqb_spec k k') as [->|Hne].
    + rewrite dict_get_set_eq, E. reflexivity.
    + rewrite dict_get_set_neq by assumption. destruct (dict_get k d); reflexivity.
Qed.

Lemma dict_setdefault_present (k : string) (v : V) (d : dict V) :
  dict_get k d <> None -> dict_setdefault k v d = d.
Proof.
  unfold dict_setdefault. destruct (dict_get k d); [reflexivity|congruence].
Qed.

Lemma dict_set_keys_in (x k : string) (v : V) (d : dict V) :
  In x (map fst (dict_set k v d)) -> x = k \/ In x (map fst d).
Proof.
  induction d as [|[k' v'] t IH]; cbn.
  - intros [H|[]]. left. congruence.
  - destruct (String.eqb_spec k' k) as [->|Hne]; cbn.
    + intros [H|H]; auto.
    + intros [H|H]; auto. destruct (IH H); auto.
Qed.

Lemma dict_set_nodup (k : string) (v : V) (d : dict V) :
  NoDup (map fst d) -> NoDup (map fst (dict_set k v d)).
Proof.
  induction d as [|[k' v'] t IH]; cbn; intros H.
  - constructor; [intros []|constructor].
  - inversion H as [|? ? Hn Ht]; subst.
    destruct (String.eqb_spec k' k) as [->|Hne]; cbn.
    + constructor; assumption.
    + constructor; [|auto]. intros Hin.
      apply dict_set_keys_in in Hin. destruct Hin as [->|Hin]; [congruence|auto].
Qed.

Lemma dict_setdefault_nodup (k : string) (v : V) (d : dict V) :
  NoDup (map fst d) -> NoDup (map fst (dict_setdefault k v d)).
Proof.
  unfold dict_setdefault. destruct (dict_get k d); [auto|apply dict_set_nodup].
Qed.

Lemma dict_get_key (k : string) (v : V) (d : dict V) :
  dict_get k d = Some v -> In k (map fst d).
Proof.
  intros H. apply dict_get_in in H. apply (in_map fst) in H. exact H.
Qed.

End Defaults.

Lemma in_existsb (b : string) (l : list string) :
  In b l -> existsb (String.eqb b) l = true.
Proof.
  intros H. apply existsb_exists. exists b. split; [assumption|apply String.eqb_refl].
Qed.

Lemma setdefaults_get (b : string) (blocks : list string) (l : lane) :
  dict_get b (fold_left (fun l x => dict_setdefault x None l) blocks l)
  = match dict_get b l with
    | Some x => Some x
    | None => if existsb (String.eqb b) blocks then Some None else None
    end.
Proof.
  revert l. induction blocks as [|x rest IH]; intros l; cbn [fold_left existsb].
  - destruct (dict_get b l); reflexivity.
  - rewrite IH, dict_setdefault_get.
    destruct (dict_get b l); [reflexivity|].
    destruct (String.eqb b x); reflexivity.
Qed.

Lemma setdefaults_fixed (blocks : list string) (l : lane) :
  (forall b, In b blocks -> dict_get b l <> None) ->
  fold_left (fun l x => dict_setdefault x None l) blocks l = l.
Proof.
  induction blocks as [|x rest IH]; intros H; cbn [fold_left]; [reflexivity|].
  rewrite dict_setdefault_present by (apply H; left; reflexivity).
  apply IH. intros b Hb. apply H. right. exact Hb.
Qed.

Lemma setdefaults_nodup (blocks : list string) (l : lane) :
  NoDup (map fst l) ->
  NoDup (map fst (fold_left (fun l x => dict_setdefault x None l) blocks l)).
Proof.
  revert l. induction blocks as [|x rest IH]; intros l H; cbn [fold_left]; [exact H|].
  apply IH. apply dict_setdefault_nodup. exact H.
Qed.

Lemma ensure_court_get (c c' : string) (d : day) :
  dict_get c' (ensure_court c d)
  = if String.eqb c' c then Some (ensure_lane (lane_of c d)) else dict_get c' d.
Proof.
  unfold ensure_court.
  assert (E : dict_get c (dict_setdefault c [] d) = Some (lane_of c d)).
  { rewrite dict_setdefault_get. unfold lane_of. plain_dicts.
    rewrite String.eqb_refl. destruct (dict_get c d); reflexivity. }
  cbv zeta. plain_dicts. rewrite E.
  destruct (String.eqb_spec c' c) as [->|Hne].
  - apply dict_get_set_eq.
  - rewrite dict_get_set_neq by assumption. rewrite dict_setdefault_get.
    destruct (dict_get c' d); [reflexivity|].
    destruct (String.eqb_spec c' c); [contradiction|reflexivity].
Qed.

Lemma ensure_day_get (c : string) (d : day) :
  dict_get c (ensure_day d)
  = if String.eqb c "A" || String.eqb c "B"
    then Some (ensure_lane (lane_of c d))
    else dict_get c d.
Proof.
  unfold ensure_day. cbn [fold_left].
  rewrite ensure_court_get.
  destruct (String.eqb_spec c "B") as [->|HB].
  - cbn. f_equal. f_equal. unfold lane_of. rewrite ensure_court_get. cbn.
    destruct d; reflexivity.
  - rewrite ensure_court_get. rewrite Bool.orb_false_r.
    destruct (String.eqb_spec c "A") as [->|HA].
    + f_equal. f_equal. destruct d; reflexivity.
    + destruct d; [|reflexivity]. cbn [dict_get].
      apply String.eqb_neq in HA, HB.
      rewrite (String.eqb_sym "A" c), (String.eqb_sym "B" c), HA, HB. reflexivity.
Qed.

Lemma ensure_day_lookup (c b : string) (d : day) :
  dict_get b (lane_of c (ensure_day d))
  = match dict_get b (lane_of c d) with
    | Some x => Some x
    | None =>
        if (String.eqb c "A" || String.eqb c "B") && existsb (String.eqb b) BLOCKS
        then Some None else None
    end.
Proof.
  unfold lane_of at 1. rewrite ensure_day_get.
  destruct (String.eqb c "A" || String.eqb c "B").
  - unfold ensure_lane. rewrite setdefaults_get. reflexivity.
  - cbn. fold (lane_of c d). destruct (dict_get b (lane_of c d)); reflexivity.
Qed.

Lemma ensure_day_complete (d : day) : complete (ensure_day d).
Proof.
  intros c Hc. rewrite ensure_day_get.
  assert (E : String.eqb c "A" || String.eqb c "B" = true)
    by (destruct Hc as [->| ->]; reflexivity).
  rewrite E. eexists. split; [reflexivity|].
  intros b Hb. unfold ensure_lane. rewrite setdefaults_get.
  rewrite (in_existsb b BLOCKS Hb). destruct (dict_get b (lane_of c d)); discriminate.
Qed.

Lemma ensure_court_fixed (c : string) (d : day) (l : lane) :
  dict_get c d = Some l -> (forall b, In b BLOCKS -> dict_get b l <> None) ->
  ensure_court c d = d.
Proof.
  intros Hl Hb. unfold ensure_court. cbv zeta.
  assert (Hp : dict_setdefault c ([] : lane) d = d)
    by (apply dict_setdefault_present; plain_dicts; rewrite Hl; discriminate).
  plain_dicts. rewrite Hp, Hl.
  unfold ensure_lane. rewrite setdefaults_fixed by exact Hb.
  apply dict_set_same. exact Hl.
Qed.

Lemma complete_nonempty (d : day) : complete d -> d <> [].
Proof.
  intros H ->. destruct (H "A" (or_introl eq_refl)) as (l & Hl & _). discriminate Hl.
Qed.

Lemma ensure_day_fixed (d : day) : complete d -> ensure_day d = d.
Proof.
  intros H. pose proof (complete_nonempty d H) as Hne.
  unfold ensure_day. destruct d as [|x t]; [congruence|]. cbn [fold_left].
  destruct (H "A" (or_introl eq_refl)) as (la & Ha & Hba).
  destruct (H "B" (or_intror eq_refl)) as (lb & Hb & Hbb).
  rewrite (ensure_court_fixed "A" _ la Ha Hba).
  apply (ensure_court_fixed "B" _ lb Hb Hbb).
Qed.

Lemma in_place_complete (d : day) : complete d -> ensure_day_in_place d = d.
Proof.
  intros H. pose proof (complete_nonempty d H) as Hne.
  unfold ensure_day_in_place. destruct d; [congruence|].
  apply ensure_day_fixed. exact H.
Qed.

Lemma in_place_lookup (c b : string) (d : day) (x : option slot) :
  dict_get b (lane_of c d) = Some x ->
  dict_get b (lane_of c (ensure_day_in_place d)) = Some x.
Proof.
  intros H. unfold ensure_day_in_place. destruct d as [|y t]; [exact H|].
  rewrite ensure_day_lookup. plain_dicts. rewrite H. reflexivity.
Qed.

Lemma in_place_occupant (c b : string) (d : day) (s : slot) :
  dict_get b (lane_of c (ensure_day_in_place d)) = Some (Some s) ->
  dict_get b (lane_of c d) = Some (Some s).
Proof.
  unfold ensure_day_in_place. destruct d as [|y t]; [auto|].
  rewrite ensure_day_lookup.
  destruct (dict_get b (lane_of c (y :: t))) as [x|]; [auto|].
  destruct ((String.eqb c "A" || String.eqb c "B") && existsb (String.eqb b) BLOCKS);
    discriminate.
Qed.

Lemma day_assign_lookup (c b c' b' : string) (s : option slot) (d : day) (l : lane) :
  dict_get c d = Some l ->
  dict_get b' (lane_of c' (day_assign c b s d))
  = if String.eqb c' c && String.eqb b' b then Some s
    else dict_get b' (lane_of c' d).
Proof.
  intros Hl. unfold day_assign. plain_dicts. rewrite Hl.
  unfold lane_of.
  destruct (String.eqb_spec c' c) as [->|Hc]; cbn [andb].
  - plain_dicts. rewrite dict_get_set_eq, Hl.
    destruct (String.eqb_spec b' b) as [->|Hb].
    + apply dict_get_set_eq.
    + apply dict_get_set_neq. exact Hb.
  - plain_dicts. rewrite dict_get_set_neq by assumption. reflexivity.
Qed.

Lemma day_assign_complete (c b : string) (s : option slot) (d : day) :
  complete d -> complete (day_assign c b s d).
Proof.
  intros H c' Hc'. destruct (H c' Hc') as (l' & Hl' & Hb').
  unfold day_assign. destruct (dict_get c d) as [l|] eqn:Hl; [|eauto].
  destruct (String.eqb_spec c' c) as [->|Hne].
  - plain_dicts. rewrite dict_get_set_eq. eexists. split; [reflexivity|].
    intros b0 Hb0. apply dict_get_set_some. assert (l = l') by congruence. subst. auto.
  - plain_dicts. rewrite dict_get_set_neq by assumption. eauto.
Qed.

Lemma day_assign_tidy (c b : string) (s : option slot) (d : day) :
  tidy d -> tidy (day_assign c b s d).
Proof.
  intros H c' l'. unfold day_assign. destruct (dict_get c d) as [l|] eqn:Hl; [|apply H].
  destruct (String.eqb_spec c' c) as [->|Hne].
  - plain_dicts. rewrite dict_get_set_eq. intros [= <-].
    apply dict_set_nodup. apply (H c). exact Hl.
  - plain_dicts. rewrite dict_get_set_neq by assumption. apply H.
Qed.

Lemma ensure_day_tidy (d : day) : tidy d -> tidy (ensure_day d).
Proof.
  intros H c l. rewrite ensure_day_get.
  destruct (String.eqb c "A" || String.eqb c "B"); [|apply H].
  intros [= <-]. unfold ensure_lane. apply setdefaults_nodup.
  unfold lane_of. destruct (dict_get c d) as [l|] eqn:E; [apply (H c); exact E|constructor].
Qed.

Lemma day_assign_undo (c b : string) (x y : option slot) (d : day) (l : lane) :
  dict_get c d = Some l -> dict_get b l = Some x ->
  day_assign c b x (day_assign c b y d) = d.
Proof.
  intros Hl Hb. unfold day_assign. plain_dicts. rewrite Hl.
  rewrite dict_get_set_eq, !dict_set_twice.
  rewrite (dict_set_same b x l Hb). apply dict_set_same. exact Hl.
Qed.

Lemma lane_of_some (c b : string) (d : day) (x : option slot) :
  dict_get b (lane_of c d) = Some x -> exists l, dict_get c d = Some l.
Proof.
  unfold lane_of. destruct (dict_get c d) as [l|]; [eauto|discriminate].
Qed.

Lemma other_court_ab (c : string) : other_court c = "A" \/ other_court c = "B".
Proof.
  unfold other_court. destruct (String.eqb c "A"); auto.
Qed.

(** X15. [ensure_day] only adds: an entry of the day is kept as it is, and
    what is added is an empty slot for every block of [BLOCKS] under the
    courts A and B and nothing else; a second call changes nothing. *)
Theorem ensure_day_adds_only (d : day) (c b : string) :
  dict_get b (lane_of c (ensure_day d))
  = match dict_get b (lane_of c d) with
    | Some x => Some x
    | None =>
        if (String.eqb c "A" || String.eqb c "B") && existsb (String.eqb b) BLOCKS
        then Some None else None
    end
  /\ ensure_day (ensure_day d) = ensure_day d.
Proof.
  split; [apply ensure_day_lookup|].
  apply ensure_day_fixed, ensure_day_complete.
Qed.

Section Booking.

Context {local : LocalTime}.

(** The runs of [book_block], over the day [e] it works on. *)
Lemma book_block_run (d e : day) (k c b u n : string) (w : world) :
  e = ensure_day_in_place d ->
  exists r, book_block d k c b u n w = (Ok r, w) /\
    match r with
    | KeyError =>
        dict_get b (lane_of c e) = None
        \/ dict_get b (lane_of (other_court c) e) = None
    | Found (d', (ok, reason)) =>
        (ok = false /\ reason = "TAKEN" /\ d' = e
         /\ exists s, dict_get b (lane_of c e) = Some (Some s))
        \/ (ok = false /\ reason = "OVERLAP" /\ d' = e
            /\ dict_get b (lane_of c e) = Some None
            /\ booked_by u b (lane_of (other_court c) e) = true)
        \/ (ok = true /\ reason = ""
            /\ d' = day_assign c b
                      (Some (mkSlot u (Py.strip n)
                               (isoformat_seconds (clock w + utc_offset)))) e
            /\ (exists l, dict_get c e = Some l)
            /\ dict_get b (lane_of c e) = Some None
            /\ dict_get b (lane_of (other_court c) e) <> None
            /\ booked_by u b (lane_of (other_court c) e) = false)
    end.
Proof.
  intros He. unfold book_block. cbv zeta. rewrite <- He.
  unfold lane_of, booked_by. plain_dicts.
  destruct (dict_get c e) as [l|] eqn:Hc.
  2:{ eexists. split; [reflexivity|]. left. reflexivity. }
  destruct (dict_get b l) as [[s|]|] eqn:Hb.
  - eexists. split; [reflexivity|]. left. repeat split; eauto.
  - destruct (dict_get (other_court c) e) as [lo|] eqn:Ho.
    2:{ eexists. split; [reflexivity|]. right. reflexivity. }
    destruct (dict_get b lo) as [[s|]|] eqn:Hbo.
    + destruct (String.eqb (slot_user s) u) eqn:Eu.
      * eexists. split; [reflexivity|]. right. left. repeat split; auto.
      * eexists. split; [reflexivity|]. right. right.
        repeat split; eauto; discriminate.
    + eexists. split; [reflexivity|]. right. right.
      repeat split; eauto; discriminate.
    + eexists. split; [reflexivity|]. right. reflexivity.
  - eexists. split; [reflexivity|]. left. reflexivity.
Qed.


(** X17. On the empty day [book_block] raises [KeyError] for every court and
    block, since the day [ensure_day] builds for it is dropped; on the day
    [ensure_day] returns for it the same booking is made. *)
Theorem book_block_empty_day (k c b u n : string) (w : world) :
  c = "A" \/ c = "B" -> In b BLOCKS ->
  book_block [] k c b u n w = (Ok KeyError, w)
  /\ exists d', book_block (ensure_day []) k c b u n w = (Ok (Found (d', (true, ""))), w).
Proof.
  intros Hc Hb. split; [reflexivity|].
  destruct Hc as [-> | ->]; destruct Hb as [<-|[<-|[<-|[]]]];
    eexists; cbv - [Py.strip isoformat_seconds utc_offset Z.add clock]; reflexivity.
Qed.

(** X18. [book_block] reads the clock and nothing else of the store, raises
    none of the store's exceptions, and never takes a slot away: every
    occupant of the day is still there afterwards, whatever the verdict. *)
Theorem book_block_keeps_occupants (d : day) (k c b u n : string) (w w' : world)
    (r : outcome (keyed_result (day * (bool * string)))) :
  book_block d k c b u n w = (r, w') ->
  w' = w
  /\ (exists x, r = Ok x)
  /\ forall d' v, r = Ok (Found (d', v)) ->
       forall c' b' s,
         dict_get b' (lane_of c' d) = Some (Some s) ->
         dict_get b' (lane_of c' d') = Some (Some s).
Proof.
  intros H.
  destruct (book_block_run d _ k c b u n w eq_refl) as (r0 & Hr & Hcase).
  rewrite Hr in H. injection H as <- <-.
  split; [reflexivity|]. split; [eauto|].
  intros d' [ok reason] [= ->] c' b' s Hs.
  apply in_place_lookup in Hs.
  destruct Hcase as [(_ & _ & -> & _) | [(_ & _ & -> & _) | (_ & _ & -> & [l Hl] & Hfree & _)]];
    [exact Hs | exact Hs |].
  rewrite (day_assign_lookup _ _ _ _ _ _ _ Hl).
  destruct (String.eqb_spec c' c) as [->|Hc]; [|exact Hs].
  destruct (String.eqb_spec b' b) as [->|Hb]; [|exact Hs].
  plain_dicts. congruence.
Qed.

(** X19. [book_block] keeps the rule it checks: if nobody has both courts in
    the same block before the call, nobody has afterwards. *)
Theorem book_block_single_court (d d' : day) (k c b u n : string) (w w' : world)
    (v : bool * string) :
  single_court d ->
  book_block d k c b u n w = (Ok (Found (d', v)), w') ->
  single_court d'.
Proof.
  intros Hs H.
  destruct (book_block_run d _ k c b u n w eq_refl) as (r0 & Hr & Hcase).
  rewrite Hr in H. injection H as -> <-. destruct v as [ok reason].
  assert (He : single_court (ensure_day_in_place d)).
  { intros b0 sa sb Ha Hb. apply in_place_occupant in Ha, Hb. eapply Hs; eauto. }
  destruct Hcase as [(_ & _ & -> & _) | [(_ & _ & -> & _) | Hbook]];
    [exact He | exact He |].
  destruct Hbook as (_ & _ & -> & [l Hl] & Hfree & _ & Hother).
  intros b0 sa sb.
  rewrite !(day_assign_lookup _ _ _ _ _ _ _ Hl).
  unfold other_court, booked_by in Hother.
  destruct (String.eqb_spec c "A") as [->|HA]; [|destruct (String.eqb_spec c "B") as [->|HB]].
  - change (String.eqb "A" "A") with true. change (String.eqb "B" "A") with false.
    cbn [andb].
    destruct (String.eqb_spec b0 b) as [->|Hb0]; [|apply He].
    intros [= <-] Hb. plain_dicts. rewrite Hb in Hother. cbn.
    apply String.eqb_neq in Hother. congruence.
  - change (String.eqb "B" "B") with true. change (String.eqb "A" "B") with false.
    cbn [andb].
    destruct (String.eqb_spec b0 b) as [->|Hb0]; [|apply He].
    intros Ha [= <-]. plain_dicts. rewrite Ha in Hother. cbn.
    apply String.eqb_neq in Hother. congruence.
  - assert (EA : String.eqb "A" c = false) by (apply String.eqb_neq; congruence).
    assert (EB : String.eqb "B" c = false) by (apply String.eqb_neq; congruence).
    rewrite EA, EB. cbn [andb]. apply He.
Qed.

(** X21. A booking that [book_block] makes is undone by [cancel_block],
    whoever asks for it: the day is the one [ensure_day] completes. *)
Theorem book_then_cancel (d d' : day) (k c b u n : string) (w w' : world)
    (reason k' u' : string) :
  book_block d k c b u n w = (Ok (Found (d', (true, reason))), w') ->
  cancel_block d' k' c b u' = (ensure_day d, (true, "")).
Proof.
  intros H.
  destruct (book_block_run d _ k c b u n w eq_refl) as (r0 & Hr & Hcase).
  rewrite Hr in H. injection H as -> <-.
  destruct Hcase as [(E & _) | [(E & _) | Hbook]]; try discriminate E.
  destruct Hbook as (_ & _ & -> & [l Hl] & Hfree & _).
  assert (He : ensure_day_in_place d = ensure_day d).
  { destruct d; [discriminate Hl|reflexivity]. }
  rewrite He in *.
  pose proof (ensure_day_complete d) as Hcomp.
  unfold cancel_block.
  rewrite (in_place_complete _ (day_assign_complete c b _ _ Hcomp)).
  rewrite (day_assign_lookup _ _ _ _ _ _ _ Hl), !String.eqb_refl. cbn [andb].
  f_equal. apply (day_assign_undo c b None _ _ l Hl).
  unfold lane_of in Hfree. plain_dicts. rewrite Hl in Hfree. exact Hfree.
Qed.

End Booking.

(** X20. [cancel_block] answers [NOT_FOUND] and changes no entry when the
    slot has no occupant; when it has one, whoever that is and whoever
    asks, the slot is emptied and no other entry changes. *)
Theorem cancel_block_verdict (d : day) (k c b u : string) :
  match dict_get b (lane_of c d) with
  | Some (Some _) =>
      snd (cancel_block d k c b u) = (true, "")
      /\ forall c' b',
           dict_get b' (lane_of c' (fst (cancel_block d k c b u)))
           = if String.eqb c' c && String.eqb b' b then Some None
             else dict_get b' (lane_of c' (ensure_day_in_place d))
  | _ => cancel_block d k c b u = (ensure_day_in_place d, (false, "NOT_FOUND"))
  end.
Proof.
  unfold cancel_block.
  destruct (dict_get b (lane_of c d)) as [[s|]|] eqn:E.
  - apply in_place_lookup in E. plain_dicts. rewrite E. cbn [fst snd].
    split; [reflexivity|]. intros c' b'.
    destruct (lane_of_some _ _ _ _ E) as [l Hl].
    apply (day_assign_lookup _ _ _ _ _ _ _ Hl).
  - destruct (dict_get b (lane_of c (ensure_day_in_place d))) as [[s|]|] eqn:E';
      [|reflexivity|reflexivity].
    apply in_place_occupant in E'. plain_dicts. congruence.
  - destruct (dict_get b (lane_of c (ensure_day_in_place d))) as [[s|]|] eqn:E';
      [|reflexivity|reflexivity].
    apply in_place_occupant in E'. plain_dicts. congruence.
Qed.

(** * The booking round trips: [try_book], [try_cancel] *)

Lemma fold_set_nodup (blocks : list string) (l : lane) :
  NoDup (map fst l) ->
  NoDup (map fst (fold_left (fun d b => dict_set b None d) blocks l)).
Proof.
  revert l. induction blocks as [|x rest IH]; intros l H; cbn [fold_left]; [exact H|].
  apply IH, dict_set_nodup, H.
Qed.

Lemma tidy_lane (c : string) (d : day) : tidy d -> NoDup (map fst (lane_of c d)).
Proof.
  intros H. unfold lane_of.
  destruct (dict_get c d) as [l|] eqn:E; [apply (H c); exact E|constructor].
Qed.

Lemma load_step_tidy (d : day) (rw : row) : tidy d -> tidy (load_step d rw).
Proof.
  intros H. unfold load_step.
  destruct (6 <=? List.length rw)%nat; [|exact H].
  destruct (String.eqb (cell 1 rw) "A" || String.eqb (cell 1 rw) "B"); [|exact H].
  apply day_assign_tidy, H.
Qed.

Lemma load_fold_tidy (rows : list row) (d : day) :
  tidy d -> tidy (fold_left load_step rows d).
Proof.
  revert d. induction rows as [|r rest IH]; intros d H; cbn [fold_left]; [exact H|].
  apply IH, load_step_tidy, H.
Qed.

Lemma stored_day_tidy (k : string) (w : world) : tidy (stored_day k w).
Proof.
  apply load_fold_tidy. intros c l. cbn [dict_get].
  destruct (String.eqb "A" c);
    [intros [= <-]; apply fold_set_nodup; constructor|].
  destruct (String.eqb "B" c);
    [intros [= <-]; apply fold_set_nodup; constructor|discriminate].
Qed.

Lemma stored_day_shaped (k : string) (w : world) : shaped (st_blocks w) (stored_day k w).
Proof. apply load_rows_shaped, empty_day_shaped. Qed.

Lemma shaped_strangers (blocks : list string) (d : day) (c : string) :
  shaped blocks d -> c <> "A" -> c <> "B" -> lane_of c d = [].
Proof.
  intros [Hk _] HA HB. unfold lane_of.
  destruct (dict_get c d) as [l|] eqn:E; [|reflexivity].
  apply dict_get_key in E. plain_dicts. rewrite Hk in E.
  destruct E as [E|[E|[]]]; congruence.
Qed.

Lemma complete_lookup (d : day) (c b : string) :
  complete d -> c = "A" \/ c = "B" -> In b BLOCKS -> dict_get b (lane_of c d) <> None.
Proof.
  intros H Hc Hb. destruct (H c Hc) as (l & Hl & Hall).
  unfold lane_of. plain_dicts. rewrite Hl. apply Hall, Hb.
Qed.

Lemma ensure_day_occupant (d : day) (c b : string) (s : slot) :
  dict_get b (lane_of c (ensure_day d)) = Some (Some s)
  <-> dict_get b (lane_of c d) = Some (Some s).
Proof.
  rewrite ensure_day_lookup.
  destruct (dict_get b (lane_of c d)) as [x|]; [reflexivity|].
  destruct ((String.eqb c "A" || String.eqb c "B") && existsb (String.eqb b) BLOCKS);
    split; discriminate.
Qed.

Lemma lane_of_first (c c' : string) (x y : lane) :
  lane_of c [(c, x); (c', y)] = x.
Proof. unfold lane_of. cbn [dict_get]. rewrite String.eqb_refl. reflexivity. Qed.

Lemma lane_of_second (c c' : string) (x y : lane) :
  c <> c' -> lane_of c' [(c, x); (c', y)] = y.
Proof.
  intros H. unfold lane_of. cbn [dict_get].
  apply String.eqb_neq in H. rewrite H, String.eqb_refl. reflexivity.
Qed.

Section Trying.

Context {codec : IsoCodec} {local : LocalTime}.

Lemma saved_lookup (now : datetime) (b : string) (l e : lane) :
  NoDup (map fst l) ->
  dict_get b (fill (occupied_at now l) e)
  = match dict_get b l with
    | Some (Some s) => Some (Some (stamped now s))
    | _ => dict_get b e
    end.
Proof.
  intros Hnd.
  assert (Hk : map fst (occupied_at now l) = map fst (occupied l)).
  { unfold occupied_at. rewrite map_map. apply map_ext. reflexivity. }
  assert (Hno : (forall s, dict_get b l <> Some (Some s)) ->
                ~ In b (map fst (occupied_at now l))).
  { intros Hfree Hin. rewrite Hk in Hin. apply in_map_iff in Hin.
    destruct Hin as ([b0 s] & Hb0 & Hin). cbn in Hb0. subst b0.
    apply occupied_in in Hin. apply (in_dict_get _ _ _ Hnd) in Hin.
    apply (Hfree s). exact Hin. }
  destruct (dict_get b l) as [[s|]|] eqn:E.
  - apply fill_get_in.
    + rewrite Hk. apply occupied_nodup, Hnd.
    + unfold occupied_at.
      apply (in_map (fun bs => (fst bs, stamped now (snd bs))) _ (b, s)).
      apply occupied_in. apply dict_get_in. exact E.
  - apply fill_get_notin, Hno. discriminate.
  - apply fill_get_notin, Hno. discriminate.
Qed.

Lemma saved_day_lookup (k c b : string) (d' : day) (w w' : world) :
  headed (resv w) -> tidy d' -> c = "A" \/ c = "B" ->
  resv w' = (other_rows k (resv w) ++ courts_rows_at (clock w') k ["A"; "B"] d')%list ->
  st_blocks w' = st_blocks w ->
  dict_get b (lane_of c (stored_day k w'))
  = match dict_get b (lane_of c d') with
    | Some (Some s) => Some (Some (stamped (clock w') s))
    | _ => dict_get b (empty_lane (st_blocks w))
    end.
Proof.
  intros Hh Ht Hc Hr Hb. unfold stored_day.
  rewrite Hr, (key_rows_replaced k (resv w) _ Hh (courts_rows_keyed _ _ _ _)), Hb.
  rewrite load_saved.
  destruct Hc as [-> | ->].
  - rewrite lane_of_first. apply saved_lookup, tidy_lane, Ht.
  - rewrite lane_of_second by discriminate. apply saved_lookup, tidy_lane, Ht.
Qed.

Lemma empty_lane_vacant (b : string) (blocks : list string) (s : slot) :
  dict_get b (empty_lane blocks) <> Some (Some s).
Proof.
  unfold empty_lane. rewrite empty_lane_get_gen.
  destruct (existsb (String.eqb b) blocks); discriminate.
Qed.

(** With the lock of the key free, [save_date] does not fail on the lock. *)
Lemma save_date_vacant (k : string) (d : day) (v : Z) (user : string) (ttl : Z)
    (w : world) :
  calm w -> headed (locks w) -> vacant k (locks w) ->
  fst (save_date k d v user true ttl w) <> Ok (false, "LOCK_FAIL").
Proof.
  intros H Hh Hv.
  assert (Hm : 0 < 5) by lia.
  pose proof (acquire_lock_first_attempt k user ttl 5 500000 w H Hh Hm
                (vacant_not_blocked _ _ _ _ Hv)) as Ea.
  unfold save_date, bind. rewrite Ea. unfold try_finally.
  cbn [andb token_held]. rewrite next_token_truthy. cbn [negb].
  match goal with
  | |- context [commit k d v ?w1] =>
      assert (H1 : calm w1)
        by (apply calm_set_sheet; destruct (drawn_same w) as (_ & _ & _ & _ & Hc);
            apply Hc, H);
      rewrite (commit_calm k d v w1 H1)
  end.
  match goal with
  | |- context [if ?c then _ else _] => destruct c
  end.
  - rewrite release_lock_calm by (repeat apply calm_set_sheet; exact H1).
    cbn. discriminate.
  - rewrite release_lock_calm by exact H1. cbn. discriminate.
Qed.

(** [try_book] after a load without transport failure. *)
Lemma try_book_loaded (k c b u n : string) (w : world) :
  calm w ->
  exists r,
    book_block (ensure_day (stored_day k w)) k c b u n w = (Ok r, w)
    /\ try_book k c b u n w
       = match r with
         | KeyError => (Ok KeyError, w)
         | Found (d', (ok, reason)) =>
             if ok
             then (let (saved, w') :=
                     save_date k d' (stored_version k (vers w)) u true 30 w in
                   match saved with
                   | Ok v => (Ok (Found v), w')
                   | Raised e => (Raised e, w')
                   end)
             else (Ok (Found (false, reason)), w)
         end.
Proof.
  intros H.
  destruct (book_block_run (ensure_day (stored_day k w)) (ensure_day (stored_day k w))
              k c b u n w
              (eq_sym (in_place_complete _ (ensure_day_complete _))))
    as (r & Hrun & _).
  exists r. split; [exact Hrun|].
  unfold try_book. unfold bind at 1. rewrite (load_date_calm k w H).
  fold (stored_day k w). cbn [fst snd]. unfold bind at 1. rewrite Hrun.
  destruct r as [[d' [[|] reason]]|]; reflexivity.
Qed.

(** X22. Whatever the transport does, a [try_book] that returns a refusal
    wrote no reservation and no version; when the reason is [TAKEN] or
    [OVERLAP] it did not touch the locks, the clock or the random source
    either, and the only other reasons are those of [save_date]. *)
Theorem try_book_refused (k c b u n : string) (w w' : world) (reason : string) :
  try_book k c b u n w = (Ok (Found (false, reason)), w') ->
  resv w' = resv w /\ vers w' = vers w
  /\ (((reason = "TAKEN" \/ reason = "OVERLAP")
       /\ locks w' = locks w /\ clock w' = clock w /\ entropy w' = entropy w)
      \/ reason = "LOCK_FAIL" \/ reason = "VERSION_CONFLICT").
Proof.
  intros H. unfold try_book in H.
  apply bind_Ok in H. destruct H as (loaded & w1 & Hl & H).
  assert (F : resv w1 = resv w /\ vers w1 = vers w /\ locks w1 = locks w
              /\ clock w1 = clock w /\ entropy w1 = entropy w).
  { replace w1 with (snd (load_date k w)) by (rewrite Hl; reflexivity).
    repeat split.
    - apply (frame_load_date (same resv)); frame_side.
    - apply (frame_load_date (same vers)); frame_side.
    - apply (frame_load_date (same locks)); frame_side.
    - apply (frame_load_date (same clock)); frame_side.
    - apply (frame_load_date (same entropy)); frame_side. }
  destruct F as (Fr & Fv & Fl & Fc & Fe).
  apply bind_Ok in H. destruct H as (r & w2 & Hb & H).
  destruct (book_block_run (ensure_day (fst loaded)) _ k c b u n w1 eq_refl)
    as (r0 & Hr & Hcase).
  rewrite Hr in Hb. injection Hb as <- <-.
  destruct r0 as [[d' [ok rs]]|]; [|discriminate H].
  destruct ok; cbn [negb] in H.
  - apply bind_Ok in H. destruct H as ([ok2 r2] & w3 & Hs & H).
    unfold ret in H. injection H as -> -> ->.
    apply save_date_verdict in Hs.
    destruct Hs as [[E _] | (_ & Hreason & Hr' & Hv')]; [discriminate E|].
    split; [congruence|]. split; [congruence|]. right. exact Hreason.
  - unfold ret in H. injection H as -> <-.
    split; [exact Fr|]. split; [exact Fv|]. left.
    split; [|auto].
    destruct Hcase as [(_ & E & _) | [(_ & E & _) | (E & _)]];
      [left; exact E | right; exact E | discriminate E].
Qed.


(** X24. Without transport failure and with the lock of the key free, a
    booking of a free slot by a user without the same block on the other
    court succeeds. *)
Theorem try_book_succeeds (k c b u n : string) (w : world) (d0 : day) (v0 : Z) :
  calm w -> headed (locks w) -> vacant k (locks w) ->
  c = "A" \/ c = "B" -> In b BLOCKS ->
  fst (load_date k w) = Ok (d0, v0) ->
  (forall s, dict_get b (lane_of c d0) <> Some (Some s)) ->
  booked_by u b (lane_of (other_court c) d0) = false ->
  fst (try_book k c b u n w) = Ok (Found (true, "")).
Proof.
  intros H Hh Hvac Hc Hb El Hfree Hother.
  rewrite (load_date_calm k w H) in El. fold (stored_day k w) in El.
  cbn [fst] in El. injection El as <- <-.
  destruct (try_book_loaded k c b u n w H) as (r & Hrun & Et).
  pose proof (ensure_day_complete (stored_day k w)) as Hcomp.
  destruct (book_block_run (ensure_day (stored_day k w)) _ k c b u n w
              (eq_sym (in_place_complete _ Hcomp))) as (r' & Hrun' & Hcase).
  rewrite Hrun in Hrun'. injection Hrun' as <-.
  destruct r as [[d' [ok reason]]|].
  2:{ exfalso. destruct Hcase as [E|E]; revert E.
      - apply complete_lookup; assumption.
      - apply complete_lookup; [assumption|apply other_court_ab|assumption]. }
  destruct Hcase as [(_ & _ & _ & [s Hs]) | [(_ & _ & _ & _ & Hov) | Hbook]].
  - exfalso. apply (proj1 (ensure_day_occupant _ _ _ _)) in Hs.
    apply (Hfree s). exact Hs.
  - exfalso. unfold booked_by in Hov, Hother.
    destruct (dict_get b (lane_of (other_court c) (ensure_day (stored_day k w))))
      as [[s|]|] eqn:E; try discriminate Hov.
    apply (proj1 (ensure_day_occupant _ _ _ _)) in E.
    plain_dicts. rewrite E in Hother. congruence.
  - destruct Hbook as (-> & -> & -> & _).
    rewrite Et.
    match goal with
    | |- context [save_date k ?d ?v u true 30 w] =>
        destruct (save_date_calm k d v u true 30 w H)
          as (w' & Ew & Hcalm & Hblocks & Hsave);
        pose proof (save_date_vacant k d v u 30 w H Hh Hvac) as Hnf;
        destruct (save_date k d v u true 30 w) as [saved w2] eqn:Es
    end.
    cbn [fst snd] in Ew, Hsave, Hnf.
    destruct Hsave as [(Ef & _) | [(_ & Hne & _) | (Ef & _)]].
    + contradiction.
    + exfalso. apply Hne. reflexivity.
    + subst saved. reflexivity.
Qed.

(** [try_cancel] after a load without transport failure. *)
Lemma try_cancel_loaded (k c b u : string) (w : world) :
  calm w ->
  try_cancel k c b u w
  = match dict_get b (lane_of c (ensure_day (stored_day k w))) with
    | Some (Some _) =>
        save_date k (day_assign c b None (ensure_day (stored_day k w)))
          (stored_version k (vers w)) u true 30 w
    | _ => (Ok (false, "NOT_FOUND"), w)
    end.
Proof.
  intros H. unfold try_cancel. unfold bind at 1. rewrite (load_date_calm k w H).
  fold (stored_day k w). cbn [fst snd]. unfold cancel_block.
  rewrite (in_place_complete _ (ensure_day_complete _)).
  destruct (dict_get b (lane_of c (ensure_day (stored_day k w)))) as [[s|]|];
    reflexivity.
Qed.

(** X25. Whatever the transport does, a [try_cancel] that returns a refusal
    wrote no reservation and no version; with [NOT_FOUND] it did not touch
    the locks, the clock or the random source either. *)
Theorem try_cancel_refused (k c b u : string) (w w' : world) (reason : string) :
  try_cancel k c b u w = (Ok (false, reason), w') ->
  resv w' = resv w /\ vers w' = vers w
  /\ ((reason = "NOT_FOUND"
       /\ locks w' = locks w /\ clock w' = clock w /\ entropy w' = entropy w)
      \/ reason = "LOCK_FAIL" \/ reason = "VERSION_CONFLICT").
Proof.
  intros H. unfold try_cancel in H.
  apply bind_Ok in H. destruct H as (loaded & w1 & Hl & H).
  assert (F : resv w1 = resv w /\ vers w1 = vers w /\ locks w1 = locks w
              /\ clock w1 = clock w /\ entropy w1 = entropy w).
  { replace w1 with (snd (load_date k w)) by (rewrite Hl; reflexivity).
    repeat split.
    - apply (frame_load_date (same resv)); frame_side.
    - apply (frame_load_date (same vers)); frame_side.
    - apply (frame_load_date (same locks)); frame_side.
    - apply (frame_load_date (same clock)); frame_side.
    - apply (frame_load_date (same entropy)); frame_side. }
  destruct F as (Fr & Fv & Fl & Fc & Fe).
  cbv zeta in H. unfold cancel_block in H.
  destruct (dict_get b (lane_of c (ensure_day_in_place (ensure_day (fst loaded)))))
    as [[s|]|]; cbn [fst snd negb] in H.
  - apply save_date_verdict in H.
    destruct H as [[E _] | (_ & Hreason & Hr' & Hv')]; [discriminate E|].
    split; [congruence|]. split; [congruence|]. right. exact Hreason.
  - unfold ret in H. injection H as <- <-. auto 10.
  - unfold ret in H. injection H as <- <-. auto 10.
Qed.

(** X26. Without transport failure [try_cancel] raises nothing, never
    answers [VERSION_CONFLICT], and answers [NOT_FOUND] exactly when the
    stored day has no occupant in the slot. When it succeeds, a
    [load_date] that follows returns the next version and a day with the
    slot free and every other occupant still in place. *)
Theorem try_cancel_calm (k c b u : string) (w : world) :
  calm w -> headed (resv w) -> headed (vers w) ->
  exists ok reason w' d0 v0,
    load_date k w = (Ok (d0, v0), w)
    /\ try_cancel k c b u w = (Ok (ok, reason), w')
    /\ calm w'
    /\ reason <> "VERSION_CONFLICT"
    /\ (reason = "NOT_FOUND" <-> forall s, dict_get b (lane_of c d0) <> Some (Some s))
    /\ (ok = true ->
        exists d1,
          load_date k w' = (Ok (d1, v0 + 1), w')
          /\ (forall s, dict_get b (lane_of c d1) <> Some (Some s))
          /\ forall c' b' s,
               c' <> c \/ b' <> b ->
               dict_get b' (lane_of c' d0) = Some (Some s) ->
               dict_get b' (lane_of c' d1) = Some (Some (stamped (clock w') s))).
Proof.
  intros H Hr Hv.
  pose proof (try_cancel_loaded k c b u w H) as Et.
  pose proof (load_date_calm k w H) as El. fold (stored_day k w) in El.
  destruct (dict_get b (lane_of c (ensure_day (stored_day k w)))) as [[s0|]|] eqn:E.
  - apply (proj1 (ensure_day_occupant _ _ _ _)) in E.
    assert (Hc : c = "A" \/ c = "B").
    { destruct (String.eqb_spec c "A") as [|HA]; [auto|].
      destruct (String.eqb_spec c "B") as [|HB]; [auto|].
      rewrite (shaped_strangers _ _ c (stored_day_shaped k w) HA HB) in E.
      discriminate E. }
    destruct (lane_of_some _ _ _ _ (proj2 (ensure_day_occupant _ _ _ _) E)) as [l Hl].
    match type of Et with
    | context [save_date k ?d ?v u true 30 w] =>
        destruct (save_date_calm k d v u true 30 w H)
          as (w' & Ew & Hcalm & Hblocks & Hsave);
        assert (Ht : tidy d)
          by apply day_assign_tidy, ensure_day_tidy, stored_day_tidy;
        destruct (save_date k d v u true 30 w) as [saved w2] eqn:Es
    end.
    cbn [fst snd] in Ew, Hsave. subst w2.
    assert (Hnf : ~ (forall s, dict_get b (lane_of c (stored_day k w)) <> Some (Some s))).
    { intros Hall. apply (Hall s0). exact E. }
    destruct Hsave as [(Ef & _) | [(_ & Hne & _) | (Ef & _ & Hresv & Hvers)]].
    + subst saved.
      exists false, "LOCK_FAIL", w', (stored_day k w), (stored_version k (vers w)).
      split; [exact El|]. split; [exact Et|]. split; [exact Hcalm|].
      split; [discriminate|]. split; [|discriminate].
      split; [discriminate|]. intros Hall. contradiction.
    + exfalso. apply Hne. reflexivity.
    + subst saved.
      exists true, "", w', (stored_day k w), (stored_version k (vers w)).
      split; [exact El|]. split; [exact Et|]. split; [exact Hcalm|].
      split; [discriminate|]. split.
      { split; [discriminate|]. intros Hall. contradiction. }
      intros _. exists (stored_day k w').
      split.
      { rewrite (load_date_calm k w' Hcalm). fold (stored_day k w').
        rewrite Hvers, stored_version_set by exact Hv. reflexivity. }
      split.
      * intros s.
        rewrite (saved_day_lookup k c b _ w w' Hr Ht Hc Hresv Hblocks).
        rewrite (day_assign_lookup _ _ _ _ _ _ _ Hl), !String.eqb_refl. cbn [andb].
        apply empty_lane_vacant.
      * intros c' b' s Hne Hs.
        assert (Hc' : c' = "A" \/ c' = "B").
        { destruct (String.eqb_spec c' "A") as [|HA]; [auto|].
          destruct (String.eqb_spec c' "B") as [|HB]; [auto|].
          rewrite (shaped_strangers _ _ c' (stored_day_shaped k w) HA HB) in Hs.
          discriminate Hs. }
        rewrite (saved_day_lookup k c' b' _ w w' Hr Ht Hc' Hresv Hblocks).
        rewrite (day_assign_lookup _ _ _ _ _ _ _ Hl).
        destruct (String.eqb c' c && String.eqb b' b) eqn:E'.
        -- apply andb_true_iff in E'. destruct E' as [E1 E2].
           apply String.eqb_eq in E1, E2. destruct Hne; contradiction.
        -- apply (proj2 (ensure_day_occupant _ _ _ _)) in Hs. plain_dicts. rewrite Hs. reflexivity.
  - exists false, "NOT_FOUND", w, (stored_day k w), (stored_version k (vers w)).
    split; [exact El|]. split; [exact Et|]. split; [exact H|].
    split; [discriminate|]. split; [|discriminate].
    split; [|reflexivity]. intros _ s Hs.
    apply (proj2 (ensure_day_occupant _ _ _ _)) in Hs. plain_dicts. congruence.
  - exists false, "NOT_FOUND", w, (stored_day k w), (stored_version k (vers w)).
    split; [exact El|]. split; [exact Et|]. split; [exact H|].
    split; [discriminate|]. split; [|discriminate].
    split; [|reflexivity]. intros _ s Hs.
    apply (proj2 (ensure_day_occupant _ _ _ _)) in Hs. plain_dicts. congruence.
Qed.

End Trying.

(** * Runs of the store

    The properties above at work on the store of section "A store to run",
    with the decimal codec. *)


Lemma version_monotonic_witness :
  history jan1 held 2 bob_in
  /\ stored_version jan1 (vers bob_in)
     = stored_version jan1 (vers held) + Z.of_nat 2.
Proof.
  assert (Hh : history jan1 held 2 bob_in).
  { apply (history_commit jan1 held day_alice 0 "alice" true 30 false "LOCK_FAIL"
             turned_away 2 bob_in);
      [reflexivity | discriminate | vm_compute; reflexivity |].
    apply (history_other jan1 turned_away carol_expired 2 bob_in); [reflexivity|].
    apply (history_commit jan1 carol_expired day_alice 0 "alice" true 30 true ""
             alice_in 1 bob_in);
      [reflexivity | discriminate | vm_compute; reflexivity |].
    apply (history_commit jan1 alice_in day_alice_bob 0 "bob" true 30 false
             "VERSION_CONFLICT" bob_stale 1 bob_in);
      [reflexivity | vm_compute; discriminate | vm_compute; reflexivity |].
    apply (history_commit jan1 bob_stale day_alice_bob 1 "bob" true 30 true ""
             bob_in 0 bob_in);
      [reflexivity | vm_compute; discriminate | vm_compute; reflexivity |].
    apply history_nil. }
  split; [exact Hh|]. exact (version_monotonic jan1 held bob_in 2 Hh).
Defined.


Lemma release_lock_matching_witness :
  calm held
  /\ release_lock jan1 token5 held = (Ok tt, held)
  /\ exists w' r',
       release_lock jan1 "7d1f4e0a-other" held = (Ok tt, w')
       /\ lock_record jan1 (locks w') = Some r'
       /\ cell 1 r' = "" /\ cell 2 r' = ""
       /\ cell 3 r' = stamp (clock held - timedelta_seconds 1).
Proof.
  assert (Hc : calm held) by reflexivity.
  destruct (release_lock_matching jan1 token5 held Hc) as [Hno _].
  destruct (release_lock_matching jan1 "7d1f4e0a-other" held Hc) as [_ Hyes].
  split; [exact Hc|]. split.
  - apply Hno. vm_compute. discriminate.
  - destruct (Hyes ltac:(reflexivity))
      as (w' & r' & E & _ & Hr & _ & H1 & H2 & H3 & _).
    exists w', r'. auto.
Defined.

Lemma save_date_releases_witness :
  acquire_lock jan1 "alice" 30 5 500000 flaky
  = (Ok (Some token5), snd (acquire_lock jan1 "alice" 30 5 500000 flaky))
  /\ fst (commit jan1 day_alice 0 (snd (acquire_lock jan1 "alice" 30 5 500000 flaky)))
     = Raised TransportError
  /\ fst (save_date jan1 day_alice 0 "alice" true 30 flaky) = Raised TransportError
  /\ stored_token jan1 (locks (snd (save_date jan1 day_alice 0 "alice" true 30 flaky)))
     = Some "".
Proof.
  assert (Ha : acquire_lock jan1 "alice" 30 5 500000 flaky
               = (Ok (Some token5), snd (acquire_lock jan1 "alice" 30 5 500000 flaky)))
    by (vm_compute; reflexivity).
  assert (Hc : fst (commit jan1 day_alice 0
                      (snd (acquire_lock jan1 "alice" 30 5 500000 flaky)))
               = Raised TransportError) by (vm_compute; reflexivity).
  split; [exact Ha|]. split; [exact Hc|].
  destruct (save_date_releases jan1 day_alice 0 "alice" 30 flaky _ token5 Ha)
    as [_ Hq].
  destruct (Hq ltac:(vm_compute; reflexivity)) as [Hr Ht].
  split; [rewrite Hr; exact Hc | exact Ht].
Defined.

(** C6 as stated fails: when the transport fails inside [release_lock], the
    commit that had gone through ends with that exception and the lock
    record keeps the token. *)
Lemma release_fault_keeps_lock :
  fst (acquire_lock jan1 "alice" 30 5 500000 flaky_release) = Ok (Some token5)
  /\ fst (commit jan1 day_alice 0
            (snd (acquire_lock jan1 "alice" 30 5 500000 flaky_release)))
     = Ok (true, "")
  /\ fst (save_date jan1 day_alice 0 "alice" true 30 flaky_release)
     = Raised TransportError
  /\ stored_token jan1
       (locks (snd (save_date jan1 day_alice 0 "alice" true 30 flaky_release)))
     = Some token5.
Proof.
  split; [vm_compute; reflexivity|]. split; [vm_compute; reflexivity|].
  split; vm_compute; reflexivity.
Qed.

Lemma lock_fail_no_writes_witness :
  acquire_lock jan1 "alice" 30 5 500000 held
  = (Ok None, snd (acquire_lock jan1 "alice" 30 5 500000 held))
  /\ save_date jan1 day_alice 0 "alice" true 30 held
     = (Ok (false, "LOCK_FAIL"), snd (acquire_lock jan1 "alice" 30 5 500000 held))
  /\ resv (snd (acquire_lock jan1 "alice" 30 5 500000 held)) = resv held
  /\ vers (snd (acquire_lock jan1 "alice" 30 5 500000 held)) = vers held.
Proof.
  assert (Ha : acquire_lock jan1 "alice" 30 5 500000 held
               = (Ok None, snd (acquire_lock jan1 "alice" 30 5 500000 held)))
    by (vm_compute; reflexivity).
  split; [exact Ha|].
  exact (lock_fail_no_writes jan1 day_alice 0 "alice" 30 held _ Ha).
Defined.




(** C8 as stated fails: an occupant saved without a creation time is loaded
    with the time of the commit as its creation time. *)
Lemma round_trip_undated :
  fst (save_date jan1 day_undated 0 "alice" true 30 fresh) = Ok (true, "")
  /\ exists d',
       fst (load_date jan1 (snd (save_date jan1 day_undated 0 "alice" true 30 fresh)))
       = Ok (d', 1)
       /\ dict_get "LUNCHA" (lane_of "A" d')
          = Some (Some (mkSlot "alice" "" "1000000Z"))
       /\ dict_get "LUNCHA" (lane_of "A" day_undated)
          = Some (Some (mkSlot "alice" "" ""))
       /\ ~ day_eq d' day_undated.
Proof.
  split; [vm_compute; reflexivity|].
  eexists. split; [vm_compute; reflexivity|].
  split; [reflexivity|]. split; [reflexivity|].
  intros H. specialize (H "A"). cbn in H. specialize (H "LUNCHA"). cbn in H.
  discriminate H.
Qed.

Ltac key_cases H :=
  repeat match type of H with
         | context [String.eqb ?a ?b] =>
             destruct (String.eqb_spec a b); [subst|]
         end.

Lemma no_one_fits : fits (st_blocks fresh) no_one.
Proof.
  split; [|split; [|split]].
  - repeat constructor; cbn; intuition discriminate.
  - intros b [<- | [<- | [<- | []]]]; discriminate.
  - intros b H. cbn [dict_get no_one] in H. key_cases H; cbn; auto. discriminate H.
  - intros b s H. cbn [dict_get no_one] in H. key_cases H; discriminate H.
Qed.

Lemma day_alice_fits : fits_day (st_blocks fresh) day_alice.
Proof.
  split.
  - eexists. exists no_one. split; [reflexivity|]. split; [reflexivity|].
    split; [|exact no_one_fits].
    split; [|split; [|split]].
    + repeat constructor; cbn; intuition discriminate.
    + intros b [<- | [<- | [<- | []]]]; discriminate.
    + intros b H. cbn [dict_get] in H. key_cases H; cbn; auto; discriminate H.
    + intros b s H. cbn [dict_get] in H. key_cases H; try discriminate H.
      injection H as <-. reflexivity.
  - intros c HA HB. cbn [dict_get day_alice].
    destruct (String.eqb_spec "A" c); [congruence|].
    destruct (String.eqb_spec "B" c); [congruence|]. reflexivity.
Qed.

Lemma round_trip_witness :
  save_date jan1 day_alice 0 "alice" true 30 fresh = (Ok (true, ""), after_alice)
  /\ exists d',
       load_date jan1 after_alice = (Ok (d', 1), after_alice) /\ day_eq d' day_alice.
Proof.
  assert (Hs : save_date jan1 day_alice 0 "alice" true 30 fresh
               = (Ok (true, ""), after_alice)) by (vm_compute; reflexivity).
  split; [exact Hs|].
  exact (round_trip jan1 day_alice 0 "alice" true 30 fresh after_alice
           ltac:(reflexivity) ltac:(discriminate) ltac:(discriminate)
           day_alice_fits Hs).
Defined.

(** C9 as stated fails: the courts are not configuration. An occupant of a
    court C is not persisted by [save_date], and a stored row of court C is
    not loaded by [load_date], which returns the courts A and B. *)
Lemma court_c_ignored :
  fst (save_date jan1 day_court_c 0 "bob" true 30 fresh) = Ok (true, "")
  /\ resv (snd (save_date jan1 day_court_c 0 "bob" true 30 fresh)) = [HEADERS]
  /\ fst (load_date jan1 with_court_c) = Ok ([("A", no_one); ("B", no_one)], 0).
Proof.
  split; [vm_compute; reflexivity|]. split; vm_compute; reflexivity.
Qed.

Lemma lanes_fixed_witness :
  calm with_court_c
  /\ (exists d v,
         load_date jan1 with_court_c = (Ok (d, v), with_court_c)
         /\ map fst d = ["A"; "B"])
  /\ resv after_alice
     = other_rows jan1 (resv fresh)
       ++ map (fun bs => slot_row (clock after_alice) jan1 "A" (fst bs) (snd bs))
              (occupied (lane_of "A" day_alice))
       ++ map (fun bs => slot_row (clock after_alice) jan1 "B" (fst bs) (snd bs))
              (occupied (lane_of "B" day_alice)).
Proof.
  split; [reflexivity|]. split.
  - destruct (lanes_fixed jan1 with_court_c ltac:(reflexivity))
      as [(d & v & E & Hk & _) _].
    exists d, v. auto.
  - destruct (lanes_fixed jan1 fresh ltac:(reflexivity)) as [_ Hs].
    apply (Hs day_alice 0 "alice" true 30 after_alice).
    vm_compute. reflexivity.
Defined.

(** * Runs of the further properties *)

Lemma init_headers_witness :
  calm blank
  /\ exists w1,
       __init__ blank = (Ok tt, w1)
       /\ resv w1 = [HEADERS] /\ vers w1 = [VERS_HEADERS] /\ locks w1 = locks blank
       /\ __init__ w1 = (Ok tt, w1).
Proof.
  assert (Hc : calm blank) by reflexivity.
  split; [exact Hc|].
  destruct (init_headers blank Hc) as (w1 & E & Hr & Hv & Hl & _ & _ & _ & E2).
  exists w1. repeat split; assumption.
Defined.

Lemma set_get_version_witness :
  calm fresh /\ headed (vers fresh)
  /\ exists w1,
       _set_version jan1 7 fresh = (Ok tt, w1)
       /\ _get_version jan1 w1 = (Ok 7, w1)
       /\ fst (_get_version jan2 w1) = fst (_get_version jan2 fresh).
Proof.
  assert (Hc : calm fresh) by reflexivity.
  assert (Hh : headed (vers fresh)) by discriminate.
  split; [exact Hc|]. split; [exact Hh|].
  destruct (set_get_version jan1 7 fresh Hc Hh) as (w1 & E & Eg & _ & _ & Ho).
  exists w1. repeat split; [exact E | exact Eg |].
  apply Ho. discriminate.
Defined.

Lemma set_version_idempotent_witness :
  calm garbled /\ headed (vers garbled)
  /\ exists w1,
       _set_version jan1 2 garbled = (Ok tt, w1) /\ _set_version jan1 2 w1 = (Ok tt, w1).
Proof.
  assert (Hc : calm garbled) by reflexivity.
  assert (Hh : headed (vers garbled)) by discriminate.
  split; [exact Hc|]. split; [exact Hh|].
  exact (set_version_idempotent jan1 2 garbled Hc Hh).
Defined.

Lemma find_rows_exact_witness :
  calm with_court_c
  /\ exists idxs,
       _find_rows_for_date WsResv jan1 with_court_c = (Ok idxs, with_court_c)
       /\ increasing idxs
       /\ (In 2%nat idxs
           <-> (2 <= 2)%nat
               /\ exists rest,
                    nth_error (get_sheet WsResv with_court_c) (2 - 1) = Some (jan1 :: rest)).
Proof.
  assert (Hc : calm with_court_c) by reflexivity.
  split; [exact Hc|].
  destruct (find_rows_exact WsResv jan1 with_court_c Hc) as (idxs & E & Hi & Hin).
  exists idxs. split; [exact E|]. split; [exact Hi|]. exact (Hin 2%nat).
Defined.

Lemma failure_verdict_wrote_nothing_witness :
  save_date jan1 day_alice_bob 0 "bob" true 30 after_alice
  = (Ok (false, "VERSION_CONFLICT"), after_bob_stale)
  /\ resv after_bob_stale = resv after_alice
  /\ vers after_bob_stale = vers after_alice.
Proof.
  assert (E : save_date jan1 day_alice_bob 0 "bob" true 30 after_alice
              = (Ok (false, "VERSION_CONFLICT"), after_bob_stale))
    by (vm_compute; reflexivity).
  split; [exact E|].
  exact (proj2 (failure_verdict_wrote_nothing jan1 day_alice_bob 0 "bob" true 30
                  after_alice after_bob_stale "VERSION_CONFLICT" E)).
Defined.

Lemma unlocked_version_kept_witness :
  fst (save_date jan1 day_alice 3 "alice" false 30 garbled) <> Ok (true, "")
  /\ vers (snd (save_date jan1 day_alice 3 "alice" false 30 garbled)) = vers garbled.
Proof.
  assert (H : fst (save_date jan1 day_alice 3 "alice" false 30 garbled) <> Ok (true, ""))
    by (vm_compute; discriminate).
  split; [exact H|].
  exact (unlocked_version_kept jan1 day_alice 3 "alice" 30 garbled H).
Defined.

Lemma load_date_last_row_witness :
  calm after_alice /\ ("A" = "A" \/ "A" = "B")
  /\ exists d,
       load_date jan1 after_alice = (Ok (d, stored_version jan1 (vers after_alice)), after_alice)
       /\ dict_get "LUNCHA" (lane_of "A" d)
          = Some (Some (mkSlot "alice" "" "2024-01-01T09:00:00")).
Proof.
  assert (Hc : calm after_alice) by reflexivity.
  assert (Ha : "A" = "A" \/ "A" = "B") by (left; reflexivity).
  split; [exact Hc|]. split; [exact Ha|].
  destruct (load_date_last_row jan1 "A" "LUNCHA" after_alice Hc Ha) as (d & E & Hd).
  exists d. split; [exact E|]. rewrite Hd. vm_compute. reflexivity.
Defined.

Lemma other_keys_untouched_witness :
  calm after_alice /\ jan1 <> jan2
  /\ fst (load_date jan1 (snd (save_date jan2 day_alice_bob 0 "bob" true 30 after_alice)))
     = fst (load_date jan1 after_alice).
Proof.
  assert (Hc : calm after_alice) by reflexivity.
  assert (Hk : jan1 <> jan2) by discriminate.
  split; [exact Hc|]. split; [exact Hk|].
  exact (other_keys_untouched jan2 jan1 day_alice_bob 0 "bob" true 30 after_alice Hc Hk).
Defined.





Lemma book_block_empty_day_witness :
  ("B" = "A" \/ "B" = "B") /\ In "AFTER" BLOCKS
  /\ book_block [] jan1 "B" "AFTER" "bob" "" fresh = (Ok KeyError, fresh)
  /\ exists d',
       book_block (ensure_day []) jan1 "B" "AFTER" "bob" "" fresh
       = (Ok (Found (d', (true, ""))), fresh).
Proof.
  assert (Hc : "B" = "A" \/ "B" = "B") by (right; reflexivity).
  assert (Hb : In "AFTER" BLOCKS) by (right; right; left; reflexivity).
  split; [exact Hc|]. split; [exact Hb|].
  exact (book_block_empty_day jan1 "B" "AFTER" "bob" "" fresh Hc Hb).
Defined.

Lemma book_block_keeps_occupants_witness :
  book_block day_alice jan1 "B" "LUNCHA" "bob" " doubles " fresh
  = (Ok (Found (bob_joins, (true, ""))), fresh)
  /\ dict_get "LUNCHA" (lane_of "A" bob_joins)
     = Some (Some (mkSlot "alice" "" "2024-01-01T09:00:00")).
Proof.
  assert (E : book_block day_alice jan1 "B" "LUNCHA" "bob" " doubles " fresh
              = (Ok (Found (bob_joins, (true, ""))), fresh)) by (vm_compute; reflexivity).
  split; [exact E|].
  destruct (book_block_keeps_occupants day_alice jan1 "B" "LUNCHA" "bob" " doubles "
              fresh fresh _ E) as (_ & _ & Hk).
  apply (Hk bob_joins (true, "") eq_refl "A" "LUNCHA"). reflexivity.
Defined.

Lemma book_block_single_court_witness :
  single_court day_alice
  /\ book_block day_alice jan1 "B" "LUNCHA" "bob" " doubles " fresh
     = (Ok (Found (bob_joins, (true, ""))), fresh)
  /\ single_court bob_joins.
Proof.
  assert (Hs : single_court day_alice).
  { intros b sa sb _ Hb. exfalso. revert Hb.
    change (lane_of "B" day_alice) with no_one. cbn [dict_get no_one].
    destruct (String.eqb "LUNCHA" b); [discriminate|].
    destruct (String.eqb "LUNCHB" b); [discriminate|].
    destruct (String.eqb "AFTER" b); discriminate. }
  assert (E : book_block day_alice jan1 "B" "LUNCHA" "bob" " doubles " fresh
              = (Ok (Found (bob_joins, (true, ""))), fresh)) by (vm_compute; reflexivity).
  split; [exact Hs|]. split; [exact E|].
  exact (book_block_single_court day_alice bob_joins jan1 "B" "LUNCHA" "bob" " doubles "
           fresh fresh (true, "") Hs E).
Defined.

Lemma book_then_cancel_witness :
  book_block day_alice jan1 "B" "LUNCHA" "bob" " doubles " fresh
  = (Ok (Found (bob_joins, (true, ""))), fresh)
  /\ cancel_block bob_joins jan1 "B" "LUNCHA" "carol" = (ensure_day day_alice, (true, "")).
Proof.
  assert (E : book_block day_alice jan1 "B" "LUNCHA" "bob" " doubles " fresh
              = (Ok (Found (bob_joins, (true, ""))), fresh)) by (vm_compute; reflexivity).
  split; [exact E|].
  exact (book_then_cancel day_alice bob_joins jan1 "B" "LUNCHA" "bob" " doubles "
           fresh fresh "" jan1 "carol" E).
Defined.

Lemma try_book_refused_witness :
  try_book jan1 "A" "LUNCHA" "bob" "" after_alice
  = (Ok (Found (false, "TAKEN")), after_alice)
  /\ resv after_alice = resv after_alice /\ vers after_alice = vers after_alice
  /\ ((("TAKEN" = "TAKEN" \/ "TAKEN" = "OVERLAP")
       /\ locks after_alice = locks after_alice /\ clock after_alice = clock after_alice
       /\ entropy after_alice = entropy after_alice)
      \/ "TAKEN" = "LOCK_FAIL" \/ "TAKEN" = "VERSION_CONFLICT").
Proof.
  assert (E : try_book jan1 "A" "LUNCHA" "bob" "" after_alice
              = (Ok (Found (false, "TAKEN")), after_alice)) by (vm_compute; reflexivity).
  split; [exact E|].
  exact (try_book_refused jan1 "A" "LUNCHA" "bob" "" after_alice after_alice "TAKEN" E).
Defined.


Lemma try_book_succeeds_witness :
  calm fresh /\ headed (locks fresh) /\ vacant jan1 (locks fresh)
  /\ ("A" = "A" \/ "A" = "B") /\ In "LUNCHA" BLOCKS
  /\ fst (load_date jan1 fresh) = Ok ([("A", no_one); ("B", no_one)], 0)
  /\ fst (try_book jan1 "A" "LUNCHA" "alice" "" fresh) = Ok (Found (true, "")).
Proof.
  assert (Hc : calm fresh) by reflexivity.
  assert (Hh : headed (locks fresh)) by discriminate.
  assert (Hv : vacant jan1 (locks fresh)) by exact I.
  assert (Ha : "A" = "A" \/ "A" = "B") by (left; reflexivity).
  assert (Hb : In "LUNCHA" BLOCKS) by (left; reflexivity).
  assert (El : fst (load_date jan1 fresh) = Ok ([("A", no_one); ("B", no_one)], 0))
    by (vm_compute; reflexivity).
  split; [exact Hc|]. split; [exact Hh|]. split; [exact Hv|].
  split; [exact Ha|]. split; [exact Hb|]. split; [exact El|].
  apply (try_book_succeeds jan1 "A" "LUNCHA" "alice" "" fresh _ _ Hc Hh Hv Ha Hb El).
  - intros s. discriminate.
  - reflexivity.
Defined.

Lemma try_cancel_refused_witness :
  try_cancel jan1 "A" "LUNCHA" "bob" fresh = (Ok (false, "NOT_FOUND"), fresh)
  /\ resv fresh = resv fresh /\ vers fresh = vers fresh
  /\ (("NOT_FOUND" = "NOT_FOUND"
       /\ locks fresh = locks fresh /\ clock fresh = clock fresh
       /\ entropy fresh = entropy fresh)
      \/ "NOT_FOUND" = "LOCK_FAIL" \/ "NOT_FOUND" = "VERSION_CONFLICT").
Proof.
  assert (E : try_cancel jan1 "A" "LUNCHA" "bob" fresh = (Ok (false, "NOT_FOUND"), fresh))
    by (vm_compute; reflexivity).
  split; [exact E|].
  exact (try_cancel_refused jan1 "A" "LUNCHA" "bob" fresh fresh "NOT_FOUND" E).
Defined.

Lemma try_cancel_calm_witness :
  calm after_alice /\ headed (resv after_alice) /\ headed (vers after_alice)
  /\ exists ok reason w',
       try_cancel jan1 "A" "LUNCHA" "bob" after_alice = (Ok (ok, reason), w')
       /\ calm w' /\ reason <> "VERSION_CONFLICT".
Proof.
  assert (Hc : calm after_alice) by reflexivity.
  assert (Hr : headed (resv after_alice)) by (vm_compute; discriminate).
  assert (Hv : headed (vers after_alice)) by (vm_compute; discriminate).
  split; [exact Hc|]. split; [exact Hr|]. split; [exact Hv|].
  destruct (try_cancel_calm jan1 "A" "LUNCHA" "bob" after_alice Hc Hr Hv)
    as (ok & reason & w' & d0 & v0 & _ & E & Hc' & Hn & _).
  exists ok, reason, w'. repeat split; assumption.
Defined.
